(** * superblockify: partitioning checks, bearing partitioner and metrics

    A shallow embedding of the partitioning-and-metrics engine of
    superblockify (Python) and the properties its specification states
    about it.  Every definition names the source function it follows.

    Conventions of the embedding
    - a Python call that may raise returns a [result]: [Returned v] or
      [Raised e];
    - a method that mutates its object is a function from the object's
      state to a [result] and the state after the call (mutations made
      before an exception stay);
    - Python [dict]s whose iteration order matters are association lists
      in insertion order; sets are [gset]s; the file store is a [gmap];
    - a Python list mutated by index is a [list] with stdpp's lookup,
      insert and delete, the out-of-range behaviour written out;
    - a finite floating point number is the rational it stands for, with
      a [NaN] and the two infinities beside them; comparisons are exact,
      and the arithmetic is exact too but for the operations of the peak
      detection, which are left open (class [Floats]). *)

From Stdlib Require Import ZArith QArith Qround String Ascii List Bool Lia Lqa.
From stdpp Require Import base gmap sets list strings sorting pretty.

Local Open Scope string_scope.
Local Open Scope list_scope.
Local Open Scope Z_scope.

(** ** Python values, exceptions and results *)

Module Py.

Inductive exception : Type :=
| ValueError (msg : string)
| TypeError (msg : string)
| ArithmeticError (msg : string)
| AssertionError (msg : string)
| IndexError (msg : string)
| KeyError (msg : string)
| FileNotFoundError (msg : string)
| NetworkXPointlessConcept (msg : string)
| RecursionError (msg : string)
| UnpicklingError (msg : string)
| EOFError (msg : string).

Inductive result (A : Type) : Type :=
| Returned (a : A)
| Raised (e : exception).

Arguments Returned {A} a.
Arguments Raised {A} e.

Definition bind {A B : Type} (r : result A) (k : A -> result B) : result B :=
  match r with
  | Returned a => k a
  | Raised e => Raised e
  end.

(** A Python float: a rational, NaN, or an infinity. *)
Inductive pyfloat : Type :=
| NaN
| Inf (negative : bool)
| Fin (q : Q).

Definition Qlt_bool (a b : Q) : bool := negb (Qle_bool b a).

(** [a < b] on floats: every comparison with NaN is false. *)
Definition float_lt (a b : pyfloat) : bool :=
  match a, b with
  | NaN, _ | _, NaN => false
  | Inf true, Inf true => false
  | Inf true, _ => true
  | _, Inf true => false
  | Inf false, _ => false
  | _, Inf false => true
  | Fin x, Fin y => Qlt_bool x y
  end.

(** [a == b] on floats: NaN differs from itself. *)
Definition float_eq (a b : pyfloat) : bool :=
  match a, b with
  | Fin x, Fin y => Qeq_bool x y
  | Inf s, Inf t => Bool.eqb s t
  | _, _ => false
  end.

Definition isnan (a : pyfloat) : bool :=
  match a with NaN => true | _ => false end.

#[local] Set Warnings "-register-all".

(** The values the modelled attributes hold.  A [dict] keeps its keys in
    insertion order; an [ndarray] is a [PArray] of rows. *)
Inductive value : Type :=
| PNone
| PBool (b : bool)
| PInt (z : Z)
| PFloat (f : pyfloat)
| PStr (s : string)
| PList (l : list value)
| PArray (rows : list (list pyfloat))
| PDict (d : list (string * value)).

Definition is_none (v : value) : bool :=
  match v with PNone => true | _ => false end.

(** A method of an object with state [S]: the result of the call and the
    state after it.  An exception keeps the mutations made before it. *)
Definition method (S A : Type) : Type := S -> result A * S.

Definition mbind_method {S A B : Type} (m : method S A) (k : A -> method S B)
    : method S B :=
  fun s => match m s with
           | (Returned a, s') => k a s'
           | (Raised e, s') => (Raised e, s')
           end.

Definition ret {S A : Type} (a : A) : method S A := fun s => (Returned a, s).
Definition raise {S A : Type} (e : exception) : method S A := fun s => (Raised e, s).
Definition get {S : Type} : method S S := fun s => (Returned s, s).
Definition put {S : Type} (s : S) : method S unit := fun _ => (Returned tt, s).
Definition lift {S A : Type} (r : result A) : method S A := fun s => (r, s).

End Py.

Export Py.

Notation "x <- r ;; k" := (Py.bind r (fun x => k))
  (at level 100, r at next level, right associativity, only parsing).
Notation "x <~ m ;; k" := (Py.mbind_method m (fun x => k))
  (at level 100, m at next level, right associativity, only parsing).

(** ** [BearingPartitioner.merge_sets] and [group_overlapping_intervals]
    (partitioning/bearing.py) *)

Module MergeSets.

Section merge_sets.
Context {A : Type} `{Countable A}.

(** [group & group2] is truthy when the intersection is not empty. *)
Definition intersects (group group2 : gset A) : bool :=
  bool_decide (group ∩ group2 ≠ ∅).

(** The inner [for j, group2 in enumerate(sets)] of [merge_sets], for the
    outer index [i] and the set [group] bound when the outer iteration
    began.  The list iterator reads [sets[j]] from the list as it is at
    that moment and stops when [j] is past its end.  [sets[i] = ...]
    raises IndexError when [i] is out of range; [sets.pop(j)] is always
    in range here.  [fuel] bounds the iterations left: the list never
    grows, so its length at the start is enough ([merge_inner_fuel]). *)
Fixpoint merge_inner (fuel : nat) (i : nat) (group : gset A) (j : nat)
    (sets : list (gset A)) : result (list (gset A)) :=
  match fuel with
  | O => Returned sets
  | S fuel' =>
      match sets !! j with
      | None => Returned sets
      | Some group2 =>
          if negb (Nat.eqb i j) && intersects group group2 then
            if Nat.ltb i (length sets) then
              merge_inner fuel' i group (S j)
                (delete j (<[i := group ∪ group2]> sets))
            else Raised (IndexError "list assignment index out of range")
          else merge_inner fuel' i group (S j) sets
      end
  end.

(** The outer [for i, group in enumerate(sets)]. *)
Fixpoint merge_outer (fuel : nat) (i : nat) (sets : list (gset A))
    : result (list (gset A)) :=
  match fuel with
  | O => Returned sets
  | S fuel' =>
      match sets !! i with
      | None => Returned sets
      | Some group =>
          sets' <- merge_inner (length sets) i group 0 sets ;;
          merge_outer fuel' (S i) sets'
      end
  end.

(** [merge_sets(sets)]: the list is mutated in place and returned. *)
Definition merge_sets (sets : list (gset A)) : result (list (gset A)) :=
  merge_outer (length sets) 0 sets.

End merge_sets.

End MergeSets.

(** ** Floating point

    A finite float is a rational, and the model has it as one; what it
    compares, it compares exactly, as Python does.  The operations whose
    rounding decides which peaks the histogram has are left open: the
    difference of two floats, [numpy.mean] and [numpy.sqrt].  Every
    statement about them holds whatever they return, so also for what
    the binary64 arithmetic of the machine returns. *)

Module Rounding.

Class Floats : Type :=
  { float_minus : Q -> Q -> Q;
    np_mean : list Q -> Q;
    np_sqrt : Q -> Q }.

End Rounding.

Export Rounding.

(** ** [scipy.signal.find_peaks], as [BearingPartitioner.__find_peaks]
    calls it: with [height], [prominence] and [distance] given and nothing
    else.  The library is not part of the repository; the definitions
    follow its documented algorithm step by step. *)

Module Scipy.

Local Open Scope nat_scope.

Definition at_ (x : list Q) (i : nat) : Q := nth i x 0%Q.

(** A peak of [_local_maxima_1d]: its midpoint and the edges of its
    plateau. *)
Record maximum : Type := { midpoint : nat; left_edge : nat; right_edge : nat }.

(** [while i_ahead < i_max and x[i_ahead] == x[i]: i_ahead += 1] *)
Fixpoint plateau_end (fuel : nat) (x : list Q) (xi : Q) (i_ahead i_max : nat)
    : nat :=
  match fuel with
  | O => i_ahead
  | S fuel' =>
      if Nat.ltb i_ahead i_max && Qeq_bool (at_ x i_ahead) xi
      then plateau_end fuel' x xi (S i_ahead) i_max
      else i_ahead
  end.

(** The [while i < i_max] loop of [_local_maxima_1d]: the first and the
    last sample are never maxima; a maximum is a sample (or a flat run of
    samples) with a smaller sample on each side. *)
Fixpoint local_maxima_from (fuel : nat) (x : list Q) (i i_max : nat)
    : list maximum :=
  match fuel with
  | O => []
  | S fuel' =>
      if Nat.ltb i i_max then
        if Qlt_bool (at_ x (i - 1)) (at_ x i) then
          let i_ahead := plateau_end (length x) x (at_ x i) (S i) i_max in
          if Qlt_bool (at_ x i_ahead) (at_ x i) then
            {| midpoint := (i + (i_ahead - 1)) / 2;
               left_edge := i; right_edge := i_ahead - 1 |}
              :: local_maxima_from fuel' x (S i_ahead) i_max
          else local_maxima_from fuel' x (S i) i_max
        else local_maxima_from fuel' x (S i) i_max
      else []
  end.

Definition local_maxima_1d (x : list Q) : list maximum :=
  local_maxima_from (length x) x 1 (length x - 1).

(** [_select_by_property(prop, pmin, None)]: [pmin <= prop]. *)
Definition select_by_property (pmin : Q) (prop : Q) : bool := Qle_bool pmin prop.

(** [np.argsort(priority)]: the positions ordered by rising priority (an
    insertion sort; equal priorities keep their order). *)
Fixpoint insert_by (priority : nat -> Q) (j : nat) (order : list nat) : list nat :=
  match order with
  | [] => [j]
  | k :: rest =>
      if Qlt_bool (priority j) (priority k) then j :: order
      else k :: insert_by priority j rest
  end.

Definition argsort (priority : list Q) : list nat :=
  fold_left (fun order j => insert_by (at_ priority) j order)
            (seq 0 (length priority)) [].

(** The flags [_select_by_peak_distance] clears around a kept peak [j]:
    every other peak closer than [distance_] samples (the two [while]
    loops walk outwards and stop at the first peak that is far enough;
    the peaks are sorted, so these are the peaks they clear). *)
Definition clear_neighbours (peaks : list nat) (distance_ : nat) (j : nat)
    (keep : list bool) : list bool :=
  imap (fun k flag =>
          if Nat.eqb k j then flag
          else if Nat.ltb k j
               then if Nat.ltb (nth j peaks 0 - nth k peaks 0) distance_
                    then false else flag
               else if Nat.ltb (nth k peaks 0 - nth j peaks 0) distance_
                    then false else flag)
       keep.

(** [_select_by_peak_distance(peaks, priority, distance)]: the peaks are
    visited from the highest priority down, and a peak still kept clears
    its close neighbours. *)
Definition select_by_peak_distance (peaks : list nat) (priority : list Q)
    (distance_ : nat) : list bool :=
  fold_left
    (fun keep j =>
       if nth j keep false then clear_neighbours peaks distance_ j keep
       else keep)
    (rev (argsort priority))
    (repeat true (length peaks)).

(** [peaks[keep]] *)
Fixpoint mask {A : Type} (l : list A) (keep : list bool) : list A :=
  match l, keep with
  | a :: l', b :: keep' => if b then a :: mask l' keep' else mask l' keep'
  | _, _ => []
  end.

(** The left scan of [_peak_prominences]: from the peak down to index 0
    while [x[i] <= x[peak]], keeping the lowest sample and where it is. *)
Fixpoint left_scan (x : list Q) (xpeak : Q) (i : nat) (left_min : Q)
    (left_base : nat) : Q * nat :=
  if Qle_bool (at_ x i) xpeak then
    let '(m, b) := if Qlt_bool (at_ x i) left_min then (at_ x i, i)
                   else (left_min, left_base) in
    match i with
    | O => (m, b)
    | S i' => left_scan x xpeak i' m b
    end
  else (left_min, left_base).

(** The right scan: from the peak up to the last index. *)
Fixpoint right_scan (fuel : nat) (x : list Q) (xpeak : Q) (i : nat)
    (right_min : Q) (right_base : nat) : Q * nat :=
  match fuel with
  | O => (right_min, right_base)
  | S fuel' =>
      if Nat.ltb i (length x) && Qle_bool (at_ x i) xpeak then
        let '(m, b) := if Qlt_bool (at_ x i) right_min then (at_ x i, i)
                       else (right_min, right_base) in
        right_scan fuel' x xpeak (S i) m b
      else (right_min, right_base)
  end.

Definition Qmax (a b : Q) : Q := if Qle_bool a b then b else a.

Record prominence_data : Type :=
  { prominence_of : Q; left_base_of : nat; right_base_of : nat }.

(** [_peak_prominences(x, peaks, wlen=None)] for one peak. *)
Definition peak_prominence `{Floats} (x : list Q) (peak : nat) : prominence_data :=
  let xpeak := at_ x peak in
  let '(left_min, left_base) := left_scan x xpeak peak xpeak peak in
  let '(right_min, right_base) :=
    right_scan (length x) x xpeak peak xpeak peak in
  {| prominence_of := float_minus xpeak (Qmax left_min right_min);
     left_base_of := left_base; right_base_of := right_base |}.

(** What [find_peaks] returns: the peak indices and, index by index, the
    properties [__make_boundaries] and the plots read. *)
Record peaks_result : Type :=
  { peaks : list nat;
    peak_heights : list Q;
    prominences : list Q;
    left_bases : list nat;
    right_bases : list nat }.

(** [find_peaks(x, height=height, prominence=prominence, distance=distance)] *)
Definition find_peaks `{Floats} (x : list Q) (height prominence : Q) (distance : Z)
    : result peaks_result :=
  if Z.ltb distance 1 then
    Raised (ValueError "`distance` must be greater or equal to 1")
  else
    let peaks0 := map midpoint (local_maxima_1d x) in
    (* height *)
    let peaks1 := filter (fun p => select_by_property height (at_ x p) = true) peaks0 in
    (* distance *)
    let keep := select_by_peak_distance peaks1 (map (at_ x) peaks1)
                  (Z.to_nat distance) in
    let peaks2 := mask peaks1 keep in
    (* prominence *)
    let peaks3 := filter (fun p => select_by_property prominence
                                     (prominence_of (peak_prominence x p)) = true)
                         peaks2 in
    Returned
      {| peaks := peaks3;
         peak_heights := map (at_ x) peaks3;
         prominences := map (fun p => prominence_of (peak_prominence x p)) peaks3;
         left_bases := map (fun p => left_base_of (peak_prominence x p)) peaks3;
         right_bases := map (fun p => right_base_of (peak_prominence x p)) peaks3 |}.

End Scipy.

(** ** The graph, as the partitioners use networkx.MultiDiGraph *)

Module Networkx.

Definition Node : Type := Z.
(** An edge of a multigraph: [(u, v, key)]. *)
Definition Edge : Type := (Z * Z * Z)%type.

Definition source (e : Edge) : Node := e.1.1.
Definition target (e : Edge) : Node := e.1.2.

(** The nodes and edges of a graph or of a subgraph view, in iteration
    order. *)
Record Graph : Type := { nodes : list Node; edges : list Edge }.

(** The attribute dictionaries of the edges.  A subgraph view shares them
    with its parent graph: an attribute written through a view is
    written here. *)
Definition EdgeData : Type := gmap Edge (gmap string value).

Definition edge_attr (data : EdgeData) (e : Edge) (name : string) : option value :=
  data !! e ≫= fun attrs => attrs !! name.

(** [graph.edges[edge][name] = v] *)
Definition set_edge_attr (e : Edge) (name : string) (v : value) (data : EdgeData)
    : EdgeData :=
  <[e := <[name := v]> (default ∅ (data !! e))]> data.

(** [nx.get_edge_attributes(G, name)]: the edges that have the attribute,
    with its value, in edge order. *)
Definition get_edge_attributes (G : Graph) (data : EdgeData) (name : string)
    : list (Edge * value) :=
  omap (fun e => v ← edge_attr data e name; Some (e, v)) (edges G).

(** [nx.set_edge_attributes(G, values, name)] with a dict of values: every
    listed edge of [G] gets its value. *)
Definition set_edge_attributes_dict (G : Graph) (values : list (Edge * value))
    (name : string) (data : EdgeData) : EdgeData :=
  fold_left (fun d '(e, v) => if bool_decide (e ∈ edges G)
                              then set_edge_attr e name v d else d)
            values data.

(** [nx.set_edge_attributes(G, value, name)] with one value: every edge of
    [G] gets it. *)
Definition set_edge_attributes (G : Graph) (v : value) (name : string)
    (data : EdgeData) : EdgeData :=
  fold_left (fun d e => set_edge_attr e name v d) (edges G) data.

(** The nodes one undirected step away from [frontier]. *)
Definition neighbours (G : Graph) (reached : list Node) : list Node :=
  flat_map (fun e =>
              (if bool_decide (source e ∈ reached) then [target e] else [])
              ++ (if bool_decide (target e ∈ reached) then [source e] else []))
           (edges G).

(** The nodes reached from [reached] within [n] undirected steps. *)
Fixpoint reach (G : Graph) (n : nat) (reached : list Node) : list Node :=
  match n with
  | O => reached
  | S n' => reach G n' (reached ++ neighbours G reached)
  end.

(** [nx.is_weakly_connected(G)]: raises on the null graph; otherwise
    whether every node is reached from the first one in the undirected
    graph (a path visits at most [length (nodes G)] nodes). *)
Definition is_weakly_connected (G : Graph) : result bool :=
  match nodes G with
  | [] => Raised (NetworkXPointlessConcept
                    "Connectivity is undefined for the null graph.")
  | n0 :: _ =>
      let reached := reach G (length (nodes G)) [n0] in
      Returned (forallb (fun n => bool_decide (n ∈ reached)) (nodes G))
  end.

End Networkx.

(** ** numpy, as the bearing partitioner uses it *)

Module Numpy.

(** Sums are kept in lowest terms ([Qred] does not change the number). *)
Definition np_sum (x : list Q) : Q := fold_right (fun a b => Qred (a + b)) 0%Q x.

Definition np_min (x : list Q) : Q :=
  fold_right (fun a m => if Qle_bool a m then a else m) (hd 0%Q x) x.

Definition np_max (x : list Q) : Q :=
  fold_right (fun a m => if Qle_bool m a then a else m) (hd 0%Q x) x.

Fixpoint insert_sorted (a : Q) (l : list Q) : list Q :=
  match l with
  | [] => [a]
  | b :: l' => if Qle_bool a b then a :: l else b :: insert_sorted a l'
  end.

Definition np_sort (x : list Q) : list Q := fold_right insert_sorted [] x.

(** [np.unique]: the sorted values, each once. *)
Fixpoint dedup_sorted (l : list Q) : list Q :=
  match l with
  | a :: l' =>
      match l' with
      | b :: _ => if Qeq_bool a b then dedup_sorted l' else a :: dedup_sorted l'
      | [] => [a]
      end
  | [] => []
  end.

Definition np_unique (x : list Q) : list Q := dedup_sorted (np_sort x).

Definition np_median (x : list Q) : Q :=
  let s := np_sort x in
  let n := length s in
  if Nat.even n
  then ((nth (n / 2 - 1) s 0 + nth (n / 2) s 0) / 2)%Q
  else nth (n / 2) s 0%Q.

(** [np.std(x)]: the root of the mean squared deviation. *)
Definition np_std `{Floats} (x : list Q) : Q :=
  let m := np_mean x in
  np_sqrt (np_mean (map (fun v => Qred ((v - m) * (v - m))) x)).

(** [int(q)]: truncation towards zero. *)
Definition int_of (q : Q) : Z := Z.quot (Qnum q) (Z.pos (Qden q)).

(** [np.arange(n)] *)
Definition arange (n : Z) : list Z := seqZ 0 n.

(** One bin of [np.histogram(a, bins)]: [lo <= v < hi], the last bin
    closed on the right.  NaN and the infinities fall in no bin. *)
Definition in_bin (lo hi : Q) (last : bool) (v : pyfloat) : bool :=
  match v with
  | Fin q => Qle_bool lo q && (if last then Qle_bool q hi else Qlt_bool q hi)
  | _ => false
  end.

Fixpoint histogram (a : list pyfloat) (bins : list Q) : list Z :=
  match bins with
  | lo :: bins' =>
      match bins' with
      | hi :: rest =>
          Z.of_nat (length (filter (fun v => in_bin lo hi
                                      (match rest with [] => true | _ => false end) v = true) a))
            :: histogram a bins'
      | [] => []
      end
  | [] => []
  end.

(** [np.roll(count, 1)] *)
Definition roll1 {A : Type} (l : list A) : list A :=
  match rev l with
  | [] => []
  | last :: front => last :: rev front
  end.

(** [l[::2]] and [l[1::2]] *)
Fixpoint evens {A : Type} (l : list A) : list A :=
  match l with
  | [] => []
  | a :: l' => a :: match l' with [] => [] | _ :: l'' => evens l'' end
  end.

Definition odds {A : Type} (l : list A) : list A := evens (tl l).

End Numpy.

(** ** Plotting by an edge attribute (superblockify/plot.py)

    The drawing is osmnx's and matplotlib's; the model keeps what the
    functions of the repository compute: the range of the attribute and,
    edge by edge, the number handed to the colormap.  The debug lines
    they log are left out.  Ints and floats are one kind of number here,
    compared and subtracted exactly: where Python rounds (an int beyond
    2^53 next to a float) or numpy wraps (int64), the model does not
    follow. *)

Module Plot.

Import Networkx.

(** [a >= b] on floats *)
Definition float_ge (a b : pyfloat) : bool := float_lt b a || float_eq a b.

(** [a - b] and [a / b] on floats.  The one division of this module is
    by the width of a range that passed [determine_minmax_val], which is
    never zero. *)
Definition float_sub (a b : pyfloat) : pyfloat :=
  match a, b with
  | NaN, _ | _, NaN => NaN
  | Inf s, Inf t => if Bool.eqb s t then NaN else Inf s
  | Inf s, Fin _ => Inf s
  | Fin _, Inf t => Inf (negb t)
  | Fin x, Fin y => Fin (x - y)
  end.

Definition float_div (a b : pyfloat) : pyfloat :=
  match a, b with
  | NaN, _ | _, NaN => NaN
  | Inf _, Inf _ => NaN
  | Inf s, Fin y => Inf (xorb s (Qlt_bool y 0))
  | Fin _, Inf _ => Fin 0
  | Fin x, Fin y => Fin (x / y)
  end.

(** [if v]: the truth value of an attribute value.  An array with more
    than one element has none. *)
Definition truthy (v : value) : result bool :=
  match v with
  | PNone => Returned false
  | PBool b => Returned b
  | PInt z => Returned (negb (z =? 0))
  | PFloat (Fin q) => Returned (negb (Qeq_bool q 0))
  | PFloat _ => Returned true
  | PStr s => Returned (negb (String.eqb s ""))
  | PList l => Returned (match l with [] => false | _ => true end)
  | PDict d => Returned (match d with [] => false | _ => true end)
  | PArray rows =>
      match concat rows with
      | [] => Returned false
      | [Fin q] => Returned (negb (Qeq_bool q 0))
      | [_] => Returned true
      | _ => Raised (ValueError "The truth value of an array with more than one element is ambiguous.")
      end
  end.

(** [[v for v in values if v]] *)
Fixpoint truthy_values (values : list value) : result (list value) :=
  match values with
  | [] => Returned []
  | v :: values' =>
      keep <- truthy v ;;
      rest <- truthy_values values' ;;
      Returned (if keep then v :: rest else rest)
  end.

(** The array numpy makes of a list of numbers.  What numpy does with a
    list that holds anything else is not followed: the model raises. *)
Definition number (v : value) : result pyfloat :=
  match v with
  | PFloat f => Returned f
  | PInt z => Returned (Fin (inject_Z z))
  | PBool b => Returned (Fin (if b then 1 else 0)%Q)
  | _ => Raised (TypeError "cannot perform reduce with flexible type")
  end.

Fixpoint numbers (values : list value) : result (list pyfloat) :=
  match values with
  | [] => Returned []
  | v :: values' =>
      x <- number v ;;
      xs <- numbers values' ;;
      Returned (x :: xs)
  end.

(** [numpy.amin] and [numpy.amax]: a NaN wins, and an empty array has no
    minimum. *)
Definition float_min (a b : pyfloat) : pyfloat :=
  if isnan a then a else if isnan b then b else if float_lt b a then b else a.

Definition float_max (a b : pyfloat) : pyfloat :=
  if isnan a then a else if isnan b then b else if float_lt a b then b else a.

Definition amin (x : list pyfloat) : result pyfloat :=
  match x with
  | [] => Raised (ValueError "zero-size array to reduction operation minimum which has no identity")
  | a :: x' => Returned (fold_left float_min x' a)
  end.

Definition amax (x : list pyfloat) : result pyfloat :=
  match x with
  | [] => Raised (ValueError "zero-size array to reduction operation maximum which has no identity")
  | a :: x' => Returned (fold_left float_max x' a)
  end.

(** [t[i]] on a tuple *)
Definition entry {A : Type} (t : list A) (i : nat) : result A :=
  match t !! i with
  | Some a => Returned a
  | None => Raised (IndexError "tuple index out of range")
  end.

(** [determine_minmax_val(graph, minmax_val, attr)].  [minmax_val] is
    [None] or a tuple whose entries are [None] or numbers; the result is
    the tuple returned. *)
Definition determine_minmax_val (G : Graph) (data : EdgeData)
    (minmax_val : option (list (option pyfloat))) (attr : string)
    : result (list (option pyfloat)) :=
  incomplete <- match minmax_val with
                | None => Returned true
                | Some t =>
                    first <- entry t 0 ;;
                    match first with
                    | None => Returned true
                    | Some _ =>
                        second <- entry t 1 ;;
                        Returned (match second with None => true | Some _ => false end)
                    end
                end ;;
  minmax_val <-
    (if incomplete : bool then
       (* Min and max of the attribute, ignoring `None` values *)
       values <- truthy_values (map snd (get_edge_attributes G data attr)) ;;
       array <- numbers values ;;
       lowest <- amin array ;;
       highest <- amax array ;;
       match minmax_val with
       | None => Returned [Some lowest; Some highest]
       | Some t =>
           first <- entry t 0 ;;
           match first with
           | None => second <- entry t 1 ;; Returned [Some lowest; second]
           | Some lo => Returned [Some lo; Some highest]
           end
       end
     else Returned (default [] minmax_val)) ;;
  first <- entry minmax_val 0 ;;
  second <- entry minmax_val 1 ;;
  match first, second with
  | Some lo, Some hi =>
      if float_ge lo hi
      then Raised (ValueError "The `minmax_val` attribute must have the first value smaller than the second.")
      else Returned minmax_val
  | _, _ => Raised (TypeError "'>=' not supported between instances of 'float' and 'NoneType'")
  end.

(** The argument of the colormap for one edge:
    [(attr_val - minmax_val[0]) / (minmax_val[1] - minmax_val[0])], and
    nothing (the edge is gray) when the attribute is [None] or missing. *)
Definition colour_argument (lo hi : pyfloat) (attr_val : option value)
    : result (option pyfloat) :=
  match attr_val with
  | None | Some PNone => Returned None
  | Some v =>
      x <- match v with
           | PFloat f => Returned f
           | PInt z => Returned (Fin (inject_Z z))
           | PBool b => Returned (Fin (if b then 1 else 0)%Q)
           | _ => Raised (TypeError "unsupported operand type(s) for -")
           end ;;
      Returned (Some (float_div (float_sub x lo) (float_sub hi lo)))
  end.

Fixpoint colour_arguments (lo hi : pyfloat) (attr_vals : list (option value))
    : result (list (option pyfloat)) :=
  match attr_vals with
  | [] => Returned []
  | attr_val :: attr_vals' =>
      c <- colour_argument lo hi attr_val ;;
      cs <- colour_arguments lo hi attr_vals' ;;
      Returned (c :: cs)
  end.

(** The argument [minmax_val] of [plot_by_attribute] can be anything. *)
Inductive argument : Type :=
| NotATuple
| Tuple (t : list (option pyfloat)).

(** [plot_by_attribute(graph, attr, minmax_val=..., **pg_kwargs)].  Of
    [pg_kwargs] the model has [edge_color] ([None] here: not passed); the
    result is the list [e_c] given to [osmnx.plot_graph] as [edge_color],
    in the order of [graph.edges].  The colormap lookup and the call of
    [osmnx.plot_graph] are taken to go through, but for the clash of two
    [edge_color] arguments, which Python finds at the call. *)
Definition plot_by_attribute (G : Graph) (data : EdgeData) (attr : string)
    (minmax_val : option argument) (edge_color : option value)
    : result (list (option pyfloat)) :=
  if match edge_color with Some v => negb (is_none v) | None => false end then
    Raised (ValueError "The `edge_color` attribute will be overwritten by the colors determined with the bearings and colormap.")
  else
    tuple <- match minmax_val with
             | None => Returned None
             | Some NotATuple =>
                 Raised (ValueError "The `minmax_val` attribute should be a tuple of length 2 or None.")
             | Some (Tuple t) =>
                 if negb (Nat.eqb (length t) 2)
                 then Raised (ValueError "The `minmax_val` attribute should be a tuple of length 2 or None.")
                 else Returned (Some t)
             end ;;
    minmax_val <- determine_minmax_val G data tuple attr ;;
    lo <- entry minmax_val 0 ;;
    hi <- entry minmax_val 1 ;;
    e_c <- colour_arguments (default NaN lo) (default NaN hi)
             (map (fun e => edge_attr data e attr) (edges G)) ;;
    match edge_color with
    | Some _ =>
        Raised (TypeError "plot_graph() got multiple values for keyword argument 'edge_color'")
    | None => Returned e_c
    end.

End Plot.

(** ** [BasePartitioner] and [BearingPartitioner]
    (partitioning/partitioner.py, partitioning/bearing.py) *)

Module Bearing.

Import Networkx Numpy.

(** An entry of [self.partition]: [{"name": ..., "value": ...}].  The
    name of a bearing partition is [str(boundaries[i : i + 2])]; the
    model keeps the slice the string is made of. *)
Record Part : Type := { part_name : list Q; part_value : Q }.

(** [self._bin_info]: a dict filled key by key; a key not yet written is
    [None] here. *)
Record BinInfo : Type :=
  { num_bins : Z;
    bin_edges : option (list Q);
    bin_frequency : option (list Q);
    mean : option Q;
    medi : option Q;
    std : option Q;
    min : option Q;
    max : option Q;
    peak_ind : option (list nat);
    peak_props : option Scipy.peaks_result }.

(** [self._inter_vals] *)
Record InterVals : Type :=
  { base_vals : option (list (Q * Q * Q));
    boundaries : option (list Q);
    center_values : option (list (option Q)) }.

Record BearingPartitioner : Type :=
  { graph : Graph;
    edge_data : EdgeData;
    name : string;
    partition : option (list Part);
    attribute_label : option string;
    attr_value_minmax : option (Q * Q);
    _bin_info : option BinInfo;
    _inter_vals : InterVals }.

(** [BasePartitioner.__init__] followed by [BearingPartitioner.__init__] *)
Definition __init__ (graph : Graph) (edge_data : EdgeData) (name : string)
    : BearingPartitioner :=
  {| graph := graph; edge_data := edge_data; name := name;
     partition := None; attribute_label := None; attr_value_minmax := None;
     _bin_info := None;
     _inter_vals := {| base_vals := None; boundaries := None;
                       center_values := None |} |}.

Definition set_edge_data (d : EdgeData) (s : BearingPartitioner) : BearingPartitioner :=
  {| graph := graph s; edge_data := d; name := name s;
     partition := partition s; attribute_label := attribute_label s;
     attr_value_minmax := attr_value_minmax s;
     _bin_info := _bin_info s; _inter_vals := _inter_vals s |}.

Definition set_bin_info (b : BinInfo) (s : BearingPartitioner) : BearingPartitioner :=
  {| graph := graph s; edge_data := edge_data s; name := name s;
     partition := partition s; attribute_label := attribute_label s;
     attr_value_minmax := attr_value_minmax s;
     _bin_info := Some b; _inter_vals := _inter_vals s |}.

Definition set_inter_vals (iv : InterVals) (s : BearingPartitioner) : BearingPartitioner :=
  {| graph := graph s; edge_data := edge_data s; name := name s;
     partition := partition s; attribute_label := attribute_label s;
     attr_value_minmax := attr_value_minmax s;
     _bin_info := _bin_info s; _inter_vals := iv |}.

Definition set_attribute_label (l : string) (s : BearingPartitioner) : BearingPartitioner :=
  {| graph := graph s; edge_data := edge_data s; name := name s;
     partition := partition s; attribute_label := Some l;
     attr_value_minmax := attr_value_minmax s;
     _bin_info := _bin_info s; _inter_vals := _inter_vals s |}.

Definition set_partition (p : list Part) (s : BearingPartitioner) : BearingPartitioner :=
  {| graph := graph s; edge_data := edge_data s; name := name s;
     partition := Some p; attribute_label := attribute_label s;
     attr_value_minmax := attr_value_minmax s;
     _bin_info := _bin_info s; _inter_vals := _inter_vals s |}.

(** [lambda bear: bear % 90].  For a float this is the exact remainder,
    in [0, 90); Python rounds it, so that a negative bearing next to
    zero gives 90.0 there. *)
Definition mod90 (bear : value) : result value :=
  match bear with
  | PFloat (Fin q) =>
      Returned (PFloat (Fin (q - 90 * inject_Z (Qfloor (q / 90)))%Q))
  | PFloat _ => Returned (PFloat NaN)
  | PInt z => Returned (PInt (z mod 90))
  | PBool b => Returned (PInt (if b then 1 else 0))
  | _ => Raised (TypeError "unsupported operand type(s) for %")
  end.

(** Modelled from the spec: [attribute.new_edge_attribute_by_function] is
    not among the sources.  For every edge it reads the source attribute,
    applies the function and writes the result to the target attribute;
    an edge without the source attribute gets [None]. *)
Fixpoint new_edge_attribute_by_function (es : list Edge)
    (f : value -> result value) (source_attr target_attr : string)
    (data : EdgeData) : result EdgeData :=
  match es with
  | [] => Returned data
  | e :: es' =>
      v <- match edge_attr data e source_attr with
           | Some v => f v
           | None => Returned PNone
           end ;;
      new_edge_attribute_by_function es' f source_attr target_attr
        (set_edge_attr e target_attr v data)
  end.

(** The conversion of the bearings to a float array for [np.histogram]. *)
Definition as_float (v : value) : result pyfloat :=
  match v with
  | PFloat f => Returned f
  | PInt z => Returned (Fin (inject_Z z))
  | PBool b => Returned (Fin (if b then 1 else 0)%Q)
  | _ => Raised (TypeError "float() argument must be a string or a real number")
  end.

Fixpoint as_float_array (vs : list value) : result (list pyfloat) :=
  match vs with
  | [] => Returned []
  | v :: vs' =>
      f <- as_float v ;;
      fs <- as_float_array vs' ;;
      Returned (f :: fs)
  end.

(** [BearingPartitioner.__bin_bearings(num_bins)].  For a graph with no
    bearing in range numpy divides by zero and the frequencies are NaN;
    the model has 0 in their place (neither has a local maximum). *)
Definition __bin_bearings (num_bins : Z) : method BearingPartitioner unit :=
  if num_bins <? 360 then
    raise (ValueError "The number of bins needs to be greater or equal than 360")
  else
    s <~ get ;;
    _ <~ put (set_bin_info
                {| num_bins := num_bins; bin_edges := None; bin_frequency := None;
                   mean := None; medi := None; std := None; min := None;
                   max := None; peak_ind := None; peak_props := None |} s) ;;
    data <~ lift (new_edge_attribute_by_function (edges (graph s)) mod90
                    "bearing" "bearing_90" (edge_data s)) ;;
    s <~ get ;;
    _ <~ put (set_edge_data data s) ;;
    let bins := map (fun i => (inject_Z i * 90 / inject_Z (num_bins * 2))%Q)
                    (arange (num_bins * 2 + 1)) in
    a <~ lift (as_float_array
                 (map snd (get_edge_attributes (graph s) data "bearing_90"))) ;;
    let count := histogram a bins in
    let count := roll1 count in
    let bin_counts := zip_with Z.add (evens count) (odds count) in
    let total := fold_right Z.add 0 bin_counts in
    s <~ get ;;
    put (set_bin_info
           {| num_bins := num_bins;
              bin_edges := Some (evens bins);
              bin_frequency :=
                Some (map (fun c => (inject_Z c / inject_Z total)%Q) bin_counts);
              mean := None; medi := None; std := None; min := None;
              max := None; peak_ind := None; peak_props := None |} s).

(** The [distance] argument of [find_peaks]: [int(0.4 * num_bins / 90)]. *)
Definition peak_distance (num_bins : Z) : Z :=
  int_of ((4 # 10) * inject_Z num_bins / 90)%Q.

(** [BearingPartitioner.__find_peaks()] *)
Definition __find_peaks `{Floats} : method BearingPartitioner unit :=
  s <~ get ;;
  match _bin_info s with
  | Some {| num_bins := nb; bin_edges := Some be; bin_frequency := Some bf |} =>
      let m := np_mean bf in
      let sd := np_std bf in
      let info :=
        {| num_bins := nb; bin_edges := Some be; bin_frequency := Some bf;
           mean := Some m; medi := Some (np_median bf); std := Some sd;
           min := Some (np_min bf); max := Some (np_max bf);
           peak_ind := None; peak_props := None |} in
      _ <~ put (set_bin_info info s) ;;
      r <~ lift (Scipy.find_peaks bf m sd (peak_distance nb)) ;;
      put (set_bin_info
             {| num_bins := nb; bin_edges := Some be; bin_frequency := Some bf;
                mean := Some m; medi := Some (np_median bf); std := Some sd;
                min := Some (np_min bf); max := Some (np_max bf);
                peak_ind := Some (Scipy.peaks r); peak_props := Some r |} s)
  | _ =>
      raise (AssertionError "BearingPartitioner has not been binned yet, run `__bin_bearings` before finding peaks.")
  end.

(** The pairs [(a, b)], [a < b], whose intervals overlap:
    [np.triu(mask, k=1).nonzero()] for
    [mask = (left_bases < right_bases[:, None]) & (right_bases > left_bases[:, None])],
    row by row. *)
Definition overlapping_pairs (left_bases right_bases : list nat) : list (nat * nat) :=
  let n := length left_bases in
  flat_map
    (fun a =>
       omap (fun b =>
               if Nat.ltb a b
                  && Nat.ltb (nth b left_bases O) (nth a right_bases O)
                  && Nat.ltb (nth a left_bases O) (nth b right_bases O)
               then Some (a, b) else None)
            (seq 0 n))
    (seq 0 n).

(** One pair of the grouping loop of [group_overlapping_intervals]: it
    joins the first group that holds one of the two, else it starts a
    group. *)
Fixpoint add_pair (group_1 group_2 : nat) (overlap_groups : list (gset nat))
    : list (gset nat) :=
  match overlap_groups with
  | [] => [{[group_1; group_2]}]
  | sublist :: rest =>
      if bool_decide (group_1 ∈ sublist) then ({[group_2]} ∪ sublist) :: rest
      else if bool_decide (group_2 ∈ sublist) then ({[group_1]} ∪ sublist) :: rest
      else sublist :: add_pair group_1 group_2 rest
  end.

(** [BearingPartitioner.group_overlapping_intervals(left_bases, right_bases)] *)
Definition group_overlapping_intervals (left_bases right_bases : list nat)
    : result (list (gset nat)) :=
  if negb (Nat.eqb (length left_bases) (length right_bases)) then
    Raised (ValueError "Input lists must be of the same length")
  else
    let overlap_groups :=
      fold_left (fun groups '(g1, g2) => add_pair g1 g2 groups)
                (overlapping_pairs left_bases right_bases) [] in
    MergeSets.merge_sets overlap_groups.

(** [a[i]] on a list, IndexError out of range. *)
Definition index {A : Type} (l : list A) (i : nat) : result A :=
  match l !! i with
  | Some a => Returned a
  | None => Raised (IndexError "index out of range")
  end.

(** The identical-bases check of [__make_boundaries]. *)
Definition identical_bases (left_bases right_bases : list nat) : bool :=
  existsb (fun i =>
    existsb (fun j =>
      negb (Nat.eqb i j)
      && Nat.eqb (nth i left_bases O) (nth j left_bases O)
      && Nat.eqb (nth i right_bases O) (nth j right_bases O))
      (seq 0 (length left_bases)))
    (seq 0 (length left_bases)).

(** The members of one overlap group get the consecutive intervals
    between the group's sorted distinct borders.  [members] are the
    group's elements in the order the set yields them (rising, for the
    small integers a group holds). *)
Fixpoint split_group (bin_edges : list Q) (borders : list nat)
    (members : list nat) (i : nat) (base_vals : list (Q * Q))
    : result (list (Q * Q)) :=
  match members with
  | [] => Returned base_vals
  | g :: members' =>
      b0 <- index borders i ;;
      b1 <- index borders (S i) ;;
      lo <- index bin_edges b0 ;;
      hi <- index bin_edges b1 ;;
      if Nat.ltb g (length base_vals)
      then split_group bin_edges borders members' (S i) (<[g := (lo, hi)]> base_vals)
      else Raised (IndexError "list assignment index out of range")
  end.

Definition sorted_nats (s : gset nat) : list nat :=
  merge_sort Nat.le (elements s).

Definition nat_unique (l : list nat) : list nat :=
  sorted_nats (list_to_set l).

(** [dict[key] = v]: an existing key keeps its place. *)
Fixpoint dict_set (key : Q * Q) (v : Q) (d : list (Q * Q * Q)) : list (Q * Q * Q) :=
  match d with
  | [] => [(key, v)]
  | (k, w) :: d' =>
      if Qeq_bool k.1 key.1 && Qeq_bool k.2 key.2 then (k, v) :: d'
      else (k, w) :: dict_set key v d'
  end.

(** The boundary and value arrays made from the dict of intervals. *)
Fixpoint boundary_arrays (items : list (Q * Q * Q)) (boundaries : list Q)
    (center_values : list (option Q)) : list Q * list (option Q) :=
  match items with
  | [] => (boundaries, center_values)
  | (interval, v) :: items' =>
      if Qeq_bool (List.last boundaries 0%Q) interval.1 then
        boundary_arrays items' (boundaries ++ [interval.2])
          (removelast center_values ++ [Some v; None])
      else
        boundary_arrays items' (boundaries ++ [interval.1; interval.2])
          (center_values ++ [Some v; None])
  end.

(** [[(bin_edges[left_bases[i]], bin_edges[right_bases[i]]) for i in range(n)]] *)
Fixpoint initial_base_vals (bin_edges : list Q) (left_bases right_bases : list nat)
    : result (list (Q * Q)) :=
  match left_bases with
  | [] => Returned []
  | l :: left_bases' =>
      lo <- index bin_edges l ;;
      r <- index right_bases 0 ;;
      hi <- index bin_edges r ;;
      rest <- initial_base_vals bin_edges left_bases' (tl right_bases) ;;
      Returned ((lo, hi) :: rest)
  end.

(** The loop [for group in overlap_groups] that splits each group by the
    borders its members share.  Python goes through a set in the order of
    its hash table; the model goes through the members in rising order
    (the two agree for members below the size of the table). *)
Fixpoint split_groups (bin_edges : list Q) (left_bases right_bases : list nat)
    (overlap_groups : list (gset nat)) (base_vals : list (Q * Q))
    : result (list (Q * Q)) :=
  match overlap_groups with
  | [] => Returned base_vals
  | group :: groups' =>
      let members := sorted_nats group in
      let borders :=
        nat_unique (flat_map (fun g => [nth g left_bases O; nth g right_bases O])
                             members) in
      base_vals' <- split_group bin_edges borders members 0 base_vals ;;
      split_groups bin_edges left_bases right_bases groups' base_vals'
  end.

(** The dict comprehension that maps every interval to the first peak
    strictly inside it; [[...][0]] raises IndexError when there is none. *)
Fixpoint interval_peaks (bin_edges : list Q) (peak_ind : list nat)
    (base_vals : list (Q * Q)) (d : list (Q * Q * Q)) : result (list (Q * Q * Q)) :=
  match base_vals with
  | [] => Returned d
  | ab :: base_vals' =>
      match filter (fun p => Qlt_bool ab.1 (nth p bin_edges 0%Q)
                             && Qlt_bool (nth p bin_edges 0%Q) ab.2 = true) peak_ind with
      | [] => Raised (IndexError "list index out of range")
      | p :: _ =>
          interval_peaks bin_edges peak_ind base_vals'
            (dict_set ab (nth p bin_edges 0%Q) d)
      end
  end.

(** [BearingPartitioner.__make_boundaries()] *)
Definition __make_boundaries : method BearingPartitioner unit :=
  s <~ get ;;
  match _bin_info s with
  | Some {| bin_edges := Some be; peak_ind := Some peak_ind; peak_props := Some props |} =>
      let left_bases := Scipy.left_bases props in
      let right_bases := Scipy.right_bases props in
      overlap_groups <~ lift (group_overlapping_intervals left_bases right_bases) ;;
      if identical_bases left_bases right_bases then
        raise (ValueError "Identical bases found, boundary finding failed.")
      else
        base_vals <~ lift (initial_base_vals be left_bases right_bases) ;;
        base_vals <~ lift (split_groups be left_bases right_bases overlap_groups
                             base_vals) ;;
        d <~ lift (interval_peaks be peak_ind base_vals []) ;;
        let '(boundaries, center_values) := boundary_arrays d [0%Q] [None] in
        let '(boundaries, center_values) :=
          if Qeq_bool (List.last boundaries 0%Q) 90
          then (boundaries, removelast center_values)
          else (boundaries ++ [90%Q], center_values) in
        put (set_inter_vals {| base_vals := Some d;
                               boundaries := Some boundaries;
                               center_values := Some center_values |} s)
  | _ => raise (KeyError "peak_props")
  end.

(** [bisect_right(a, x)]: the number of leading entries [<= x] of a
    sorted list. *)
Fixpoint bisect_right (a : list Q) (x : Q) : nat :=
  match a with
  | [] => O
  | b :: a' => if Qle_bool b x then S (bisect_right a' x) else O
  end.

(** The body of the labelling loop of [run] for one edge: NaN stays NaN,
    any other bearing gets the centre value of the interval it lies in
    ([center_values[i - 1]]; index [-1] is the last entry). *)
Definition group_of (boundaries : list Q) (center_values : list (option Q))
    (bearing : value) : result value :=
  f <- match bearing with
       | PFloat f => Returned f
       | PInt z => Returned (Fin (inject_Z z))
       | PBool b => Returned (Fin (if b then 1 else 0)%Q)
       | _ => Raised (TypeError "ufunc isnan not supported for the input types")
       end ;;
  match f with
  | NaN => Returned (PFloat NaN)
  | _ =>
      let i := match f with
               | Fin b => bisect_right boundaries b
               | Inf true => O
               | _ => length boundaries
               end in
      c <- index center_values
             (match i with O => length center_values - 1 | S i' => i' end)%nat ;;
      Returned (match c with Some q => PFloat (Fin q) | None => PNone end)
  end.

Fixpoint group_bearings (boundaries : list Q) (center_values : list (option Q))
    (group_bearing : list (Edge * value)) : result (list (Edge * value)) :=
  match group_bearing with
  | [] => Returned []
  | (e, bearing) :: rest =>
      g <- group_of boundaries center_values bearing ;;
      rest' <- group_bearings boundaries center_values rest ;;
      Returned ((e, g) :: rest')
  end.

(** The partition list [run] writes: one entry for every centre value
    that is not [None], named after [boundaries[i : i + 2]]. *)
Definition partition_entries (boundaries : list Q) (center_values : list (option Q))
    : list Part :=
  omap (fun '(i, c) =>
          match c with
          | Some center_val =>
              Some {| part_name := take 2 (drop i boundaries);
                      part_value := center_val |}
          | None => None
          end)
       (imap (fun i c => (i, c)) center_values).

(** [BearingPartitioner.run(show_analysis_plots=False)].  The plots of
    [show_analysis_plots=True] are outside the model. *)
Definition run `{Floats} : method BearingPartitioner unit :=
  (* Binning *)
  _ <~ __bin_bearings 360 ;;
  (* Find peaks *)
  _ <~ __find_peaks ;;
  s <~ get ;;
  peak_ind <~ match _bin_info s with
              | Some {| peak_ind := Some p |} => ret p
              | _ => raise (KeyError "peak_ind")
              end ;;
  if Nat.ltb (length peak_ind) 1 then
    raise (ArithmeticError "No peaks were found.")
  else
    (* Make boundaries *)
    _ <~ __make_boundaries ;;
    (* Write grouping attribute to graph *)
    s <~ get ;;
    _ <~ put (set_attribute_label "bearing_group" s) ;;
    s <~ get ;;
    let group_bearing := get_edge_attributes (graph s) (edge_data s) "bearing_90" in
    boundaries <~ match boundaries (_inter_vals s) with
                  | Some b => ret b
                  | None => raise (KeyError "boundaries")
                  end ;;
    center_values <~ match center_values (_inter_vals s) with
                     | Some c => ret c
                     | None => raise (KeyError "center_values")
                     end ;;
    group_bearing <~ lift (group_bearings boundaries center_values group_bearing) ;;
    _ <~ put (set_edge_data
                (set_edge_attributes_dict (graph s) group_bearing "bearing_group"
                   (edge_data s)) s) ;;
    (* Write partition dict *)
    s <~ get ;;
    put (set_partition (partition_entries boundaries center_values) s).

(** [BasePartitioner.__check_has_been_runned()] *)
Definition __check_has_been_runned (self : BearingPartitioner) : result unit :=
  match partition self with
  | None =>
      Raised (AssertionError "BearingPartitioner has no partitions, run before plotting graph.")
  | Some _ =>
      match attribute_label self with
      | None =>
          Raised (AssertionError "BearingPartitioner has no `attribute_label` yet,run before plotting graph.")
      | Some _ => Returned tt
      end
  end.

(** [BasePartitioner.plot_partition_graph]; of its keyword arguments the
    model has [edge_color]. *)
Definition plot_partition_graph (edge_color : option value) (self : BearingPartitioner)
    : result (list (option pyfloat)) :=
  _ <- __check_has_been_runned self ;;
  match attribute_label self with
  | Some label =>
      Plot.plot_by_attribute (graph self) (edge_data self) label
        ((fun minmax => Plot.Tuple [Some (Fin minmax.1); Some (Fin minmax.2)])
           <$> attr_value_minmax self)
        edge_color
  | None =>
      Raised (AssertionError "BearingPartitioner has no `attribute_label` yet,run before plotting graph.")
  end.

End Bearing.

(** ** The validity checks of a partitioning (partitioning/checks.py) *)

Module Checks.

Import Networkx.

(** A component or partition: [{"name": ..., "subgraph": ...}]. *)
Record Component : Type := { comp_name : string; subgraph : Graph }.

(** An entry of the list [partitioning.get_partition_nodes()] returns. *)
Record PartitionNodes : Type :=
  { pn_name : string; pn_nodes : list Node; pn_subgraph : Graph }.

(** The partitioner as the checks read it.  [get_partition_nodes] is a
    method that is not among the sources: the list it returns for this
    partitioner is taken as given. *)
Record Partitioning : Type :=
  { name : string;
    graph : Graph;
    sparsified : Graph;
    components : option (list Component);
    partitions : option (list Component);
    get_partition_nodes : list PartitionNodes }.

(** What the checks do besides computing: log records, attribute writes
    on the graph and calls of the plotting functions, in order. *)
Inductive event : Type :=
| LogDebug (msg : string)
| LogInfo (msg : string)
| LogError (msg : string) (subjects : list string)
| SetEdgeAttribute (e : Edge) (attr : string) (v : value)
| SetNodeAttribute (n : Node) (attr : string) (v : value)
| PlotByAttribute (attr : string)
| PlotGraph.

Definition logged (A : Type) : Type := method (list event) A.

Definition emit (ev : event) : logged unit := fun t => (Returned tt, t ++ [ev]).

Fixpoint emit_all (evs : list event) : logged unit :=
  match evs with
  | [] => ret tt
  | ev :: evs' => _ <~ emit ev ;; emit_all evs'
  end.

(** [partitioning.components if partitioning.components else partitioning.partitions],
    as the [for] loops iterate it: an empty or missing list of components
    gives the partitions, and iterating [None] raises. *)
Definition parts (p : Partitioning) : result (list Component) :=
  match components p with
  | Some (c :: cs) => Returned (c :: cs)
  | _ =>
      match partitions p with
      | Some ps => Returned ps
      | None => Raised (TypeError "'NoneType' object is not iterable")
      end
  end.

(** [partitioning.graph.edges[edge]["highlight"] = v] for every edge of
    the list, in order.  An edge that is no edge of the graph is a
    KeyError, and the edges before it keep what was written. *)
Fixpoint set_highlight (p : Partitioning) (v : value) (es : list Edge)
    : logged unit :=
  match es with
  | [] => ret tt
  | edge :: es' =>
      if bool_decide (edge ∈ edges (graph p)) then
        _ <~ emit (SetEdgeAttribute edge "highlight" v) ;;
        set_highlight p v es'
      else raise (KeyError "edge")
  end.

(** The call
    [plot_by_attribute(partitioning.graph, "highlight", attr_types="numerical", cmap="hsv", minmax_val=(0, 1))].
    [plot_by_attribute] has no parameter [attr_types]: the keyword is
    collected in [pg_kwargs] and handed on to [osmnx.plot_graph], which
    has no such parameter and takes no further keywords.  The call
    therefore never returns: it ends in this TypeError at the latest (an
    edge whose [highlight] was no number before makes the colours raise
    earlier).  Before that [determine_minmax_val] and [plot_by_attribute]
    log a debug line each. *)
Definition plot_highlight : logged unit :=
  _ <~ emit (PlotByAttribute "highlight") ;;
  _ <~ emit (LogDebug "Given minmax_val for attribute %s: %s") ;;
  _ <~ emit (LogDebug "Unique colors in the colormap %s: %s") ;;
  raise (TypeError "plot_graph() got an unexpected keyword argument 'attr_types'").

(** The loop of [components_are_connected].  The lines after the plot
    (the reset of [highlight], [found = False] and the next turn of the
    loop) are written as in the source; since the plot raises they are
    never reached. *)
Fixpoint components_are_connected_loop (p : Partitioning) (cs : list Component)
    (found : bool) : logged bool :=
  match cs with
  | [] => ret found
  | component :: cs' =>
      connected <~ lift (is_weakly_connected (subgraph component)) ;;
      if negb connected then
        _ <~ emit (LogError "The subgraph %s of %s is not connected."
                     [comp_name component; name p]) ;;
        _ <~ set_highlight p (PInt 1) (edges (subgraph component)) ;;
        _ <~ plot_highlight ;;
        _ <~ set_highlight p PNone (edges (subgraph component)) ;;
        components_are_connected_loop p cs' false
      else components_are_connected_loop p cs' found
  end.

(** [components_are_connected(partitioning)] *)
Definition components_are_connected (p : Partitioning) : logged bool :=
  cs <~ lift (parts p) ;;
  components_are_connected_loop p cs true.

Section overlap.
Context {A : Type} `{EqDecision A}.

Definition share_element (l1 l2 : list A) : bool :=
  existsb (fun a => bool_decide (a ∈ l2)) l1.

(** Modelled from the spec: [utils.has_pairwise_overlap] is not among
    the sources.  It returns the matrix of pairwise
    intersection-nonempty checks of the given lists. *)
Definition has_pairwise_overlap (lists : list (list A)) : list (list bool) :=
  map (fun li => map (fun lj => share_element li lj) lists) lists.

End overlap.

(** [numpy.fill_diagonal(m, False)] *)
Definition fill_diagonal_false (m : list (list bool)) : list (list bool) :=
  imap (fun i row => imap (fun j b => if Nat.eqb i j then false else b) row) m.

(** [m.any()] *)
Definition any (m : list (list bool)) : bool :=
  existsb (fun row => existsb (fun b => b) row) m.

(** The pairs [argwhere] yields above the diagonal, by the names given. *)
Definition overlapping_names (names : list string) (m : list (list bool))
    : list string :=
  concat (imap (fun i row =>
            concat (imap (fun j (b : bool) =>
                      if b && Nat.ltb i j
                      then [nth i names "" +:+ " and " +:+ nth j names ""]
                      else []) row)) m).

(** The four tests of [nodes_and_edges_are_contained_in_exactly_one_subgraph],
    each as the function computes it. *)
Definition nodes_overlap (p : Partitioning) : list (list bool) :=
  fill_diagonal_false
    (has_pairwise_overlap (map pn_nodes (get_partition_nodes p))).

Definition missing_nodes (p : Partitioning) : list Node :=
  filter (fun n => (n ∉ concat (map pn_nodes (get_partition_nodes p)))
                   ∧ (n ∉ nodes (sparsified p)))
         (remove_dups (nodes (graph p))).

Definition edges_overlap (p : Partitioning) : list (list bool) :=
  fill_diagonal_false
    (has_pairwise_overlap
       (map (fun part => edges (pn_subgraph part)) (get_partition_nodes p)
        ++ [edges (sparsified p)])).

Definition missing_edges (p : Partitioning) : list Edge :=
  filter (fun e => (e ∉ concat (map (fun part => edges (pn_subgraph part))
                                    (get_partition_nodes p)))
                   ∧ (e ∉ edges (sparsified p)))
         (remove_dups (edges (graph p))).

(** [nodes_and_edges_are_contained_in_exactly_one_subgraph(partitioning)] *)
Definition nodes_and_edges_are_contained_in_exactly_one_subgraph
    (p : Partitioning) : logged bool :=
  let partition_nodes_subgraphs := get_partition_nodes p in
  (* Check overlap of nodes *)
  if any (nodes_overlap p) then
    _ <~ emit (LogError "The nodes of %s overlap in the following subgraphs: %s"
                 (name p :: overlapping_names (map pn_name partition_nodes_subgraphs)
                                              (nodes_overlap p))) ;;
    ret false
  else
  (* Nodes that are in no subgraph, neither the sparsified graph *)
  if Nat.ltb 0 (length (missing_nodes p)) then
    _ <~ emit (LogError "%s has %d nodes that are not contained in any subgraph or the sparsified graph: %s"
                 [name p]) ;;
    _ <~ emit_all (map (fun n => SetNodeAttribute n "missing_nodes"
                                   (PBool (bool_decide (n ∈ missing_nodes p))))
                       (nodes (graph p))) ;;
    _ <~ emit PlotGraph ;;
    ret false
  else
  (* Check overlap of edges, including sparsified graph *)
  if any (edges_overlap p) then
    _ <~ emit (LogError "The edges of %s overlap in the following subgraphs: %s"
                 (name p :: overlapping_names
                              (map pn_name partition_nodes_subgraphs ++ ["sparse"])
                              (edges_overlap p))) ;;
    ret false
  else
  (* Edges that are in no subgraph, neither the sparsified graph *)
  if Nat.ltb 0 (length (missing_edges p)) then
    _ <~ emit (LogError "%s has %d edges that are not contained in any subgraph or the sparsified graph: %s"
                 [name p]) ;;
    ret false
  else ret true.

(** The loop of [components_are_connect_sparsified]: it returns at the
    first component that shares no node with the sparsified graph. *)
Fixpoint components_are_connect_sparsified_loop (p : Partitioning)
    (cs : list Component) : logged bool :=
  match cs with
  | [] => ret true
  | component :: cs' =>
      if negb (existsb (fun node => bool_decide (node ∈ nodes (subgraph component))
                                    && bool_decide (node ∈ nodes (sparsified p)))
                       (nodes (graph p)))
      then
        _ <~ emit (LogError "The subgraph %s of %s is not connected to the sparsified graph."
                     [comp_name component; name p]) ;;
        ret false
      else components_are_connect_sparsified_loop p cs'
  end.

(** [components_are_connect_sparsified(partitioning)] *)
Definition components_are_connect_sparsified (p : Partitioning) : logged bool :=
  cs <~ lift (parts p) ;;
  components_are_connect_sparsified_loop p cs.

(** [is_valid_partitioning(partitioning)] *)
Definition is_valid_partitioning (p : Partitioning) : logged bool :=
  (* 1. Check if the sparsified graph is connected *)
  _ <~ emit (LogDebug "Checking if the sparsified graph of %s is connected.") ;;
  connected <~ lift (is_weakly_connected (sparsified p)) ;;
  if negb connected then
    _ <~ emit (LogError "The sparsified graph of %s is not connected." [name p]) ;;
    ret false
  else
  (* 2. Check if each subgraph is connected *)
  _ <~ emit (LogDebug "Checking if each subgraph of %s is connected.") ;;
  ok <~ components_are_connected p ;;
  if negb ok then ret false else
  (* 3. - 5. *)
  _ <~ emit (LogDebug "Checking if each node and edge of %s is contained in exactly one subgraph and not the sparsified graph.") ;;
  ok <~ nodes_and_edges_are_contained_in_exactly_one_subgraph p ;;
  if negb ok then ret false else
  (* 6. Check if each subgraph is connected to the sparsified graph *)
  _ <~ emit (LogDebug "Checking if each subgraph of %s is connected to the sparsified graph.") ;;
  ok <~ components_are_connect_sparsified p ;;
  if negb ok then ret false else
  _ <~ emit (LogInfo "The partitioning %s is valid.") ;;
  ret true.

End Checks.

(** ** [str()] of the values a metric holds *)

Module Formatting.

(** The renderings the model leaves to Python: a float's [repr], the
    quoting of a string inside a container and the text of an array. *)
Class Repr : Type :=
  { float_repr : pyfloat -> string;
    str_repr : string -> string;
    array_str : list (list pyfloat) -> string }.

Definition join (sep : string) (l : list string) : string := String.concat sep l.

Fixpoint py_repr `{Repr} (v : value) : string :=
  match v with
  | PNone => "None"
  | PBool b => if b then "True" else "False"
  | PInt z => pretty z
  | PFloat f => float_repr f
  | PStr s => str_repr s
  | PList l => "[" +:+ join ", " (map py_repr l) +:+ "]"
  | PArray rows => array_str rows
  | PDict d =>
      "{" +:+ join ", " (map (fun kv => str_repr kv.1 +:+ ": " +:+ py_repr kv.2) d)
      +:+ "}"
  end.

(** [str(v)] and [f"{v}"]: a string is itself, anything else its [repr]. *)
Definition py_str `{Repr} (v : value) : string :=
  match v with
  | PStr s => s
  | _ => py_repr v
  end.

(** [s[:-2]] *)
Definition drop_last2 (s : string) : string :=
  substring 0 (String.length s - 2) s.

End Formatting.

(** ** [os.path.join] and the file store *)

Module Os.

Definition starts_with_slash (s : string) : bool :=
  match s with
  | String c _ => Ascii.eqb c "/"
  | EmptyString => false
  end.

Fixpoint ends_with_slash (s : string) : bool :=
  match s with
  | EmptyString => false
  | String c EmptyString => Ascii.eqb c "/"
  | String _ s' => ends_with_slash s'
  end.

(** [posixpath.join(a, b)]: an absolute [b] replaces [a]; otherwise the
    two are joined by one separator. *)
Definition join (a b : string) : string :=
  if starts_with_slash b then b
  else if String.eqb a "" || ends_with_slash a then a +:+ b
  else a +:+ "/" +:+ b.

End Os.

(** ** The first [Metric] (superblockify/metrics.py) *)

Module LegacyMetrics.

Import Formatting.

(** A metric object is its [__dict__]: the attributes in the order
    [__init__] assigns them. *)
Definition Metric : Type := list (string * value).

Definition three (k1 k2 k3 : string) : value :=
  PDict [(k1, PNone); (k2, PNone); (k3, PNone)].

(** [Metric.__init__()] *)
Definition __init__ : Metric :=
  [("coverage", PNone);
   ("num_components", PNone);
   ("avg_path_length", three "E" "S" "N");
   ("directness", three "ES" "EN" "SN");
   ("global_efficiency", three "SE" "NE" "NS");
   ("local_efficiency", three "SE" "NE" "NS")].

(** The inner loop of [__str__] over the items of a dict attribute. *)
Definition str_items `{Repr} (text : string) (d : list (string * value)) : string :=
  fold_left (fun text kv =>
               if negb (is_none kv.2)
               then text +:+ kv.1 +:+ ": " +:+ py_str kv.2 +:+ ", "
               else text)
            d text.

(** One turn of the loop of [__str__]; [text] is the variable [string]. *)
Definition str_step `{Repr} (text : string) (key : string) (v : value) : string :=
  if negb (is_none v) then
    match v with
    | PDict d =>
        if forallb (fun kv => is_none kv.2) d then text
        else
          let text := text +:+ key +:+ ": " in
          let text := str_items text d in
          drop_last2 text +:+ "; "
    | _ => text +:+ key +:+ ": " +:+ py_str v +:+ "; "
    end
  else text.

(** [Metric.__str__()] *)
Definition __str__ `{Repr} (self : Metric) : string :=
  fold_left (fun text kv => str_step text kv.1 kv.2) self "".

(** [Metric.__repr__()] *)
Definition __repr__ `{Repr} (self : Metric) : string :=
  "Metric" +:+ "(" +:+ __str__ self +:+ ")".

End LegacyMetrics.

(** ** Configuration (superblockify/config.py) *)

Module Config.

(** [dirname(__file__)]: where the package is installed. *)
Class Install : Type := package_dir : string.

Definition WORK_DIR `{Install} : string := Os.join package_dir "..".
Definition RESULTS_DIR `{Install} : string :=
  Os.join (Os.join WORK_DIR "data") "results".

Definition CLUSTERING_PERCENTILE : value := PInt 90.

End Config.

(** ** [pickle], as [Metric.save] and [Metric.load] use it

    The library is not part of the repository.  The definitions follow
    its virtual machine (the opcodes of [pickletools]) for the objects a
    metric holds: the pickler walks the object and writes opcodes, the
    unpickler runs them on a stack.  The memo opcodes are left out (the
    values of the model share nothing), a list or dict is written in one
    batch, and the reduction of a numpy array is one opcode. *)

Module Pickle.

Inductive opcode : Type :=
| NONE
| NEWTRUE
| NEWFALSE
| LONG (z : Z)
| BINFLOAT (f : pyfloat)
| BINUNICODE (s : string)
| NDARRAY (rows : list (list pyfloat))
| EMPTY_LIST
| EMPTY_DICT
| MARK
| APPENDS
| SETITEMS
| NEWOBJ (class : string)
| BUILD
| STOP.

(** What a pickle holds: an instance of a class with its [__dict__], or
    a plain value. *)
Inductive object : Type :=
| Instance (class : string) (dict : list (string * value))
| Plain (v : value).

(** The stack of the unpickler holds objects and marks. *)
Inductive item : Type :=
| Obj (o : object)
| Marker.

(** *** The pickler *)

Fixpoint save_items (save : value -> result (list opcode)) (l : list value)
    : result (list opcode) :=
  match l with
  | [] => Returned []
  | v :: l' =>
      ops <- save v ;;
      rest <- save_items save l' ;;
      Returned (ops ++ rest)
  end.

Fixpoint save_entries (save : value -> result (list opcode))
    (d : list (string * value)) : result (list opcode) :=
  match d with
  | [] => Returned []
  | (k, v) :: d' =>
      ops <- save v ;;
      rest <- save_entries save d' ;;
      Returned (BINUNICODE k :: ops ++ rest)
  end.

(** [Pickler.save(obj)].  An object inside an object is saved by a call
    inside the call: [depth] is how many calls deep the interpreter can
    still go. *)
Fixpoint save (depth : nat) (v : value) : result (list opcode) :=
  match depth with
  | O => Raised (RecursionError "maximum recursion depth exceeded while pickling an object")
  | S depth' =>
      match v with
      | PNone => Returned [NONE]
      | PBool b => Returned [if b then NEWTRUE else NEWFALSE]
      | PInt z => Returned [LONG z]
      | PFloat f => Returned [BINFLOAT f]
      | PStr s => Returned [BINUNICODE s]
      | PArray rows => Returned [NDARRAY rows]
      | PList l =>
          items <- save_items (save depth') l ;;
          Returned (EMPTY_LIST :: MARK :: items ++ [APPENDS])
      | PDict d =>
          items <- save_entries (save depth') d ;;
          Returned (EMPTY_DICT :: MARK :: items ++ [SETITEMS])
      end
  end.

(** [pickle.dump(obj, file)] for an instance of [class]: the new object,
    its [__dict__] as the state, and the opcode that ends the pickle. *)
Definition dump (depth : nat) (class : string) (dict : list (string * value))
    : result (list opcode) :=
  match depth with
  | O => Raised (RecursionError "maximum recursion depth exceeded while pickling an object")
  | S depth' =>
      state <- save depth' (PDict dict) ;;
      Returned (NEWOBJ class :: state ++ [BUILD; STOP])
  end.

(** *** The unpickler *)

(** The values above the topmost mark, oldest first, and the stack below
    the mark. *)
Fixpoint pop_mark (stack : list item) (above : list value)
    : option (list value * list item) :=
  match stack with
  | Marker :: stack' => Some (above, stack')
  | Obj (Plain v) :: stack' => pop_mark stack' (v :: above)
  | _ => None
  end.

(** Keys and values by turns. *)
Fixpoint pairs (vs : list value) : option (list (string * value)) :=
  match vs with
  | [] => Some []
  | PStr k :: v :: vs' => d ← pairs vs'; Some ((k, v) :: d)
  | _ => None
  end.

(** [d[k] = v] and [d.update(new)] *)
Fixpoint set_item (k : string) (v : value) (d : list (string * value))
    : list (string * value) :=
  match d with
  | [] => [(k, v)]
  | (k', w) :: d' =>
      if String.eqb k' k then (k', v) :: d' else (k', w) :: set_item k v d'
  end.

Definition update (d new : list (string * value)) : list (string * value) :=
  fold_left (fun d kv => set_item kv.1 kv.2 d) new d.

Definition bad_pickle {A : Type} : result A :=
  Raised (UnpicklingError "invalid load key or unexpected stack").

(** One opcode on the stack. *)
Definition step (op : opcode) (stack : list item) : result (list item) :=
  match op with
  | NONE => Returned (Obj (Plain PNone) :: stack)
  | NEWTRUE => Returned (Obj (Plain (PBool true)) :: stack)
  | NEWFALSE => Returned (Obj (Plain (PBool false)) :: stack)
  | LONG z => Returned (Obj (Plain (PInt z)) :: stack)
  | BINFLOAT f => Returned (Obj (Plain (PFloat f)) :: stack)
  | BINUNICODE s => Returned (Obj (Plain (PStr s)) :: stack)
  | NDARRAY rows => Returned (Obj (Plain (PArray rows)) :: stack)
  | EMPTY_LIST => Returned (Obj (Plain (PList [])) :: stack)
  | EMPTY_DICT => Returned (Obj (Plain (PDict [])) :: stack)
  | MARK => Returned (Marker :: stack)
  | APPENDS =>
      match pop_mark stack [] with
      | Some (vs, Obj (Plain (PList l)) :: stack') =>
          Returned (Obj (Plain (PList (l ++ vs))) :: stack')
      | _ => bad_pickle
      end
  | SETITEMS =>
      match pop_mark stack [] with
      | Some (vs, Obj (Plain (PDict d)) :: stack') =>
          match pairs vs with
          | Some new => Returned (Obj (Plain (PDict (update d new))) :: stack')
          | None => bad_pickle
          end
      | _ => bad_pickle
      end
  | NEWOBJ class => Returned (Obj (Instance class []) :: stack)
  | BUILD =>
      match stack with
      | Obj (Plain (PDict state)) :: Obj (Instance class dict) :: stack' =>
          Returned (Obj (Instance class (update dict state)) :: stack')
      | _ => bad_pickle
      end
  | STOP => Returned stack
  end.

(** [Unpickler.load()]: the opcodes in turn, up to [STOP], which returns
    the object on top of the stack. *)
Fixpoint run (ops : list opcode) (stack : list item) : result object :=
  match ops with
  | [] => Raised (EOFError "Ran out of input")
  | STOP :: _ =>
      match stack with
      | Obj o :: _ => Returned o
      | _ => bad_pickle
      end
  | op :: ops' =>
      stack' <- step op stack ;;
      run ops' stack'
  end.

(** [pickle.load(file)] *)
Definition load (ops : list opcode) : result object := run ops [].

End Pickle.

(** ** The [Metric] object (superblockify/metrics/metric.py) *)

Module Metrics.

Import Formatting Networkx.

(** A metric object is its [__dict__]: the attributes in the order
    [__init__] assigns them. *)
Definition Metric : Type := list (string * value).

(** [Metric.__init__(unit)]; the default of [unit] is ["time"]. *)
Definition __init__ (unit : value) : Metric :=
  [("coverage", PNone);
   ("num_components", PNone);
   ("avg_path_length", PDict [("S", PNone); ("N", PNone)]);
   ("directness", PDict [("SN", PNone)]);
   ("global_efficiency", PDict [("NS", PNone)]);
   ("high_bc_clustering", PNone);
   ("high_bc_anisotropy", PNone);
   ("distance_matrix", PDict []);
   ("predecessor_matrix", PDict []);
   ("unit", unit);
   ("node_list", PNone)].

Definition default_unit : value := PStr "time".

(** [self.attr] and [self.attr = v] *)
Fixpoint getattr (self : Metric) (attr : string) : option value :=
  match self with
  | [] => None
  | (k, v) :: self' => if String.eqb k attr then Some v else getattr self' attr
  end.

Fixpoint setattr (attr : string) (v : value) (self : Metric) : Metric :=
  match self with
  | [] => [(attr, v)]
  | (k, w) :: self' =>
      if String.eqb k attr then (k, v) :: self' else (k, w) :: setattr attr v self'
  end.

(** [Metric.unit_symbol()], by the value of [self.unit]. *)
Definition unit_symbol `{Repr} (unit : value) : string :=
  match unit with
  | PNone => "hops"
  | PStr u =>
      if String.eqb u "time" then "s"
      else if String.eqb u "distance" then "m"
      else "(" +:+ u +:+ ")"
  | _ => "(" +:+ py_str unit +:+ ")"
  end.

(** One turn of the loop of [__str__]; [text] is the variable [string].
    The inner loop over a dict attribute is the one of the first
    [Metric]. *)
Definition str_step `{Repr} (text : string) (key : string) (v : value) : string :=
  if negb (is_none v) || String.eqb key "unit" then
    match v with
    | PDict d =>
        if forallb (fun kv => is_none kv.2) d then text
        else
          let text := text +:+ key +:+ ": " in
          let text := LegacyMetrics.str_items text d in
          drop_last2 text +:+ "; "
    | _ => text +:+ key +:+ ": " +:+ py_str v +:+ "; "
    end
  else text.

(** [Metric.__str__()] *)
Definition __str__ `{Repr} (self : Metric) : string :=
  fold_left (fun text kv => str_step text kv.1 kv.2) self "".

(** [Metric.__repr__()] *)
Definition __repr__ `{Repr} (self : Metric) : string :=
  "Metric" +:+ "(" +:+ __str__ self +:+ ")".

(** Equality of two floats inside a metric: NaN equals NaN. *)
Definition float_same (a b : pyfloat) : bool :=
  match a, b with
  | NaN, NaN => true
  | _, _ => float_eq a b
  end.

Fixpoint assoc (k : string) (d : list (string * value)) : option value :=
  match d with
  | [] => None
  | (k', v) :: d' => if String.eqb k' k then Some v else assoc k d'
  end.

Definition has_key (k : string) (d : list (string * value)) : bool :=
  existsb (fun kv => String.eqb kv.1 k) d.

Fixpoint floats_same (r1 r2 : list pyfloat) : bool :=
  match r1, r2 with
  | [], [] => true
  | a :: r1', b :: r2' => float_same a b && floats_same r1' r2'
  | _, _ => false
  end.

Fixpoint rows_same (m1 m2 : list (list pyfloat)) : bool :=
  match m1, m2 with
  | [], [] => true
  | a :: m1', b :: m2' => floats_same a b && rows_same m1' m2'
  | _, _ => false
  end.

(** Two sequences are equal when they are equal entry by entry. *)
Fixpoint all2 {A : Type} (eq : A -> A -> bool) (l1 l2 : list A) : bool :=
  match l1, l2 with
  | [], [] => true
  | x :: l1', y :: l2' => eq x y && all2 eq l1' l2'
  | _, _ => false
  end.

(** Every key of [d] is a key of [d2] with an equal value. *)
Fixpoint all_in (eq : value -> value -> bool) (d2 d : list (string * value))
    : bool :=
  match d with
  | [] => true
  | kv :: d' =>
      match assoc kv.1 d2 with
      | Some w => eq kv.2 w
      | None => false
      end && all_in eq d2 d'
  end.

(** Modelled from the spec: [utils.compare_dicts] is not among the
    sources.  It is the deep structural equality over nested mappings
    that treats NaN as equal to itself: the same keys with equal values,
    sequences and arrays entry by entry. *)
Fixpoint value_equal (a b : value) : bool :=
  match a, b with
  | PNone, PNone => true
  | PBool x, PBool y => Bool.eqb x y
  | PInt x, PInt y => Z.eqb x y
  | PFloat x, PFloat y => float_same x y
  | PStr x, PStr y => String.eqb x y
  | PList l1, PList l2 => all2 value_equal l1 l2
  | PArray m1, PArray m2 => rows_same m1 m2
  | PDict d1, PDict d2 =>
      all_in value_equal d2 d1 && forallb (fun kv => has_key kv.1 d1) d2
  | _, _ => false
  end.

Definition compare_dicts (dict1 dict2 : list (string * value)) : bool :=
  value_equal (PDict dict1) (PDict dict2).

(** [Metric.__eq__(other)] *)
Definition __eq__ (self other : Metric) : bool := compare_dicts self other.

(** The files, by path, and what the operating system refuses: for a
    path and a mode, the exception [open(path, mode)] raises, if it
    raises at all (FileNotFoundError when the folder of the path is
    missing, PermissionError, IsADirectoryError and so on).  A file that
    is not there cannot be read, whatever [refused] says. *)
Inductive mode : Type := rb | wb.

Record FileSystem : Type :=
  { files : gmap string (list Pickle.opcode);
    refused : string -> mode -> option exception }.

Definition write (path : string) (content : list Pickle.opcode) (fs : FileSystem)
    : FileSystem :=
  {| files := <[path := content]> (files fs); refused := refused fs |}.

(** How many calls deep the interpreter can still go when [save] is
    called. *)
Class Interpreter : Type := recursion_left : nat.

(** [Metric.save(folder, name)]: [open(path, "wb")] empties the file
    before [pickle.dump] writes to it.  What a dump that fails has
    written by then is not followed: the model leaves the file empty.
    The debug record of the path is left out. *)
Definition save `{Interpreter} (self : Metric) (folder name : string)
    : method FileSystem unit :=
  fun fs =>
    let metrics_path := Os.join folder (name +:+ ".metrics") in
    match refused fs metrics_path wb with
    | Some e => (Raised e, fs)
    | None =>
        match Pickle.dump recursion_left "Metric" self with
        | Returned ops => (Returned tt, write metrics_path ops fs)
        | Raised e => (Raised e, write metrics_path [] fs)
        end
    end.

(** [Metric.load(name)]: whatever object the file holds. *)
Definition load `{Config.Install} (name : string)
    : method FileSystem Pickle.object :=
  fun fs =>
    let metrics_path :=
      Os.join (Os.join Config.RESULTS_DIR name) (name +:+ ".metrics") in
    match files fs !! metrics_path with
    | None => (Raised (FileNotFoundError metrics_path), fs)
    | Some ops =>
        match refused fs metrics_path rb with
        | Some e => (Raised e, fs)
        | None => (Pickle.load ops, fs)
        end
    end.

(** The node attributes of the graph a metric is computed for. *)
Definition NodeData : Type := gmap Node (gmap string value).

(** [measures.calculate_high_bc_clustering]: not among the sources; what
    it computes is left open. *)
Class Measures : Type :=
  measure_high_bc_clustering :
    list value -> list value -> list value -> pyfloat -> result (value * value).

(** The two tests [calculate_high_bc_clustering] makes on [percentile]
    before anything else. *)
Definition check_percentile (percentile : value) : result unit :=
  if negb (match percentile with
           | PFloat _ | PInt _ | PBool _ => true
           | _ => false
           end)
  then Raised (ValueError "percentile needs to be a float or int")
  else if negb (match percentile with
                | PFloat f => float_lt (Fin 0) f && float_lt f (Fin 100)
                | PInt z => (0 <? z) && (z <? 100)
                | PBool b => b
                | _ => false
                end)
  then Raised (ValueError "percentile needs to be between 0.0 and 100.0")
  else Returned tt.

(** [[graph.nodes[node][attr] for node in self.node_list]] *)
Fixpoint node_attributes (data : NodeData) (attr : string) (node_list : list value)
    : result (list value) :=
  match node_list with
  | [] => Returned []
  | node :: rest =>
      v <- match node with
           | PInt n =>
               match data !! n with
               | Some attrs =>
                   match attrs !! attr with
                   | Some v => Returned v
                   | None => Raised (KeyError attr)
                   end
               | None => Raised (KeyError "node")
               end
           | _ => Raised (KeyError "node")
           end ;;
      vs <- node_attributes data attr rest ;;
      Returned (v :: vs)
  end.

(** [percentile / 100] *)
Definition percent (percentile : value) : pyfloat :=
  match percentile with
  | PFloat (Fin q) => Fin (q / 100)
  | PFloat f => f
  | PInt z => Fin (inject_Z z / 100)
  | PBool b => Fin (if b then 1 / 100 else 0)%Q
  | _ => NaN
  end.

(** [Metric.calculate_high_bc_clustering(graph, percentile)] *)
Definition calculate_high_bc_clustering `{Measures} (data : NodeData)
    (percentile : value) : method Metric unit :=
  _ <~ lift (check_percentile percentile) ;;
  self <~ get ;;
  node_list <~ match getattr self "node_list" with
               | Some (PList l) => ret l
               | _ => raise (TypeError "'NoneType' object is not iterable")
               end ;;
  node_x <~ lift (node_attributes data "x" node_list) ;;
  node_y <~ lift (node_attributes data "y" node_list) ;;
  node_betweenness <~ lift (node_attributes data "node_betweenness_normal" node_list) ;;
  r <~ lift (measure_high_bc_clustering node_x node_y node_betweenness
               (percent percentile)) ;;
  put (setattr "high_bc_anisotropy" r.2 (setattr "high_bc_clustering" r.1 self)).

End Metrics.


(** ** Saving a partitioning to a geopackage (partitioning/utils.py) *)

Module Utils.

Import Networkx Formatting.

(** An entry of [components] or [partitions]: a dict that may or may not
    have the keys ["name"] and ["subgraph"]. *)
Record Part : Type := { part_name : option string; part_subgraph : option Graph }.

(** The partitioner as [save_to_gpkg] reads it. *)
Record Partitioner : Type :=
  { graph : Graph;
    edge_data : EdgeData;
    sparsified : option Graph;
    components : option (list Part);
    partitions : option (list Part);
    results_dir : string;
    name : string }.

(** Truthiness of a list attribute that may be [None]. *)
Definition truthy {A : Type} (l : option (list A)) : bool :=
  match l with
  | Some (_ :: _) => true
  | _ => false
  end.

(** A row of the exported layer: the edge it stands for and its cells by
    column. *)
Definition Row : Type := (Edge * gmap string value)%type.

(** The files written, by path and layer. *)
Definition Geopackages : Type := gmap (string * string) (list Row).

(** [graph_to_gdfs(graph, nodes=False)]: one row per edge, one column per
    attribute any edge has; a cell without a value is NaN. *)
Definition columns (G : Graph) (data : EdgeData) : list string :=
  elements (⋃ (map (fun e => dom (default ∅ (data !! e))) (edges G)) : gset string).

Definition cell (data : EdgeData) (e : Edge) (col : string) : value :=
  default (PFloat NaN) (edge_attr data e col).

(** A column has dtype [object] when a cell holds something that is not
    a number.  (A column of nothing but bools has dtype [bool] in pandas;
    here it counts as [object].) *)
Definition is_object (G : Graph) (data : EdgeData) (col : string) : bool :=
  existsb (fun e => match edge_attr data e col with
                    | Some (PInt _) | Some (PFloat _) | None => false
                    | Some _ => true
                    end)
          (edges G).

(** The frame after the object columns were cast with [astype(str)]. *)
Definition exported_rows `{Repr} (G : Graph) (data : EdgeData) : list Row :=
  map (fun e =>
         (e, list_to_map
               (map (fun col =>
                       (col, if is_object G data col
                             then PStr (match cell data e col with
                                        | PFloat NaN => "nan"
                                        | v => py_str v
                                        end)
                             else cell data e col))
                    (columns G data))))
      (edges G).

(** The loop that bakes the names of the parts into the graph: the
    subgraph of a part is a view of the graph, so the attribute is
    written to the graph's own edges. *)
Fixpoint bake (parts : list Part) (data : EdgeData) : EdgeData :=
  match parts with
  | [] => data
  | part :: parts' =>
      match part_subgraph part, part_name part with
      | Some sub, Some n =>
          bake parts' (set_edge_attributes sub (PStr n) "classification" data)
      | _, _ => bake parts' data
      end
  end.

(** [save_to_gpkg(partitioner, save_path)]: the partitioner afterwards
    and the files.  [sparsified], when it is not [None], is taken to be a
    graph of the type of [graph] (the [isinstance] test passes), and the
    two calls that export the frame ([graph_to_gdfs] and [to_file]) are
    taken to go through. *)
Definition save_to_gpkg `{Repr} (save_path : option string)
    : method (Partitioner * Geopackages) unit :=
  fun '(partitioner, files) =>
    match sparsified partitioner with
    | None => (Raised (ValueError "Partitioner has no sparsified subgraph."),
               (partitioner, files))
    | Some _ =>
        if negb (truthy (components partitioner))
           && negb (truthy (partitions partitioner))
        then (Raised (ValueError "Partitioner has no components nor partitions attribute."),
              (partitioner, files))
        else
          let filepath :=
            match save_path with
            | Some path => path
            | None => Os.join (results_dir partitioner) (name partitioner +:+ ".gpkg")
            end in
          let parts :=
            if truthy (components partitioner)
            then default [] (components partitioner)
            else default [] (partitions partitioner) in
          if negb (forallb (fun comp =>
                              match part_subgraph comp, part_name comp with
                              | Some _, Some _ => true
                              | _, _ => false
                              end) parts)
          then (Raised (ValueError "Partitioner's components/partitions attribute should be a list of dicts where each dict has a 'subgraph' and 'name' key."),
                (partitioner, files))
          else
            (* Bake the LTNs into the graph *)
            let data := bake parts (edge_data partitioner) in
            let partitioner' :=
              {| graph := graph partitioner; edge_data := data;
                 sparsified := sparsified partitioner;
                 components := components partitioner;
                 partitions := partitions partitioner;
                 results_dir := results_dir partitioner;
                 name := name partitioner |} in
            let edges := exported_rows (graph partitioner) data in
            (Returned tt, (partitioner', <[(filepath, "edges") := edges]> files))
    end.

End Utils.

(** ** The partition-restricted distances (metrics/distances.py) *)

Module Distances.

Import Networkx Checks.

(** The shortest paths themselves are left open. *)
Class RestrictedPaths : Type :=
  restricted_paths : Partitioning -> list (list pyfloat) * list (list Z).

Definition names_collide (names : list string) : bool :=
  negb (bool_decide (NoDup names)).

(** Modelled from the spec: [calculate_partitioning_distance_matrix] is
    not among the sources (its tests are).  It fails with an error if
    component names collide, and, where the overlap check is asked for,
    if the node sets of two components overlap; else it returns the
    distance and the predecessor matrix. *)
Definition calculate_partitioning_distance_matrix `{RestrictedPaths}
    (partitioner : Partitioning) (check_overlap : bool)
    : result (list (list pyfloat) * list (list Z)) :=
  let partitions := get_partition_nodes partitioner in
  if names_collide (map pn_name partitions) then
    Raised (ValueError "The partitions or components have duplicate names.")
  else if check_overlap
          && any (fill_diagonal_false
                    (has_pairwise_overlap (map pn_nodes partitions)))
  then Raised (ValueError "The partitions or components overlap.")
  else Returned (restricted_paths partitioner).

End Distances.


(** * Properties *)

(** ** [merge_sets] *)

Module MergeSetsFacts.

Import MergeSets.

Section fuel.
Context {A : Type} `{Countable A}.

Lemma merge_inner_length (fuel i j : nat) (group : gset A) (sets sets' : list (gset A)) :
  merge_inner fuel i group j sets = Returned sets' →
  (length sets' ≤ length sets)%nat.
Proof.
  revert j sets. induction fuel as [|fuel IH]; intros j sets; cbn [merge_inner].
  - intros [= <-]. lia.
  - destruct (sets !! j) as [group2|] eqn:Hj; [|intros [= <-]; lia].
    destruct (negb (i =? j)%nat && intersects group group2).
    + destruct (i <? length sets)%nat; [|discriminate].
      intros Hr. apply IH in Hr.
      rewrite length_delete in Hr.
      * rewrite length_insert in Hr. lia.
      * apply lookup_lt_is_Some. rewrite length_insert. eauto using lookup_lt_Some.
    + apply IH.
Qed.

(** The fuel given to the inner loop is enough: more of it changes
    nothing. *)
Lemma merge_inner_fuel (fuel k i j : nat) (group : gset A) (sets : list (gset A)) :
  (length sets ≤ j + fuel)%nat →
  merge_inner (fuel + k) i group j sets = merge_inner fuel i group j sets.
Proof.
  revert j sets. induction fuel as [|fuel IH]; intros j sets Hlen.
  - cbn [Nat.add merge_inner]. destruct k; cbn [merge_inner]; [done|].
    rewrite (lookup_ge_None_2 sets j) by lia. done.
  - cbn [Nat.add merge_inner]. destruct (sets !! j) as [group2|] eqn:Hj; [|done].
    apply lookup_lt_Some in Hj.
    destruct (negb (i =? j)%nat && intersects group group2).
    + destruct (i <? length sets)%nat; [|done].
      apply IH. rewrite length_delete.
      * rewrite length_insert. lia.
      * apply lookup_lt_is_Some. rewrite length_insert. lia.
    + apply IH. lia.
Qed.

Lemma merge_outer_fuel (fuel k i : nat) (sets : list (gset A)) :
  (length sets ≤ i + fuel)%nat →
  merge_outer (fuel + k) i sets = merge_outer fuel i sets.
Proof.
  revert i sets. induction fuel as [|fuel IH]; intros i sets Hlen.
  - cbn [Nat.add merge_outer]. destruct k; cbn [merge_outer]; [done|].
    rewrite (lookup_ge_None_2 sets i) by lia. done.
  - cbn [Nat.add merge_outer]. destruct (sets !! i) as [group|] eqn:Hi; [|done].
    destruct (merge_inner (length sets) i group 0 sets) as [sets'|e] eqn:Hin;
      cbn [Py.bind]; [|done].
    apply IH. apply merge_inner_length in Hin. lia.
Qed.

End fuel.

(** Four sets that all hang together through the elements 1 and 2. *)
Definition overlapping_four : list (gset Z) :=
  [{[2; 3]}; {[1; 2]}; {[2]}; {[1]}].

(** C6, as the code decides it: [merge_sets] is not idempotent.  On
    [overlapping_four] the first call returns two sets that still share
    the element 1 (the removal of an entry during the iteration makes the
    loops skip [{1}] when it should be merged); a second call merges them,
    so it changes the grouping the first call returned. *)
Theorem merge_sets_twice_differs :
  merge_sets overlapping_four = Returned [{[1; 2; 3]}; {[1]}]
  ∧ merge_sets [{[1; 2; 3]}; {[1]}] = Returned [({[1; 2; 3]} : gset Z)]
  ∧ (Py.bind (merge_sets overlapping_four) merge_sets
       ≠ merge_sets overlapping_four).
Proof.
  assert (H1 : merge_sets overlapping_four = Returned [{[1; 2; 3]}; {[1]}])
    by (vm_compute; reflexivity).
  assert (H2 : merge_sets [{[1; 2; 3]}; {[1]}] = Returned [({[1; 2; 3]} : gset Z)])
    by (vm_compute; reflexivity).
  split; [exact H1|]. split; [exact H2|].
  rewrite H1. simpl. rewrite H2. intros [= Heq].
Qed.

(** An element can also be lost, and the in-place assignment can raise. *)
Example merge_sets_loses_an_element :
  merge_sets ([{[1]}; {[1; 2]}; {[9]}; {[1; 3]}] : list (gset Z))
  = Returned [{[1; 3]}; {[9]}].
Proof. vm_compute. reflexivity. Qed.

Example merge_sets_index_error :
  merge_sets ([{[0]}; {[0; 1; 2]}; {[1]}; {[3]}; {[2]}] : list (gset Z))
  = Raised (IndexError "list assignment index out of range").
Proof. vm_compute. reflexivity. Qed.

End MergeSetsFacts.

(** ** [save_to_gpkg] *)

Module UtilsFacts.

Import Networkx Formatting Utils.

(** Writing an attribute on the edges of a view leaves every other edge
    as it was. *)
Lemma set_edge_attributes_other (G : Graph) (v : value) (attr : string)
    (data : EdgeData) (e : Edge) :
  e ∉ edges G → set_edge_attributes G v attr data !! e = data !! e.
Proof.
  unfold set_edge_attributes. generalize (edges G) as es. intros es.
  revert data. induction es as [|e' es IH]; intros data Hne; [done|].
  cbn [fold_left]. rewrite IH by set_solver.
  unfold set_edge_attr. apply lookup_insert_ne. set_solver.
Qed.

(** The loop over the parts writes to the edges of the parts only: an
    edge that is in no part keeps the attributes it had.  Nothing in
    [save_to_gpkg] writes to the edges of the sparsified graph. *)
Lemma bake_other (parts : list Part) (data : EdgeData) (e : Edge) :
  (∀ part sub, part ∈ parts → part_subgraph part = Some sub → e ∉ edges sub) →
  bake parts data !! e = data !! e.
Proof.
  revert data. induction parts as [|part parts IH]; intros data Hout; [done|].
  cbn [bake].
  destruct (part_subgraph part) as [sub|] eqn:Hsub;
    [destruct (part_name part) as [n|]|]; rewrite IH by set_solver; try done.
  apply set_edge_attributes_other. eapply Hout; [left|done].
Qed.

(** Three nodes in a row: the edge 1 -> 2 is the component ["A"], the edge
    2 -> 3 is the sparsified graph. *)
Definition edge_a : Edge := (1, 2, 0).
Definition edge_s : Edge := (2, 3, 0).

Definition small_partitioner : Partitioner :=
  {| graph := {| nodes := [1; 2; 3]; edges := [edge_a; edge_s] |};
     edge_data := {[ edge_a := {[ "length" := PInt 7 ]};
                     edge_s := {[ "length" := PInt 9 ]} ]};
     sparsified := Some {| nodes := [2; 3]; edges := [edge_s] |};
     components :=
       Some [ {| part_name := Some "A";
                 part_subgraph := Some {| nodes := [1; 2]; edges := [edge_a] |} |} ];
     partitions := None;
     results_dir := "results";
     name := "small" |}.

(** The classification of an edge in an exported layer. *)
Definition classification_of (rows : list Row) (e : Edge) : option value :=
  row ← list_find (fun r => r.1 = e) rows;
  row.2.2 !! "classification".

(** C8, as the code decides it: after [save_to_gpkg] the edge of the
    component carries the name of the component, but the edge of the
    sparsified graph does not carry ["SPARSE"]: it has no classification
    at all, which the cast to strings turns into ["nan"]. *)
Theorem save_to_gpkg_sparse_edge_unclassified `{Repr} :
  ∃ partitioner' rows,
    save_to_gpkg None (small_partitioner, ∅)
    = (Returned tt, (partitioner', {[ ("results/small.gpkg", "edges") := rows ]}))
    ∧ edge_attr (edge_data partitioner') edge_s "classification" = None
    ∧ classification_of rows edge_a = Some (PStr "A")
    ∧ classification_of rows edge_s = Some (PStr "nan")
    ∧ classification_of rows edge_s ≠ Some (PStr "SPARSE").
Proof.
  exists (save_to_gpkg None (small_partitioner, ∅)).2.1.
  exists (exported_rows (graph small_partitioner)
            (edge_data (save_to_gpkg None (small_partitioner, ∅)).2.1)).
  split; [|split; [|split; [|split]]].
  - reflexivity.
  - vm_compute. reflexivity.
  - vm_compute. reflexivity.
  - vm_compute. reflexivity.
  - vm_compute. discriminate.
Qed.

End UtilsFacts.

(** ** The percentile test of [Metric.calculate_high_bc_clustering] *)

Module PercentileFacts.

Import Metrics.

(** The number a value stands for when it is an [int] or a [float]
    ([bool] is a subclass of [int]: [True] is 1). *)
Inductive number_of : value -> pyfloat -> Prop :=
| number_int (z : Z) : number_of (PInt z) (Fin (inject_Z z))
| number_bool (b : bool) : number_of (PBool b) (Fin (if b then 1 else 0)%Q)
| number_float (f : pyfloat) : number_of (PFloat f) f.

(** "An int or float strictly between 0.0 and 100.0." *)
Definition strictly_between_0_and_100 (percentile : value) : Prop :=
  ∃ q : Q, number_of percentile (Fin q) ∧ (0 < q)%Q ∧ (q < 100)%Q.

Lemma Qlt_bool_iff (a b : Q) : Qlt_bool a b = true ↔ (a < b)%Q.
Proof.
  unfold Qlt_bool. rewrite negb_true_iff, <- not_true_iff_false, Qle_bool_iff.
  split; [apply Qnot_le_lt | apply Qlt_not_le].
Qed.

Lemma inject_Z_lt_0 (z : Z) : (0 < inject_Z z)%Q ↔ 0 < z.
Proof. unfold Qlt. simpl. lia. Qed.

Lemma inject_Z_lt_100 (z : Z) : (inject_Z z < 100)%Q ↔ z < 100.
Proof. unfold Qlt. simpl. lia. Qed.

Lemma check_percentile_ok (percentile : value) :
  check_percentile percentile = Returned tt ↔ strictly_between_0_and_100 percentile.
Proof.
  unfold check_percentile, strictly_between_0_and_100. split.
  - destruct percentile as [| b | z | f | | | |]; simpl; try discriminate.
    + destruct b; [|discriminate]. intros _. exists 1%Q.
      split; [apply (number_bool true)|]. split; reflexivity.
    + destruct (0 <? z) eqn:H0; [|discriminate].
      destruct (z <? 100) eqn:H1; [|discriminate]. intros _.
      exists (inject_Z z). split; [constructor|].
      rewrite inject_Z_lt_0, inject_Z_lt_100. lia.
    + destruct f as [| neg | q]; simpl; try discriminate.
      * destruct neg; discriminate.
      * destruct (Qlt_bool 0 q) eqn:H0; [|discriminate].
        destruct (Qlt_bool q 100) eqn:H1; [|discriminate]. intros _.
        exists q. split; [constructor|]. by rewrite <- !Qlt_bool_iff.
  - intros (q & Hn & H0 & H1).
    destruct percentile as [| b | z | f | | | |]; try (by inversion Hn); simpl.
    + destruct b; [done|]. exfalso. inversion Hn; subst.
      by apply Qlt_irrefl in H0.
    + inversion Hn; subst.
      apply (proj1 (inject_Z_lt_0 z)), (proj2 (Z.ltb_lt 0 z)) in H0.
      apply (proj1 (inject_Z_lt_100 z)), (proj2 (Z.ltb_lt z 100)) in H1.
      by rewrite H0, H1.
    + inversion Hn; subst. simpl.
      apply Qlt_bool_iff in H0, H1. by rewrite H0, H1.
Qed.

(** C9: the percentile test raises a ValueError exactly when the
    percentile is not an int or float strictly between 0.0 and 100.0;
    then the method raises that error and the metric is unchanged; for a
    percentile in the range the test raises nothing. *)
Theorem percentile_value_error `{Measures} (percentile : value) :
  ((∃ msg, check_percentile percentile = Raised (ValueError msg))
   ↔ ¬ strictly_between_0_and_100 percentile)
  ∧ (¬ strictly_between_0_and_100 percentile →
     ∀ data self, ∃ msg,
       calculate_high_bc_clustering data percentile self
       = (Raised (ValueError msg), self))
  ∧ (strictly_between_0_and_100 percentile →
     check_percentile percentile = Returned tt).
Proof.
  assert (Hraise : ¬ strictly_between_0_and_100 percentile →
                   ∃ msg, check_percentile percentile = Raised (ValueError msg)).
  { rewrite <- check_percentile_ok. unfold check_percentile.
    repeat case_match; try done; eauto. }
  split; [split|split].
  - intros [msg Hmsg]. rewrite <- check_percentile_ok, Hmsg. discriminate.
  - exact Hraise.
  - intros Hno data self. destruct (Hraise Hno) as [msg Hmsg]. exists msg.
    unfold calculate_high_bc_clustering, mbind_method, lift. by rewrite Hmsg.
  - apply check_percentile_ok.
Qed.

Example percentile_of_config_passes :
  check_percentile Config.CLUSTERING_PERCENTILE = Returned tt.
Proof. reflexivity. Qed.

Example percentile_nan_raises :
  check_percentile (PFloat NaN)
  = Raised (ValueError "percentile needs to be between 0.0 and 100.0").
Proof. reflexivity. Qed.

Example percentile_100_raises :
  check_percentile (PInt 100)
  = Raised (ValueError "percentile needs to be between 0.0 and 100.0").
Proof. reflexivity. Qed.

Example percentile_str_raises :
  check_percentile (PStr "90")
  = Raised (ValueError "percentile needs to be a float or int").
Proof. reflexivity. Qed.

End PercentileFacts.

(** ** The overlap matrix *)

Module OverlapFacts.

Import Checks.

Section overlap.
Context {A : Type} `{EqDecision A}.

Lemma share_element_true (l1 l2 : list A) :
  share_element l1 l2 = true ↔ ∃ a, a ∈ l1 ∧ a ∈ l2.
Proof.
  unfold share_element. rewrite existsb_exists. split.
  - intros (a & Hin & Hd). exists a. apply bool_decide_eq_true in Hd.
    by rewrite list_elem_of_In.
  - intros (a & H1 & H2). exists a. rewrite <- list_elem_of_In.
    by rewrite bool_decide_eq_true.
Qed.

Lemma any_true (m : list (list bool)) :
  any m = true ↔ ∃ i j row, m !! i = Some row ∧ row !! j = Some true.
Proof.
  unfold any. rewrite existsb_exists. split.
  - intros (row & Hrow & Hex). apply existsb_exists in Hex as (b & Hb & ->).
    apply list_elem_of_In, list_elem_of_lookup in Hrow as [i Hi].
    apply list_elem_of_In, list_elem_of_lookup in Hb as [j Hj]. eauto.
  - intros (i & j & row & Hi & Hj). exists row. split.
    + apply list_elem_of_In, list_elem_of_lookup. eauto.
    + apply existsb_exists. exists true. split; [|done].
      apply list_elem_of_In, list_elem_of_lookup. eauto.
Qed.

(** The matrix with its diagonal cleared has a true entry exactly when
    two lists at different places share an element. *)
Lemma pairwise_overlap_any (lists : list (list A)) :
  any (fill_diagonal_false (has_pairwise_overlap lists)) = true
  ↔ ∃ i j li lj a, i ≠ j ∧ lists !! i = Some li ∧ lists !! j = Some lj
                   ∧ a ∈ li ∧ a ∈ lj.
Proof.
  rewrite any_true. unfold fill_diagonal_false, has_pairwise_overlap. split.
  - intros (i & j & row & Hi & Hj).
    rewrite list_lookup_imap, list_lookup_fmap in Hi.
    destruct (lists !! i) as [li|] eqn:Hli; [|done]. simpl in Hi.
    injection Hi as <-.
    rewrite list_lookup_imap, list_lookup_fmap in Hj.
    destruct (lists !! j) as [lj|] eqn:Hlj; [|done]. simpl in Hj.
    destruct (Nat.eqb_spec i j) as [->|Hne]; [done|].
    injection Hj as Hj. apply share_element_true in Hj as (a & ? & ?).
    exists i, j, li, lj, a. done.
  - intros (i & j & li & lj & a & Hne & Hi & Hj & Hai & Haj).
    exists i, j. eexists. split.
    + rewrite list_lookup_imap, list_lookup_fmap, Hi. reflexivity.
    + rewrite list_lookup_imap, list_lookup_fmap, Hj. simpl.
      destruct (Nat.eqb_spec i j); [done|].
      f_equal. apply share_element_true. eauto.
Qed.

End overlap.

End OverlapFacts.

(** ** The errors of the restricted distance computation *)

Module DistancesFacts.

Import Networkx Checks Distances.

(** C2: whatever the shortest paths are, the computation raises a
    ValueError when two components carry the same name, and, with the
    overlap check on, when the node sets of two components share a
    node. *)
Theorem distance_matrix_value_errors `{RestrictedPaths}
    (partitioner : Partitioning) (check_overlap : bool) (i j : nat)
    (a b : PartitionNodes) :
  i ≠ j →
  get_partition_nodes partitioner !! i = Some a →
  get_partition_nodes partitioner !! j = Some b →
  pn_name a = pn_name b
  ∨ (check_overlap = true ∧ ∃ n, n ∈ pn_nodes a ∧ n ∈ pn_nodes b) →
  ∃ msg, calculate_partitioning_distance_matrix partitioner check_overlap
         = Raised (ValueError msg).
Proof.
  intros Hne Ha Hb Hcase. unfold calculate_partitioning_distance_matrix.
  destruct (names_collide _) eqn:Hnames; [eauto|].
  destruct Hcase as [Hname | (-> & n & Hna & Hnb)].
  - exfalso. unfold names_collide in Hnames.
    apply negb_false_iff, bool_decide_eq_true in Hnames.
    apply Hne. eapply NoDup_lookup; [exact Hnames| |].
    + rewrite list_lookup_fmap, Ha. reflexivity.
    + rewrite list_lookup_fmap, Hb. simpl. by rewrite Hname.
  - assert (Hany : any (fill_diagonal_false
                          (has_pairwise_overlap
                             (map pn_nodes (get_partition_nodes partitioner))))
                   = true).
    { apply OverlapFacts.pairwise_overlap_any.
      exists i, j, (pn_nodes a), (pn_nodes b), n.
      rewrite !list_lookup_fmap, Ha, Hb. done. }
    rewrite Hany. simpl. eauto.
Qed.

(** The restricted computation and the validity checker read the same
    matrix: with the overlap check on, a partitioning whose node-overlap
    test fails in the checker is refused here too. *)
Lemma distance_matrix_agrees_with_checker `{RestrictedPaths}
    (partitioner : Partitioning) :
  any (nodes_overlap partitioner) = true →
  ∃ msg, calculate_partitioning_distance_matrix partitioner true
         = Raised (ValueError msg).
Proof.
  intros Hany. unfold calculate_partitioning_distance_matrix.
  destruct (names_collide _); [eauto|].
  unfold nodes_overlap in Hany. rewrite Hany. simpl. eauto.
Qed.

(** The partitioning of the tests: components doubled, or one component
    copied under another name. *)
Definition part_a : PartitionNodes :=
  {| pn_name := "a"; pn_nodes := [1; 2];
     pn_subgraph := {| nodes := [1; 2]; edges := [(1, 2, 0)] |} |}.

Definition part_a_dup : PartitionNodes :=
  {| pn_name := "a_dup"; pn_nodes := [1; 2];
     pn_subgraph := {| nodes := [1; 2]; edges := [(1, 2, 0)] |} |}.

Definition with_parts (ps : list PartitionNodes) : Partitioning :=
  {| name := "test"; graph := {| nodes := [1; 2; 3]; edges := [(1, 2, 0); (2, 3, 0)] |};
     sparsified := {| nodes := [2; 3]; edges := [(2, 3, 0)] |};
     components := Some (map (fun p => {| comp_name := pn_name p;
                                          subgraph := pn_subgraph p |}) ps);
     partitions := None;
     get_partition_nodes := ps |}.

(** A stand-in for the shortest paths, for the examples. *)
Definition no_paths : RestrictedPaths := fun _ => ([], []).

Lemma distance_matrix_value_errors_witness :
  (∃ msg, @calculate_partitioning_distance_matrix no_paths
            (with_parts [part_a; part_a]) false = Raised (ValueError msg))
  ∧ (∃ msg, @calculate_partitioning_distance_matrix no_paths
              (with_parts [part_a; part_a_dup]) true = Raised (ValueError msg)).
Proof.
  split.
  - apply (@distance_matrix_value_errors no_paths (with_parts [part_a; part_a])
             false 0%nat 1%nat part_a part_a); [lia|reflexivity|reflexivity|].
    left. reflexivity.
  - apply (@distance_matrix_value_errors no_paths (with_parts [part_a; part_a_dup])
             true 0%nat 1%nat part_a part_a_dup); [lia|reflexivity|reflexivity|].
    right. split; [reflexivity|]. exists 1. split; simpl; set_solver.
Defined.

(** Without the overlap check the renamed copy passes. *)
Example distance_matrix_overlap_unchecked :
  @calculate_partitioning_distance_matrix no_paths
    (with_parts [part_a; part_a_dup]) false = Returned ([], []).
Proof. vm_compute. reflexivity. Qed.

End DistancesFacts.

(** ** [Metric.__str__] and [Metric.__repr__] *)

Module StrFacts.

Import Formatting.

(** *** Strings *)

Lemma append_cons (a : ascii) (s t : string) :
  String a s +:+ t = String a (s +:+ t).
Proof. reflexivity. Qed.

Lemma append_nil_r (s : string) : s +:+ "" = s.
Proof. induction s as [|a s IH]; [done|]. by rewrite append_cons, IH. Qed.

Lemma append_assoc (s t u : string) : (s +:+ t) +:+ u = s +:+ (t +:+ u).
Proof. induction s as [|a s IH]; [done|]. by rewrite !append_cons, IH. Qed.

Lemma length_append (s t : string) :
  String.length (s +:+ t) = (String.length s + String.length t)%nat.
Proof.
  induction s as [|a s IH]; [done|]. rewrite append_cons. simpl. by rewrite IH.
Qed.

Lemma substring_append (s t : string) :
  substring 0 (String.length s) (s +:+ t) = s.
Proof.
  induction s as [|a s IH].
  - simpl. by destruct t.
  - rewrite append_cons. simpl. by rewrite IH.
Qed.

(** [(s + ", ")[:-2]] is [s]. *)
Lemma drop_last2_separator (s : string) : drop_last2 (s +:+ ", ") = s.
Proof.
  unfold drop_last2. rewrite length_append. simpl.
  replace (String.length s + 2 - 2)%nat with (String.length s) by lia.
  apply substring_append.
Qed.

(** *** What the spec says [__str__] returns *)

Section rendering.
Context `{Repr}.

(** An entry of a dict attribute, as listed. *)
Definition render_item (kv : string * value) : string :=
  kv.1 +:+ ": " +:+ py_str kv.2.

(** The entries of a dict attribute that are not [None]. *)
Definition listed_items (d : list (string * value)) : list (string * value) :=
  filter (fun kv => is_none kv.2 = false) d.

(** An attribute is listed when its value is not [None] (or it is one of
    the attributes that are [always] listed), unless it is a dict whose
    values are all [None]. *)
Definition listed (always : string -> bool) (kv : string * value) : bool :=
  (negb (is_none kv.2) || always kv.1)
  && match kv.2 with
     | PDict d => negb (forallb (fun kv => is_none kv.2) d)
     | _ => true
     end.

(** A listed attribute: a dict shows its entries that are not [None],
    separated by commas; anything else shows its value. *)
Definition render (kv : string * value) : string :=
  match kv.2 with
  | PDict d =>
      kv.1 +:+ ": " +:+ join ", " (map render_item (listed_items d)) +:+ "; "
  | v => kv.1 +:+ ": " +:+ py_str v +:+ "; "
  end.

Definition str_spec (always : string -> bool) (self : list (string * value))
    : string :=
  join "" (map render (filter (fun kv => listed always kv = true) self)).

(** *** The loops compute it *)

Lemma str_items_spec (text : string) (d : list (string * value)) :
  LegacyMetrics.str_items text d
  = text +:+ join "" (map (fun kv => render_item kv +:+ ", ") (listed_items d)).
Proof.
  unfold LegacyMetrics.str_items, listed_items. revert text.
  induction d as [|kv d IH]; intros text; cbn [fold_left].
  - by rewrite append_nil_r.
  - rewrite IH, filter_cons. case_decide as Hk.
    + rewrite Hk. cbn [negb map join String.concat]. unfold render_item.
      destruct (map _ (filter _ d)) eqn:Hrest.
      * rewrite !append_assoc. simpl. by rewrite ?append_nil_r.
      * rewrite !append_assoc. done.
    + apply not_false_iff_true in Hk. rewrite Hk. done.
Qed.

Lemma join_items (items : list string) :
  items ≠ [] →
  join "" (map (fun s => s +:+ ", ") items) = join ", " items +:+ ", ".
Proof.
  induction items as [|s items IH]; [done|]. intros _.
  destruct items as [|s' items]; [done|].
  cbn [map join String.concat] in *. rewrite IH by done.
  by rewrite !append_assoc.
Qed.

Lemma listed_items_nonempty (d : list (string * value)) :
  forallb (fun kv => is_none kv.2) d = false → listed_items d ≠ [].
Proof.
  unfold listed_items. induction d as [|kv d IH]; [done|]. cbn [forallb].
  rewrite filter_cons. case_decide as Hk; [done|].
  apply not_false_iff_true in Hk. rewrite Hk. exact IH.
Qed.

(** One turn of either loop appends the rendering of the attribute, or
    nothing. *)
Lemma dict_step (text key : string) (d : list (string * value)) :
  forallb (fun kv => is_none kv.2) d = false →
  drop_last2 (LegacyMetrics.str_items (text +:+ key +:+ ": ") d) +:+ "; "
  = text +:+ render (key, PDict d).
Proof.
  intros Hd. rewrite str_items_spec.
  rewrite <- (List.map_map render_item (fun s => s +:+ ", ")), join_items.
  2: { intros Hnil%map_eq_nil. by apply listed_items_nonempty in Hd. }
  rewrite <- !append_assoc, drop_last2_separator.
  unfold render. simpl. by rewrite !append_assoc.
Qed.

Lemma legacy_step (text key : string) (v : value) :
  LegacyMetrics.str_step text key v
  = text +:+ (if listed (fun _ => false) (key, v) then render (key, v) else "").
Proof.
  unfold LegacyMetrics.str_step, listed. simpl.
  destruct v as [| b | z | f | s | l | rows | d]; simpl;
    rewrite ?append_nil_r, ?orb_false_r; try done.
  destruct (forallb _ d) eqn:Hd; simpl; [by rewrite append_nil_r|].
  by apply dict_step.
Qed.

(** The attribute the second [Metric] always lists. *)
Definition is_unit (key : string) : bool := String.eqb key "unit".

Lemma metric_step (text key : string) (v : value) :
  Metrics.str_step text key v
  = text +:+ (if listed is_unit (key, v) then render (key, v) else "").
Proof.
  unfold Metrics.str_step, listed, is_unit. cbn [fst snd].
  destruct (key =? "unit")%string;
    destruct v as [| b | z | f | s | l | rows | d];
    cbn [is_none negb orb andb]; rewrite ?append_nil_r; try done.
  - destruct (forallb _ d) eqn:Hd; cbn [negb]; [by rewrite append_nil_r|].
    by apply dict_step.
  - destruct (forallb _ d) eqn:Hd; cbn [negb]; [by rewrite append_nil_r|].
    by apply dict_step.
Qed.

Lemma fold_steps (step : string -> string -> value -> string)
    (always : string -> bool) (self : list (string * value)) (text : string) :
  (∀ text key v,
     step text key v
     = text +:+ (if listed always (key, v) then render (key, v) else "")) →
  fold_left (fun text kv => step text kv.1 kv.2) self text
  = text +:+ str_spec always self.
Proof.
  intros Hstep. unfold str_spec. revert text.
  induction self as [|[key v] self IH]; intros text; cbn [fold_left].
  - by rewrite append_nil_r.
  - rewrite IH, Hstep, filter_cons. cbn [fst snd].
    case_decide as Hk.
    + rewrite Hk. cbn [map join String.concat].
      destruct (map render _); by rewrite !append_assoc, ?append_nil_r.
    + apply not_true_iff_false in Hk. rewrite Hk. by rewrite append_nil_r.
Qed.

Lemma legacy_str_spec (self : LegacyMetrics.Metric) :
  LegacyMetrics.__str__ self = str_spec (fun _ => false) self.
Proof.
  unfold LegacyMetrics.__str__.
  by rewrite (fold_steps _ (fun _ => false)) by apply legacy_step.
Qed.

Lemma metric_str_spec (self : Metrics.Metric) :
  Metrics.__str__ self = str_spec is_unit self.
Proof.
  unfold Metrics.__str__.
  by rewrite (fold_steps _ is_unit) by apply metric_step.
Qed.

End rendering.

(** *** A rendering for the examples *)

(** The digits after the point, by long division. *)
Fixpoint decimals (fuel : nat) (r den : Z) : string :=
  match fuel with
  | O => ""
  | S fuel' =>
      if r =? 0 then ""
      else pretty (r * 10 / den) +:+ decimals fuel' (r * 10 mod den) den
  end.

Definition simple_float_repr (f : pyfloat) : string :=
  match f with
  | NaN => "nan"
  | Inf negative => if negative then "-inf" else "inf"
  | Fin q =>
      let den := Z.pos (Qden q) in
      let a := Z.abs (Qnum q) in
      (if Qnum q <? 0 then "-" else "")
      +:+ pretty (a / den) +:+ "."
      +:+ (if a mod den =? 0 then "0" else decimals 17 (a mod den) den)
  end.

Definition simple_repr : Repr :=
  {| float_repr := simple_float_repr;
     str_repr := fun s => "'" +:+ s +:+ "'";
     array_str := fun rows =>
       "[" +:+ join ", " (map (fun row => "[" +:+ join ", " (map simple_float_repr row)
                                          +:+ "]") rows) +:+ "]" |}.

(** The steps of [test_str] and [test_repr] on the first [Metric]. *)
Example legacy_test_str :
  let m0 := LegacyMetrics.__init__ in
  let m1 := Metrics.setattr "coverage" (PFloat (Fin 0.5)) m0 in
  let m2 := Metrics.setattr "num_components" (PInt 2) m1 in
  let m3 := Metrics.setattr "avg_path_length"
              (PDict [("E", PNone); ("S", PInt 4); ("N", PInt 11)]) m2 in
  @LegacyMetrics.__str__ simple_repr m0 = ""
  ∧ @LegacyMetrics.__str__ simple_repr m1 = "coverage: 0.5; "
  ∧ @LegacyMetrics.__str__ simple_repr m2 = "coverage: 0.5; num_components: 2; "
  ∧ @LegacyMetrics.__str__ simple_repr m3
    = "coverage: 0.5; num_components: 2; avg_path_length: S: 4, N: 11; "
  ∧ @LegacyMetrics.__repr__ simple_repr m0 = "Metric()"
  ∧ @LegacyMetrics.__repr__ simple_repr m3
    = "Metric(coverage: 0.5; num_components: 2; avg_path_length: S: 4, N: 11; )".
Proof. vm_compute. repeat split. Qed.

(** The original claim fails on the second [Metric]: a fresh one prints
    its unit, and a unit that is [None] is printed too. *)
Lemma fresh_metric_str_not_empty :
  @Metrics.__str__ simple_repr (Metrics.__init__ Metrics.default_unit) ≠ ""
  ∧ @Metrics.__str__ simple_repr (Metrics.__init__ PNone) = "unit: None; ".
Proof. split; [vm_compute; discriminate | vm_compute; reflexivity]. Qed.

(** C10, amended.  For the first [Metric] (metrics.py) the claim holds as
    it stands: a fresh metric prints as the empty string, [__str__] lists
    the attributes that are not [None], leaves out a dict whose values are
    all [None] and lists only the entries of a dict that are not [None];
    [__repr__] is the class name and the [__str__] text in parentheses.
    For the second [Metric] (metrics/metric.py) the same holds, except
    that the attribute [unit] is always listed, also when it is [None]:
    a fresh metric prints as ["unit: time; "]. *)
Theorem metric_str_lists_what_is_set `{Repr} :
  LegacyMetrics.__str__ LegacyMetrics.__init__ = ""
  ∧ (∀ self, LegacyMetrics.__str__ self = str_spec (fun _ => false) self)
  ∧ (∀ self, LegacyMetrics.__repr__ self
             = "Metric" +:+ "(" +:+ LegacyMetrics.__str__ self +:+ ")")
  ∧ Metrics.__str__ (Metrics.__init__ Metrics.default_unit) = "unit: time; "
  ∧ Metrics.__str__ (Metrics.__init__ PNone) = "unit: None; "
  ∧ (∀ self, Metrics.__str__ self = str_spec is_unit self)
  ∧ (∀ self, Metrics.__repr__ self
             = "Metric" +:+ "(" +:+ Metrics.__str__ self +:+ ")").
Proof.
  repeat split.
  - apply legacy_str_spec.
  - apply metric_str_spec.
Qed.

End StrFacts.

(** ** Saving and loading a [Metric] *)

Module RoundTripFacts.

Import Metrics.

(** Induction over values, through the lists and dicts inside them. *)
Lemma value_induction (P : value → Prop) :
  P PNone →
  (∀ b, P (PBool b)) →
  (∀ z, P (PInt z)) →
  (∀ f, P (PFloat f)) →
  (∀ s, P (PStr s)) →
  (∀ l, Forall P l → P (PList l)) →
  (∀ rows, P (PArray rows)) →
  (∀ d, Forall (fun kv => P kv.2) d → P (PDict d)) →
  ∀ v, P v.
Proof.
  intros HNone HBool HInt HFloat HStr HList HArray HDict.
  fix IH 1. intros [| b | z | f | s | l | rows | d].
  - exact HNone.
  - apply HBool.
  - apply HInt.
  - apply HFloat.
  - apply HStr.
  - apply HList. induction l as [|x l IHl]; constructor; [apply IH | exact IHl].
  - apply HArray.
  - apply HDict. induction d as [|kv d IHd]; constructor; [apply IH | exact IHd].
Qed.

(** A value as Python builds it: the keys of a dict are distinct. *)
Fixpoint distinct_keys (v : value) : bool :=
  match v with
  | PList l => forallb distinct_keys l
  | PDict d =>
      bool_decide (NoDup (map fst d)) && forallb (fun kv => distinct_keys kv.2) d
  | _ => true
  end.

Lemma float_same_refl (f : pyfloat) : float_same f f = true.
Proof.
  destruct f as [| neg | q]; simpl; [done| by destruct neg |].
  apply Qeq_bool_iff. reflexivity.
Qed.

Lemma floats_same_refl (r : list pyfloat) : floats_same r r = true.
Proof. induction r as [|f r IH]; [done|]. simpl. by rewrite float_same_refl. Qed.

Lemma rows_same_refl (m : list (list pyfloat)) : rows_same m m = true.
Proof. induction m as [|r m IH]; [done|]. simpl. by rewrite floats_same_refl. Qed.

Lemma assoc_distinct (d : list (string * value)) (k : string) (v : value) :
  NoDup (map fst d) → (k, v) ∈ d → assoc k d = Some v.
Proof.
  induction d as [|[k' w] d IH]; intros Hnd Hin; [by apply elem_of_nil in Hin|].
  simpl in *. apply NoDup_cons in Hnd as [Hk' Hnd].
  apply elem_of_cons in Hin as [[= -> ->]|Hin].
  - by rewrite String.eqb_refl.
  - destruct (String.eqb_spec k' k) as [->|Hne]; [|by apply IH].
    exfalso. apply Hk'. apply list_elem_of_fmap. by exists (k, v).
Qed.

Lemma has_key_elem (d : list (string * value)) (kv : string * value) :
  kv ∈ d → has_key kv.1 d = true.
Proof.
  intros Hin. unfold has_key. apply existsb_exists. exists kv.
  split; [by apply list_elem_of_In | apply String.eqb_refl].
Qed.

Lemma all_in_same (eq : value → value → bool) (d2 d : list (string * value)) :
  (∀ kv, kv ∈ d → assoc kv.1 d2 = Some kv.2 ∧ eq kv.2 kv.2 = true) →
  all_in eq d2 d = true.
Proof.
  induction d as [|kv d IH]; intros Hd; [done|]. simpl.
  destruct (Hd kv) as [-> ->]; [left|]. simpl. apply IH.
  intros kv' Hin. apply Hd. by right.
Qed.

(** The deep equality is reflexive: NaN is equal to itself in it. *)
Lemma value_equal_refl (v : value) :
  distinct_keys v = true → value_equal v v = true.
Proof.
  induction v as [| b | z | f | s | l IH | rows | d IH] using value_induction;
    intros Hwf; simpl.
  - done.
  - by destruct b.
  - apply Z.eqb_refl.
  - apply float_same_refl.
  - apply String.eqb_refl.
  - simpl in Hwf. induction IH as [|x l Hx Hl IHl]; [done|].
    simpl in *. apply andb_true_iff in Hwf as [Hx' Hl'].
    rewrite Hx by done. by apply IHl.
  - apply rows_same_refl.
  - simpl in Hwf. apply andb_true_iff in Hwf as [Hnd Hwf].
    apply bool_decide_eq_true in Hnd. apply andb_true_iff. split.
    + apply all_in_same. intros [k v] Hin. split.
      * by apply assoc_distinct.
      * rewrite Forall_forall in IH. apply (IH (k, v) Hin).
        rewrite forallb_forall in Hwf. apply (Hwf (k, v)).
        by apply list_elem_of_In.
    + apply forallb_forall. intros kv Hin. apply has_key_elem.
      by apply list_elem_of_In.
Qed.

Lemma metric_eq_refl (self : Metric) :
  distinct_keys (PDict self) = true → __eq__ self self = true.
Proof. apply value_equal_refl. Qed.

(** *** The pickle of a value, run *)

Lemma pop_mark_values (vs : list value) (tail : list Pickle.item) (above : list value) :
  Pickle.pop_mark (rev (map (fun v => Pickle.Obj (Pickle.Plain v)) vs) ++ tail) above
  = Pickle.pop_mark tail (vs ++ above).
Proof.
  revert tail above. induction vs as [|v vs IH]; intros tail above; [done|].
  cbn [map rev]. rewrite <- app_assoc. rewrite IH. done.
Qed.

(** A key that is new is put last. *)
Lemma set_item_new (k : string) (v : value) (d : list (string * value)) :
  k ∉ map fst d → Pickle.set_item k v d = d ++ [(k, v)].
Proof.
  induction d as [|[k' w] d IH]; intros Hk; [done|]. cbn [Pickle.set_item map fst] in *.
  apply not_elem_of_cons in Hk as [Hne Hk].
  destruct (String.eqb_spec k' k) as [->|_]; [done|]. by rewrite IH.
Qed.

Lemma update_new (d new : list (string * value)) :
  NoDup (map fst (d ++ new)) → Pickle.update d new = d ++ new.
Proof.
  unfold Pickle.update. revert d. induction new as [|[k v] new IH]; intros d Hnd;
    cbn [fold_left]; [by rewrite app_nil_r|].
  cbn [fst snd]. rewrite set_item_new.
  - rewrite IH; rewrite <- app_assoc; done.
  - rewrite map_app in Hnd. apply NoDup_app in Hnd as (_ & Hnot & _).
    intros Hk. apply (Hnot k Hk). left.
Qed.

Lemma pairs_entries (d : list (string * value)) :
  Pickle.pairs (flat_map (fun kv => [PStr kv.1; kv.2]) d) = Some d.
Proof.
  induction d as [|[k v] d IH]; [done|]. cbn [flat_map app Pickle.pairs fst snd].
  by rewrite IH.
Qed.

(** The opcodes the pickler writes for a value leave that value on the
    stack of the unpickler. *)
Lemma save_run (depth : nat) (v : value) (ops : list Pickle.opcode) :
  Pickle.save depth v = Returned ops →
  distinct_keys v = true →
  ∀ rest stack, Pickle.run (ops ++ rest) stack = Pickle.run rest (Pickle.Obj (Pickle.Plain v) :: stack).
Proof.
  revert v ops. induction depth as [|depth IH]; intros v ops; cbn [Pickle.save]; [done|].
  assert (Hitems : ∀ l items,
            Pickle.save_items (Pickle.save depth) l = Returned items →
            forallb distinct_keys l = true →
            ∀ rest stack,
              Pickle.run (items ++ rest) stack
              = Pickle.run rest (rev (map (fun v => Pickle.Obj (Pickle.Plain v)) l) ++ stack)).
  { induction l as [|x l IHl]; intros items; cbn [Pickle.save_items forallb].
    - by intros [= <-].
    - destruct (Pickle.save depth x) as [ops1|err] eqn:Hx; cbn [Py.bind]; [|done].
      destruct (Pickle.save_items (Pickle.save depth) l) as [ops2|err]; cbn [Py.bind]; [|done].
      intros [= <-] [Hwx Hwl]%andb_true_iff rest stack.
      rewrite <- app_assoc, (IH x ops1 Hx Hwx), (IHl ops2 eq_refl Hwl).
      cbn [map rev]. by rewrite <- app_assoc. }
  assert (Hentries : ∀ d items,
            Pickle.save_entries (Pickle.save depth) d = Returned items →
            forallb (fun kv => distinct_keys kv.2) d = true →
            ∀ rest stack,
              Pickle.run (items ++ rest) stack
              = Pickle.run rest (rev (map (fun v => Pickle.Obj (Pickle.Plain v))
                                   (flat_map (fun kv => [PStr kv.1; kv.2]) d))
                          ++ stack)).
  { induction d as [|[k x] d IHd]; intros items; cbn [Pickle.save_entries forallb].
    - by intros [= <-].
    - destruct (Pickle.save depth x) as [ops1|err] eqn:Hx; cbn [Py.bind]; [|done].
      destruct (Pickle.save_entries (Pickle.save depth) d) as [ops2|err]; cbn [Py.bind]; [|done].
      intros [= <-] [Hwx Hwd]%andb_true_iff rest stack. cbn [snd] in Hwx.
      cbn [app Pickle.run Pickle.step Py.bind].
      rewrite <- app_assoc, (IH x ops1 Hx Hwx), (IHd ops2 eq_refl Hwd).
      cbn [flat_map app map rev fst snd]. by rewrite <- !app_assoc. }
  destruct v as [| b | z | f | s | l | rows | d]; cbn [distinct_keys].
  - by intros [= <-].
  - intros [= <-] _ rest stack. by destruct b.
  - by intros [= <-].
  - by intros [= <-].
  - by intros [= <-].
  - destruct (Pickle.save_items (Pickle.save depth) l) as [items|err] eqn:Hl; cbn [Py.bind]; [|done].
    intros [= <-] Hwf rest stack. cbn [app Pickle.run Pickle.step Py.bind].
    rewrite <- app_assoc, (Hitems l items Hl Hwf). cbn [app Pickle.run Pickle.step].
    rewrite pop_mark_values. cbn [Pickle.pop_mark Py.bind]. by rewrite app_nil_r.
  - by intros [= <-].
  - destruct (Pickle.save_entries (Pickle.save depth) d) as [items|err] eqn:Hd; cbn [Py.bind]; [|done].
    intros [= <-] [Hnd Hwf]%andb_true_iff rest stack.
    apply bool_decide_eq_true in Hnd. cbn [app Pickle.run Pickle.step Py.bind].
    rewrite <- app_assoc, (Hentries d items Hd Hwf). cbn [app Pickle.run Pickle.step].
    rewrite pop_mark_values. cbn [Pickle.pop_mark]. rewrite app_nil_r, pairs_entries.
    cbn [Py.bind]. by rewrite update_new.
Qed.

(** How deep the objects inside a value are nested. *)
Fixpoint nesting (v : value) : nat :=
  match v with
  | PList l => S (foldr Nat.max 0%nat (map nesting l))
  | PDict d => S (foldr Nat.max 0%nat (map (fun kv => nesting kv.2) d))
  | _ => 1
  end.

(** The pickler returns when the interpreter can go as deep as the value
    is nested. *)
Lemma save_returns (depth : nat) (v : value) :
  (nesting v ≤ depth)%nat → ∃ ops, Pickle.save depth v = Returned ops.
Proof.
  revert v. induction depth as [|depth IH]; intros v Hv.
  { destruct v; simpl in Hv; lia. }
  assert (Hitems : ∀ l, (foldr Nat.max 0%nat (map nesting l) ≤ depth)%nat →
            ∃ items, Pickle.save_items (Pickle.save depth) l = Returned items).
  { induction l as [|x l IHl]; cbn [map foldr Pickle.save_items]; intros Hl; [eauto|].
    destruct (IH x) as [ops1 ->]; [lia|].
    destruct IHl as [ops2 ->]; [lia|]. cbn [Py.bind]. eauto. }
  assert (Hentries : ∀ d,
            (foldr Nat.max 0%nat (map (fun kv => nesting kv.2) d) ≤ depth)%nat →
            ∃ items, Pickle.save_entries (Pickle.save depth) d = Returned items).
  { induction d as [|[k x] d IHd]; cbn [map foldr Pickle.save_entries snd]; intros Hd; [eauto|].
    destruct (IH x) as [ops1 ->]; [lia|].
    destruct IHd as [ops2 ->]; [lia|]. cbn [Py.bind]. eauto. }
  destruct v as [| b | z | f | s | l | rows | d]; cbn [Pickle.save nesting] in *; eauto.
  - destruct (Hitems l) as [items ->]; [lia|]. cbn [Py.bind]. eauto.
  - destruct (Hentries d) as [items ->]; [lia|]. cbn [Py.bind]. eauto.
Qed.

(** What [pickle.dump] writes for an instance, [pickle.load] reads back
    as that instance. *)
Lemma dump_load (depth : nat) (class : string) (dict : list (string * value)) :
  distinct_keys (PDict dict) = true →
  (nesting (PDict dict) < depth)%nat →
  ∃ ops, Pickle.dump depth class dict = Returned ops
         ∧ Pickle.load ops = Returned (Pickle.Instance class dict).
Proof.
  intros Hwf Hdepth. unfold Pickle.dump. destruct depth as [|depth]; [lia|].
  destruct (save_returns depth (PDict dict)) as [state Hstate]; [lia|].
  rewrite Hstate. cbn [Py.bind]. eexists. split; [reflexivity|].
  unfold Pickle.load. cbn [Pickle.run Pickle.step Py.bind].
  rewrite (save_run depth (PDict dict) state Hstate Hwf). cbn [Pickle.run Pickle.step Py.bind].
  rewrite update_new; [done|].
  cbn [distinct_keys] in Hwf. apply andb_true_iff in Hwf as [Hnd _].
  by apply bool_decide_eq_true in Hnd.
Qed.


(** C3: a metric saved to the folder [load] reads from
    ([RESULTS_DIR/name]) and loaded back is a [Metric] equal to the
    original under [__eq__], NaN entries included.  The file has to be
    one the operating system lets [save] write and [load] read, and the
    interpreter has to have the depth left that the pickler needs for
    the attributes of the metric. *)
Theorem save_load_round_trip `{Interpreter} `{Config.Install}
    (self : Metric) (name : string) (fs : FileSystem) :
  distinct_keys (PDict self) = true →
  (nesting (PDict self) < recursion_left)%nat →
  refused fs (Os.join (Os.join Config.RESULTS_DIR name) (name +:+ ".metrics")) wb
  = None →
  refused fs (Os.join (Os.join Config.RESULTS_DIR name) (name +:+ ".metrics")) rb
  = None →
  ∃ fs' loaded,
    save self (Os.join Config.RESULTS_DIR name) name fs = (Returned tt, fs')
    ∧ load name fs' = (Returned (Pickle.Instance "Metric" loaded), fs')
    ∧ __eq__ self loaded = true
    ∧ __eq__ loaded self = true.
Proof.
  intros Hwf Hdepth Hwrite Hread.
  destruct (dump_load recursion_left "Metric" self Hwf Hdepth) as (ops & Hdump & Hload).
  exists (write (Os.join (Os.join Config.RESULTS_DIR name) (name +:+ ".metrics"))
            ops fs), self.
  unfold save, load. rewrite Hwrite, Hdump. split; [done|].
  cbn [files refused write]. rewrite lookup_insert_eq, Hread, Hload.
  by rewrite metric_eq_refl.
Qed.

Definition installed_at_src : Config.Install := "/src/superblockify".

Definition a_thousand_deep : Interpreter := 1000%nat.

(** A file system on which the paths under the results folder of the
    town can be opened and nothing else can. *)
Definition results_of_town : FileSystem :=
  {| files := ∅;
     refused := fun path _ =>
       if String.prefix "/src/superblockify/../data/results/town/" path
       then None
       else Some (FileNotFoundError path) |}.

(** A metric after a run: numbers, a NaN among them, and matrices with
    an unreachable pair. *)
Definition computed_metric : Metric :=
  [("coverage", PFloat (Fin 0.5));
   ("num_components", PInt 2);
   ("avg_path_length", PDict [("S", PFloat (Fin 4)); ("N", PFloat (Fin 11))]);
   ("directness", PDict [("SN", PFloat NaN)]);
   ("global_efficiency", PDict [("NS", PFloat (Fin 0.75))]);
   ("high_bc_clustering", PFloat NaN);
   ("high_bc_anisotropy", PNone);
   ("distance_matrix",
    PDict [("S", PArray [[Fin 0; Fin 1]; [Inf false; Fin 0]]);
           ("N", PArray [[Fin 0; Fin 2]; [Inf false; Fin 0]])]);
   ("predecessor_matrix", PDict []);
   ("unit", PStr "time");
   ("node_list", PList [PInt 1; PInt 2])].

Lemma save_load_round_trip_witness :
  ∃ fs' loaded,
    @save a_thousand_deep computed_metric
      (Os.join (@Config.RESULTS_DIR installed_at_src) "town") "town" results_of_town
    = (Returned tt, fs')
    ∧ @load installed_at_src "town" fs' = (Returned (Pickle.Instance "Metric" loaded), fs')
    ∧ __eq__ computed_metric loaded = true
    ∧ __eq__ loaded computed_metric = true.
Proof.
  apply (@save_load_round_trip a_thousand_deep installed_at_src computed_metric
           "town" results_of_town).
  - reflexivity.
  - vm_compute. lia.
  - reflexivity.
  - reflexivity.
Defined.

(** The pickle of a small metric, and what happens without a folder,
    in another folder and with too little depth left. *)
Example pickle_of_a_metric :
  Pickle.dump 4 "Metric" [("coverage", PFloat NaN); ("directness", PDict [("SN", PNone)])]
  = Returned [Pickle.NEWOBJ "Metric"; Pickle.EMPTY_DICT; Pickle.MARK;
              Pickle.BINUNICODE "coverage"; Pickle.BINFLOAT NaN;
              Pickle.BINUNICODE "directness"; Pickle.EMPTY_DICT; Pickle.MARK; Pickle.BINUNICODE "SN"; Pickle.NONE;
              Pickle.SETITEMS;
              Pickle.SETITEMS; Pickle.BUILD; Pickle.STOP].
Proof. reflexivity. Qed.

Example save_without_folder :
  @save a_thousand_deep computed_metric
    (Os.join (@Config.RESULTS_DIR installed_at_src) "city") "city" results_of_town
  = (Raised (FileNotFoundError "/src/superblockify/../data/results/city/city.metrics"),
     results_of_town).
Proof. vm_compute. reflexivity. Qed.

Example load_from_other_folder :
  (@load installed_at_src "town"
     (@save a_thousand_deep computed_metric
        "/src/superblockify/../data/results/town/old" "town" results_of_town).2).1
  = Raised (FileNotFoundError "/src/superblockify/../data/results/town/town.metrics").
Proof. vm_compute. reflexivity. Qed.

Example save_too_deep :
  (@save (2%nat : Interpreter) computed_metric
     (Os.join (@Config.RESULTS_DIR installed_at_src) "town") "town" results_of_town).1
  = Raised (RecursionError "maximum recursion depth exceeded while pickling an object").
Proof. vm_compute. reflexivity. Qed.

(** Python's own [==] would not do: it tells NaN from itself. *)
Example nan_differs_from_itself : float_eq NaN NaN = false ∧ float_same NaN NaN = true.
Proof. split; reflexivity. Qed.

End RoundTripFacts.

(** ** The peaks [find_peaks] selects *)

Module ScipyFacts.

Import Scipy.

Local Open Scope nat_scope.

(** Every entry is at least [d] places after the entries before it. *)
Fixpoint separated (d : nat) (l : list nat) : Prop :=
  match l with
  | [] => True
  | a :: l' => Forall (fun b => a + d ≤ b) l' ∧ separated d l'
  end.

Lemma separated_sublist (d : nat) (l1 l2 : list nat) :
  l1 `sublist_of` l2 → separated d l2 → separated d l1.
Proof.
  induction 1 as [|x l1 l2 Hsub IH|x l1 l2 Hsub IH]; simpl; [done| |].
  - intros [Hall Hsep]. split; [|by apply IH].
    rewrite Forall_forall in *. intros b Hb. apply Hall.
    eapply elem_of_sublist; eauto.
  - intros [_ Hsep]. by apply IH.
Qed.

Lemma separated_lookup (d : nat) (l : list nat) (i j a b : nat) :
  separated d l → i < j → l !! i = Some a → l !! j = Some b → a + d ≤ b.
Proof.
  revert i j. induction l as [|x l IH]; intros i j Hsep Hij Hi Hj; [done|].
  destruct Hsep as [Hall Hsep]. destruct j as [|j]; [lia|].
  destruct i as [|i]; simpl in *.
  - injection Hi as ->. rewrite Forall_forall in Hall. apply Hall.
    eapply list_elem_of_lookup_2; eauto.
  - eapply (IH i j); eauto. lia.
Qed.

Lemma mask_sublist {A : Type} (l : list A) (keep : list bool) :
  mask l keep `sublist_of` l.
Proof.
  revert keep. induction l as [|a l IH]; intros [|[] keep]; simpl;
    try constructor; try apply IH; try apply sublist_nil_l.
Qed.

Lemma plateau_end_ge (fuel : nat) (x : list Q) (xi : Q) (i_ahead i_max : nat) :
  i_ahead ≤ plateau_end fuel x xi i_ahead i_max.
Proof.
  revert i_ahead. induction fuel as [|fuel IH]; intros i_ahead; simpl; [lia|].
  destruct (_ && _); [|lia]. specialize (IH (S i_ahead)). lia.
Qed.

Lemma plateau_end_le (fuel : nat) (x : list Q) (xi : Q) (i_ahead i_max : nat) :
  i_ahead ≤ i_max → plateau_end fuel x xi i_ahead i_max ≤ i_max.
Proof.
  revert i_ahead. induction fuel as [|fuel IH]; intros i_ahead Hle; simpl; [lia|].
  destruct (Nat.ltb_spec i_ahead i_max); simpl; [|lia].
  destruct (Qeq_bool _ _); [|lia]. apply IH. lia.
Qed.

Lemma midpoint_between (i a : nat) :
  i ≤ a → i ≤ (i + a) / 2 ∧ (i + a) / 2 ≤ a.
Proof.
  intros Hle. split.
  - apply Nat.div_le_lower_bound; lia.
  - apply Nat.Div0.div_le_upper_bound; lia.
Qed.

(** The maxima found from index [i] on lie at or after [i] and before
    [i_max], each at least two samples after the one before it: a maximum
    needs a smaller sample on each side. *)
Lemma local_maxima_from_spec (fuel : nat) (x : list Q) (i i_max : nat) :
  Forall (fun m => i ≤ m ∧ m < i_max) (map midpoint (local_maxima_from fuel x i i_max))
  ∧ separated 2 (map midpoint (local_maxima_from fuel x i i_max)).
Proof.
  revert i. induction fuel as [|fuel IH]; intros i; cbn [local_maxima_from];
    [done|].
  destruct (Nat.ltb_spec i i_max) as [Hlt|]; [|done].
  assert (Hnext : ∀ k, i < k →
            Forall (fun m => i ≤ m ∧ m < i_max)
                   (map midpoint (local_maxima_from fuel x k i_max))
            ∧ separated 2 (map midpoint (local_maxima_from fuel x k i_max))).
  { intros k Hk. destruct (IH k) as [Hall Hsep]. split; [|done].
    eapply Forall_impl; [exact Hall|]. simpl. lia. }
  destruct (Qlt_bool (at_ x (i - 1)) (at_ x i)); [|apply Hnext; lia].
  set (i_ahead := plateau_end (length x) x (at_ x i) (S i) i_max).
  destruct (Qlt_bool (at_ x i_ahead) (at_ x i)); [|apply Hnext; lia].
  pose proof (plateau_end_ge (length x) x (at_ x i) (S i) i_max) as Hge.
  pose proof (plateau_end_le (length x) x (at_ x i) (S i) i_max Hlt) as Hle.
  fold i_ahead in Hge, Hle.
  destruct (midpoint_between i (i_ahead - 1)) as [Hm1 Hm2]; [lia|].
  destruct (IH (S i_ahead)) as [Hall Hsep].
  cbn [map midpoint separated]. repeat split.
  - constructor; [lia|]. eapply Forall_impl; [exact Hall|].
    intros m [? ?]. lia.
  - eapply Forall_impl; [exact Hall|]. intros m [? ?]. lia.
  - done.
Qed.

Lemma local_maxima_1d_spec (x : list Q) :
  Forall (fun m => m < length x - 1) (map midpoint (local_maxima_1d x))
  ∧ separated 2 (map midpoint (local_maxima_1d x)).
Proof.
  unfold local_maxima_1d.
  destruct (local_maxima_from_spec (length x) x 1 (length x - 1)) as [Hall Hsep].
  split; [|done]. eapply Forall_impl; [exact Hall|]. simpl. lia.
Qed.

(** What [find_peaks] promises for the peaks it returns: each is a local
    maximum at least as high as [height] and at least as prominent as
    [prominence]; the peaks are in rising order, two samples apart or
    more. *)
Lemma find_peaks_spec `{Floats} (x : list Q) (height prominence : Q) (distance : Z)
    (r : peaks_result) :
  find_peaks x height prominence distance = Returned r →
  Forall (fun p => (height <= at_ x p)%Q) (peaks r)
  ∧ Forall (fun p => (prominence <= prominence_of (peak_prominence x p))%Q) (peaks r)
  ∧ Forall (fun p => p < length x - 1) (peaks r)
  ∧ separated 2 (peaks r)
  ∧ prominences r = map (fun p => prominence_of (peak_prominence x p)) (peaks r)
  ∧ peak_heights r = map (at_ x) (peaks r).
Proof.
  unfold find_peaks. destruct (Z.ltb distance 1); [done|]. intros [= <-]. simpl.
  set (peaks0 := map midpoint (local_maxima_1d x)).
  set (peaks1 := filter _ peaks0).
  set (peaks2 := mask peaks1 _).
  set (peaks3 := filter _ peaks2).
  assert (Hsub2 : peaks2 `sublist_of` peaks1) by apply mask_sublist.
  assert (Hsub3 : peaks3 `sublist_of` peaks2) by apply sublist_filter.
  assert (Hsub1 : peaks1 `sublist_of` peaks0) by apply sublist_filter.
  assert (Hsub : peaks3 `sublist_of` peaks0)
    by (etrans; [exact Hsub3|]; etrans; [exact Hsub2|exact Hsub1]).
  destruct (local_maxima_1d_spec x) as [Hbound Hsep]. fold peaks0 in Hbound, Hsep.
  repeat split.
  - apply Forall_forall. intros p Hp.
    assert (Hp1 : p ∈ peaks1)
      by (eapply elem_of_sublist; [exact Hp|]; etrans; [exact Hsub3|exact Hsub2]).
    apply list_elem_of_filter in Hp1 as [Hh _].
    by apply Qle_bool_iff.
  - apply Forall_forall. intros p Hp.
    apply list_elem_of_filter in Hp as [Hh _]. by apply Qle_bool_iff.
  - apply Forall_forall. intros p Hp. rewrite Forall_forall in Hbound.
    apply Hbound. eapply elem_of_sublist; eauto.
  - eapply separated_sublist; eauto.
Qed.

(** *** What a local maximum is *)

(** A flat run of samples, from [l] to [r], with a lower sample on each
    side of it. *)
Definition plateau (x : list Q) (l r : nat) : Prop :=
  1 ≤ l ∧ l ≤ r ∧ r + 1 < length x
  ∧ (at_ x (l - 1) < at_ x l)%Q
  ∧ (∀ k, l ≤ k → k ≤ r → (at_ x k == at_ x l)%Q)
  ∧ (at_ x (r + 1) < at_ x l)%Q.

(** Where the look ahead stops: at the first sample from [i_ahead] on
    that differs, and at [i_max] at the latest. *)
Lemma plateau_end_spec (fuel : nat) (x : list Q) (xi : Q) (i_ahead i_max : nat) :
  i_max ≤ i_ahead + fuel →
  (∀ k, i_ahead ≤ k → k < plateau_end fuel x xi i_ahead i_max → (at_ x k == xi)%Q)
  ∧ (plateau_end fuel x xi i_ahead i_max < i_max →
     ¬ (at_ x (plateau_end fuel x xi i_ahead i_max) == xi)%Q).
Proof.
  revert i_ahead. induction fuel as [|fuel IH]; intros i_ahead Hfuel;
    cbn [plateau_end].
  { split; [lia|lia]. }
  destruct (Nat.ltb_spec i_ahead i_max) as [Hlt|Hge]; cbn [andb].
  - destruct (Qeq_bool (at_ x i_ahead) xi) eqn:Heq.
    + destruct (IH (S i_ahead)) as [Hall Hstop]; [lia|]. split; [|done].
      intros k Hk1 Hk2. destruct (decide (k = i_ahead)) as [->|Hne].
      * by apply Qeq_bool_iff.
      * apply Hall; [lia|done].
    + split; [lia|]. intros _ Hx. apply Qeq_bool_iff in Hx. congruence.
  - split; lia.
Qed.

(** The maxima the loop finds from sample [i] on are the plateaus that
    begin at [i] or later. *)
Lemma local_maxima_from_plateaus (fuel : nat) (x : list Q) (i : nat) (m : maximum) :
  length x - 1 ≤ i + fuel → 1 ≤ i →
  m ∈ local_maxima_from fuel x i (length x - 1)
  ↔ i ≤ left_edge m
    ∧ plateau x (left_edge m) (right_edge m)
    ∧ midpoint m = (left_edge m + right_edge m) / 2.
Proof.
  revert i. induction fuel as [|fuel IH]; intros i Hfuel Hi; cbn [local_maxima_from].
  { split; [by intros ?%elem_of_nil|]. intros (Hl & (_ & Hlr & Hr & _) & _). lia. }
  destruct (Nat.ltb_spec i (length x - 1)) as [Hlt|Hge];
    [|split; [by intros ?%elem_of_nil|]; intros (Hl & (_ & Hlr & Hr & _) & _); lia].
  (* a plateau that begins at [i] needs a lower sample before [i] *)
  assert (Hskip : Qlt_bool (at_ x (i - 1)) (at_ x i) = false ∨
                  Qlt_bool (at_ x (plateau_end (length x) x (at_ x i) (S i)
                                     (length x - 1))) (at_ x i) = false →
            (m ∈ local_maxima_from fuel x (S i) (length x - 1)
             ↔ i ≤ left_edge m
               ∧ plateau x (left_edge m) (right_edge m)
               ∧ midpoint m = (left_edge m + right_edge m) / 2)).
  { intros Hno. rewrite IH by lia. split; [intros (? & ? & ?); split; [lia|done]|].
    intros (Hl & Hplateau & Hmid). split; [|done].
    destruct (decide (left_edge m = i)) as [Heq|]; [|lia]. exfalso.
    destruct Hplateau as (_ & Hlr & Hr & Hleft & Hflat & Hright). rewrite Heq in *.
    destruct Hno as [Hno|Hno].
    - apply not_true_iff_false in Hno. apply Hno.
      by apply PercentileFacts.Qlt_bool_iff.
    - apply not_true_iff_false in Hno. apply Hno.
      apply PercentileFacts.Qlt_bool_iff.
      destruct (plateau_end_spec (length x) x (at_ x i) (S i) (length x - 1))
        as [Hall Hstop]; [lia|].
      pose proof (plateau_end_ge (length x) x (at_ x i) (S i) (length x - 1)) as Hge.
      pose proof (plateau_end_le (length x) x (at_ x i) (S i) (length x - 1)) as Hle.
      set (e := plateau_end (length x) x (at_ x i) (S i) (length x - 1)) in *.
      assert (He : e = right_edge m + 1).
      { destruct (Nat.lt_trichotomy e (right_edge m + 1)) as [Hlow|[?|Hhigh]]; [|done|].
        - exfalso. apply Hstop; [lia|]. apply Hflat; lia.
        - exfalso. specialize (Hall (right_edge m + 1)).
          rewrite Hall in Hright by lia. by apply Qlt_irrefl in Hright. }
      by rewrite He. }
  destruct (Qlt_bool (at_ x (i - 1)) (at_ x i)) eqn:Hup; [|apply Hskip; by left].
  set (i_ahead := plateau_end (length x) x (at_ x i) (S i) (length x - 1)) in *.
  destruct (Qlt_bool (at_ x i_ahead) (at_ x i)) eqn:Hdown; [|apply Hskip; by right].
  clear Hskip.
  destruct (plateau_end_spec (length x) x (at_ x i) (S i) (length x - 1))
    as [Hall Hstop]; [lia|].
  pose proof (plateau_end_ge (length x) x (at_ x i) (S i) (length x - 1)) as Hge.
  pose proof (plateau_end_le (length x) x (at_ x i) (S i) (length x - 1)) as Hle.
  fold i_ahead in Hall, Hstop, Hge, Hle.
  apply PercentileFacts.Qlt_bool_iff in Hup, Hdown.
  assert (Hfound : plateau x i (i_ahead - 1)).
  { split; [done|]. split; [lia|]. split; [lia|]. split; [done|]. split.
    - intros k Hk1 Hk2. destruct (decide (k = i)) as [->|]; [reflexivity|].
      apply Hall; lia.
    - replace (i_ahead - 1 + 1) with i_ahead by lia. done. }
  rewrite elem_of_cons, IH by lia. split.
  - intros [->|(Hl & Hplateau & Hmid)]; cbn [left_edge right_edge midpoint].
    + done.
    + split; [lia|done].
  - intros (Hl & Hplateau & Hmid).
    destruct Hplateau as (Hl1 & Hlr & Hr & Hleft & Hflat & Hright).
    destruct (decide (left_edge m = i)) as [Heq|Hne].
    + left. rewrite Heq in *.
      assert (He : i_ahead = right_edge m + 1).
      { destruct (Nat.lt_trichotomy i_ahead (right_edge m + 1)) as [Hlow|[?|Hhigh]];
          [|done|].
        - exfalso. apply Hstop; [lia|]. apply Hflat; lia.
        - exfalso. specialize (Hall (right_edge m + 1)).
          rewrite Hall in Hright by lia. by apply Qlt_irrefl in Hright. }
      destruct m as [mid l r]. cbn [left_edge right_edge midpoint] in *.
      subst l. rewrite Hmid, He. replace (r + 1 - 1) with r by lia. reflexivity.
    + right. split; [|done].
      (* the plateau begins after the one found *)
      destruct (Nat.le_gt_cases (S i_ahead) (left_edge m)) as [|Hin]; [done|].
      exfalso. destruct (decide (left_edge m = i_ahead)) as [Hat|Hbefore].
      * rewrite Hat in Hleft.
        assert (Hprev : (at_ x (i_ahead - 1) == at_ x i)%Q).
        { destruct (decide (i_ahead - 1 = i)) as [->|]; [reflexivity|].
          apply Hall; lia. }
        rewrite Hprev in Hleft.
        apply (Qlt_irrefl (at_ x i)). exact (Qlt_trans _ _ _ Hleft Hdown).
      * assert (H1 : (at_ x (left_edge m - 1) == at_ x i)%Q).
        { destruct (decide (left_edge m - 1 = i)) as [->|]; [reflexivity|].
          apply Hall; lia. }
        assert (H2 : (at_ x (left_edge m) == at_ x i)%Q) by (apply Hall; lia).
        rewrite H1, H2 in Hleft. by apply Qlt_irrefl in Hleft.
Qed.

(** The local maxima [find_peaks] starts from are the plateaus of
    the signal: a sample, or a flat run of samples, with a lower sample
    right before it and right after it.  A maximum is in the list exactly
    when its two edges are the ends of such a run and its place is the
    middle of the run (rounded down).  The first and the last sample are
    never part of one. *)
Theorem local_maxima_are_the_plateaus (x : list Q) (m : maximum) :
  m ∈ local_maxima_1d x
  ↔ plateau x (left_edge m) (right_edge m)
    ∧ midpoint m = (left_edge m + right_edge m) / 2.
Proof.
  unfold local_maxima_1d. rewrite local_maxima_from_plateaus by lia.
  split; [tauto|]. intros [Hplateau Hmid]. split; [|done].
  by destruct Hplateau as (? & _).
Qed.

(** A signal with a peak of one sample and a flat peak of three. *)
Example two_plateaus :
  local_maxima_1d [0; 2; 1; 3; 3; 3; 0; 5]%Q
  = [ {| midpoint := 1; left_edge := 1; right_edge := 1 |};
      {| midpoint := 4; left_edge := 3; right_edge := 5 |} ].
Proof. vm_compute. reflexivity. Qed.


(** The places of the local maxima are the middles of the plateaus. *)
Lemma midpoints_of_plateaus (x : list Q) (p : nat) :
  p ∈ map midpoint (local_maxima_1d x)
  ↔ ∃ l r, plateau x l r ∧ p = (l + r) / 2.
Proof.
  rewrite list_elem_of_fmap. split.
  - intros (m & -> & Hm). unfold local_maxima_1d in Hm.
    apply local_maxima_from_plateaus in Hm as (_ & Hplateau & Hmid); [|lia..].
    eauto.
  - intros (l & r & Hplateau & ->).
    exists {| midpoint := (l + r) / 2; left_edge := l; right_edge := r |}.
    split; [done|]. unfold local_maxima_1d.
    apply local_maxima_from_plateaus; [lia..|]. cbn. split; [|done].
    by destruct Hplateau as (? & _).
Qed.

(** *** The distance step *)

Lemma insert_by_elem (priority : nat → Q) (j k : nat) (order : list nat) :
  k ∈ insert_by priority j order ↔ k = j ∨ k ∈ order.
Proof.
  induction order as [|a order IH]; cbn [insert_by].
  - rewrite list_elem_of_singleton. split; [by left|]. by intros [->|?%elem_of_nil].
  - destruct (Qlt_bool (priority j) (priority a)).
    + by rewrite elem_of_cons.
    + rewrite !elem_of_cons, IH. tauto.
Qed.

Lemma argsort_in_range (priority : list Q) (j : nat) :
  j ∈ argsort priority → j < length priority.
Proof.
  unfold argsort.
  assert (Hgen : ∀ js order,
            j ∈ fold_left (fun order j => insert_by (at_ priority) j order) js order →
            j ∈ js ∨ j ∈ order).
  { induction js as [|a js IH]; intros order; cbn [fold_left]; [by right|].
    intros [Hj|Hj]%IH; [left; by right|].
    apply insert_by_elem in Hj as [->|Hj]; [left; left|by right]. }
  intros [Hj|Hj%elem_of_nil]%Hgen; [|done].
  apply elem_of_seq in Hj. lia.
Qed.

Lemma nth_lookup_in {A : Type} (l : list A) (k : nat) (d : A) :
  k < length l → l !! k = Some (nth k l d).
Proof.
  revert k. induction l as [|a l IH]; intros [|k] Hk; simpl in *; try lia; [done|].
  apply IH. lia.
Qed.

(** With a distance of one sample a kept peak clears no other: two peaks
    are never at the same sample. *)
Lemma clear_neighbours_one (peaks : list nat) (j : nat) (keep : list bool) :
  separated 2 peaks → j < length peaks → length keep = length peaks →
  clear_neighbours peaks 1 j keep = keep.
Proof.
  intros Hsep Hj Hlen. unfold clear_neighbours.
  apply list_eq. intros k. rewrite list_lookup_imap.
  destruct (keep !! k) as [flag|] eqn:Hk; [|done].
  cbn [fmap option_fmap option_map]. f_equal.
  assert (Hkl : k < length peaks).
  { rewrite <- Hlen. eapply lookup_lt_Some; eauto. }
  destruct (Nat.eqb_spec k j) as [->|Hne]; [done|].
  destruct (Nat.ltb_spec k j) as [Hlt|Hge].
  - pose proof (separated_lookup 2 peaks k j _ _ Hsep Hlt
                  (nth_lookup_in peaks k 0 Hkl) (nth_lookup_in peaks j 0 Hj)).
    destruct (Nat.ltb_spec (nth j peaks 0 - nth k peaks 0) 1); [lia|done].
  - assert (Hjk : j < k) by lia.
    pose proof (separated_lookup 2 peaks j k _ _ Hsep Hjk
                  (nth_lookup_in peaks j 0 Hj) (nth_lookup_in peaks k 0 Hkl)).
    destruct (Nat.ltb_spec (nth k peaks 0 - nth j peaks 0) 1); [lia|done].
Qed.

(** The distance step of [find_peaks] with a distance of one sample keeps
    every peak. *)
Lemma select_by_peak_distance_one (peaks : list nat) (priority : list Q) :
  separated 2 peaks → length priority = length peaks →
  select_by_peak_distance peaks priority 1 = repeat true (length peaks).
Proof.
  intros Hsep Hlen. unfold select_by_peak_distance.
  assert (Hall : Forall (fun j => j < length peaks) (rev (argsort priority))).
  { apply Forall_forall. intros j Hj. apply list_elem_of_In, in_rev in Hj.
    rewrite <- Hlen. by apply argsort_in_range, list_elem_of_In. }
  induction Hall as [|j js Hj Hjs IH]; cbn [fold_left]; [done|].
  rewrite nth_repeat_lt by done.
  rewrite clear_neighbours_one by (done || apply repeat_length). exact IH.
Qed.

Lemma mask_all {A : Type} (l : list A) : mask l (repeat true (length l)) = l.
Proof. induction l as [|a l IH]; [done|]. cbn. by rewrite IH. Qed.

(** [find_peaks] with a distance of one sample: the peaks are the local
    maxima that pass the height test and the prominence test, all of
    them. *)
Lemma find_peaks_distance_one `{Floats} (x : list Q) (height prominence : Q)
    (r : peaks_result) (p : nat) :
  find_peaks x height prominence 1 = Returned r →
  p ∈ peaks r
  ↔ p ∈ map midpoint (local_maxima_1d x)
    ∧ (height <= at_ x p)%Q
    ∧ (prominence <= prominence_of (peak_prominence x p))%Q.
Proof.
  unfold find_peaks. change (Z.ltb 1 1) with false. cbv beta iota.
  intros [= <-]. cbn [peaks]. change (Z.to_nat 1) with 1.
  destruct (local_maxima_1d_spec x) as [_ Hsep].
  rewrite select_by_peak_distance_one.
  - rewrite mask_all, !list_elem_of_filter. unfold select_by_property.
    rewrite !Qle_bool_iff. tauto.
  - eapply separated_sublist; [apply sublist_filter|exact Hsep].
  - apply length_map.
Qed.

End ScipyFacts.

(** ** [BearingPartitioner.run] *)

Module BearingFacts.

Import Networkx Numpy Bearing.

Lemma set_edge_attr_other (e e' : Edge) (a a' : string) (v : value) (data : EdgeData) :
  a ≠ a' → edge_attr (set_edge_attr e a v data) e' a' = edge_attr data e' a'.
Proof.
  intros Hne. unfold edge_attr, set_edge_attr, EdgeData in *.
  destruct (decide (e = e')) as [->|Hee].
  - rewrite lookup_insert_eq. simpl. rewrite lookup_insert_ne by done.
    destruct (data !! e'); [done|]. simpl. apply lookup_empty.
  - by rewrite lookup_insert_ne.
Qed.

(** The derived attribute is the only one written. *)
Lemma new_edge_attribute_frame (es : list Edge) (f : value → result value)
    (src dst : string) (data data' : EdgeData) (e : Edge) (a : string) :
  new_edge_attribute_by_function es f src dst data = Returned data' →
  a ≠ dst → edge_attr data' e a = edge_attr data e a.
Proof.
  revert data. induction es as [|e0 es IH]; intros data; cbn [new_edge_attribute_by_function].
  - by intros [= <-].
  - destruct (match edge_attr data e0 src with Some v => f v | None => Returned PNone end)
      as [v|err]; cbn [Py.bind]; [|done].
    intros Hrest Hne. rewrite (IH _ Hrest Hne). by apply set_edge_attr_other.
Qed.

(** What a method leaves alone: the partition, its label, the graph and
    the attribute [bearing_group] of every edge. *)
Definition same_labels (s s' : BearingPartitioner) : Prop :=
  attribute_label s' = attribute_label s
  ∧ partition s' = partition s
  ∧ graph s' = graph s
  ∧ ∀ e, edge_attr (edge_data s') e "bearing_group"
         = edge_attr (edge_data s) e "bearing_group".

Lemma same_labels_refl (s : BearingPartitioner) : same_labels s s.
Proof. by repeat split. Qed.

Lemma same_labels_trans (s1 s2 s3 : BearingPartitioner) :
  same_labels s1 s2 → same_labels s2 s3 → same_labels s1 s3.
Proof.
  intros (?&?&?&H12) (?&?&?&H23).
  split; [congruence|]. split; [congruence|]. split; [congruence|].
  intros e. by rewrite H23, H12.
Qed.

Lemma bin_bearings_same_labels (num_bins : Z) (s s' : BearingPartitioner)
    (r : result unit) :
  __bin_bearings num_bins s = (r, s') → same_labels s s'.
Proof.
  unfold __bin_bearings, mbind_method, get, put, lift, raise.
  destruct (num_bins <? 360); [intros [= <- <-]; apply same_labels_refl|].
  destruct (new_edge_attribute_by_function _ _ _ _ _) as [data|err] eqn:Hdata.
  - destruct (as_float_array _) as [a|err]; intros [= <- <-];
      (repeat split; [done..|]); intros e; cbn;
      by rewrite (new_edge_attribute_frame _ _ _ _ _ _ e "bearing_group" Hdata).
  - intros [= <- <-]. by repeat split.
Qed.

Lemma find_peaks_same_labels `{Floats} (s s' : BearingPartitioner) (r : result unit) :
  __find_peaks s = (r, s') → same_labels s s'.
Proof.
  unfold __find_peaks, mbind_method, get, put, lift, raise.
  repeat case_match; intros [= <- <-]; by repeat split.
Qed.

(** The first two steps of [run]: binning and peak finding. *)
Definition peak_detection `{Floats} : method BearingPartitioner unit :=
  _ <~ __bin_bearings 360 ;; __find_peaks.

Definition peaks_found (s : BearingPartitioner) : option (list nat) :=
  info ← _bin_info s; peak_ind info.

(** A call that returned, with the state it left. *)
Lemma returned_with_state {S : Type} (m : method S unit) (s : S) :
  (m s).1 = Returned tt → m s = (Returned tt, (m s).2).
Proof. destruct (m s) as [r s']. simpl. by intros ->. Qed.

(** C4: when peak detection finds no peak, [run] on a new partitioner
    raises the ArithmeticError; afterwards the partitioner's
    [attribute_label] and [partition] are still [None], and no edge has
    got a [bearing_group] it did not have (the only attribute written is
    [bearing_90]). *)
Theorem run_without_peaks_labels_nothing `{Floats}
    (graph : Graph) (edge_data : EdgeData) (name : string)
    (s1 : BearingPartitioner) :
  peak_detection (__init__ graph edge_data name) = (Returned tt, s1) →
  peaks_found s1 = Some [] →
  run (__init__ graph edge_data name)
  = (Raised (ArithmeticError "No peaks were found."), s1)
  ∧ attribute_label s1 = None
  ∧ partition s1 = None
  ∧ ∀ e, edge_attr (Bearing.edge_data s1) e "bearing_group"
         = edge_attr edge_data e "bearing_group".
Proof.
  intros Hdetect Hnone.
  assert (Hsame : same_labels (__init__ graph edge_data name) s1).
  { unfold peak_detection, mbind_method in Hdetect.
    destruct (__bin_bearings 360 _) as [[[]|err] sa] eqn:Hbin; [|done].
    eapply same_labels_trans;
      [eapply bin_bearings_same_labels | eapply find_peaks_same_labels]; eauto. }
  destruct Hsame as (Hlabel & Hpart & _ & Hgroup).
  split; [|by repeat split].
  unfold peak_detection, mbind_method in Hdetect. unfold run, mbind_method.
  destruct (__bin_bearings 360 _) as [[[]|err] sa]; [|done].
  rewrite Hdetect. unfold get.
  unfold peaks_found in Hnone.
  destruct (_bin_info s1) as [info|]; [|done]. simpl in Hnone.
  destruct info. simpl in Hnone. subst. reflexivity.
Qed.

(** *** The histogram [run] makes *)

Lemma histogram_length (a : list pyfloat) (bins : list Q) :
  length (histogram a bins) = (length bins - 1)%nat.
Proof.
  induction bins as [|lo bins IH]; [done|]. cbn [histogram].
  destruct bins as [|hi rest]; [done|]. cbn [length] in *. rewrite IH. lia.
Qed.

Lemma roll1_length {A : Type} (l : list A) : length (roll1 l) = length l.
Proof.
  unfold roll1. rewrite <- (length_rev l). destruct (rev l) as [|x l']; [done|].
  cbn [length]. by rewrite length_rev.
Qed.

Lemma evens_length {A : Type} (l : list A) :
  length (evens l) = Nat.div2 (S (length l))
  ∧ length (evens (tl l)) = Nat.div2 (length l).
Proof.
  induction l as [|a l [IH1 IH2]]; [done|]. split.
  - cbn [evens length]. destruct l as [|b l]; [done|].
    cbn [tl] in IH2. rewrite IH2. done.
  - cbn [tl]. rewrite IH1. done.
Qed.

(** The edges of the 360 merged bins: every quarter of a degree. *)
Definition quarter_degrees : list Q :=
  map (fun k => (inject_Z (Z.of_nat (2 * k)) * 90 / inject_Z (360 * 2))%Q)
      (seq 0 361).

Lemma bin_edges_360 :
  evens (map (fun i => (inject_Z i * 90 / inject_Z (360 * 2))%Q)
             (arange (360 * 2 + 1)))
  = quarter_degrees.
Proof. vm_compute. reflexivity. Qed.

Lemma quarter_degrees_apart (p q : nat) :
  (p + 2 ≤ q)%nat → (q ≤ 360)%nat →
  (4 # 10 <= nth q quarter_degrees 0 - nth p quarter_degrees 0)%Q.
Proof.
  intros Hpq Hq. unfold quarter_degrees.
  set (g := fun k : nat => (inject_Z (Z.of_nat (2 * k)) * 90 / inject_Z (360 * 2))%Q).
  assert (Hnth : ∀ k, (k ≤ 360)%nat → nth k (map g (seq 0 361)) 0%Q = g k).
  { intros k Hk.
    rewrite (nth_indep _ 0%Q (g 0%nat)) by (rewrite length_map, length_seq; lia).
    rewrite map_nth. by rewrite seq_nth by lia. }
  rewrite !Hnth by lia. unfold g, Qle, Qminus, Qplus, Qopp, Qdiv, Qmult, Qinv.
  simpl. lia.
Qed.

(** The distance asked of [find_peaks] is one sample, a quarter of a
    degree: the separation of the peaks comes from their being local
    maxima, two samples apart or more. *)
Lemma peak_distance_360 : peak_distance 360 = 1.
Proof. reflexivity. Qed.

(** What the peak detection of [run] leaves in [_bin_info]. *)
Lemma peak_detection_info `{Floats} (s s1 : BearingPartitioner) :
  peak_detection s = (Returned tt, s1) →
  ∃ bf r,
    _bin_info s1
    = Some {| num_bins := 360; bin_edges := Some quarter_degrees;
              bin_frequency := Some bf;
              mean := Some (np_mean bf); medi := Some (np_median bf);
              std := Some (np_std bf); min := Some (np_min bf);
              max := Some (np_max bf);
              peak_ind := Some (Scipy.peaks r); peak_props := Some r |}
    ∧ length bf = 360%nat
    ∧ Scipy.find_peaks bf (np_mean bf) (np_std bf) 1 = Returned r.
Proof.
  unfold peak_detection, mbind_method, __bin_bearings, __find_peaks,
    get, put, lift, raise, mbind_method.
  change (360 <? 360) with false. cbv beta iota.
  destruct (new_edge_attribute_by_function _ _ _ _ _) as [data|err]; [|done].
  destruct (as_float_array _) as [a|err]; [|done].
  cbn [_bin_info set_bin_info set_edge_data].
  rewrite bin_edges_360, peak_distance_360.
  set (bf := map _ (zip_with Z.add _ _)).
  destruct (Scipy.find_peaks bf _ _ 1) as [r|err] eqn:Hpeaks; [|done].
  intros [= <-]. exists bf, r. split; [done|]. split; [|done].
  unfold bf. rewrite length_map, length_zip_with.
  destruct (evens_length (roll1 (histogram a
              (map (fun i => (inject_Z i * 90 / inject_Z (360 * 2))%Q)
                   (arange (360 * 2 + 1)))))) as [-> Hodd].
  unfold odds. rewrite Hodd, roll1_length, histogram_length, length_map.
  unfold arange. rewrite length_seqZ. reflexivity.
Qed.

Definition frequencies (s : BearingPartitioner) : option (list Q) :=
  info ← _bin_info s; bin_frequency info.

Definition edges_of_bins (s : BearingPartitioner) : option (list Q) :=
  info ← _bin_info s; bin_edges info.

(** C7: the peaks [run] selects in the merged histogram are the local
    maxima (the middles of the plateaus: flat runs of bins with a lower
    bin on each side) that are at least as high as the mean of the bin
    frequencies and at least as prominent as their standard deviation:
    these, all of them and no others.  The distance asked of [find_peaks] is
    [int(0.4 * 360 / 90)], one bin, a quarter of a degree; it removes no
    peak.  Any two of the selected peaks are at least 0.4 degrees apart
    all the same (half a degree: two bins), since a local maximum has a
    lower bin on each side. *)
Theorem selected_peaks `{Floats} (s s1 : BearingPartitioner) :
  peak_detection s = (Returned tt, s1) →
  ∃ bin_frequency bin_edges peak_ind,
    frequencies s1 = Some bin_frequency
    ∧ edges_of_bins s1 = Some bin_edges
    ∧ peaks_found s1 = Some peak_ind
    ∧ (∀ p, p ∈ peak_ind
            ↔ (∃ l r, ScipyFacts.plateau bin_frequency l r ∧ p = ((l + r) / 2)%nat)
              ∧ (np_mean bin_frequency <= Scipy.at_ bin_frequency p)%Q
              ∧ (np_std bin_frequency
                 <= Scipy.prominence_of
                      (Scipy.peak_prominence bin_frequency p))%Q)
    ∧ (inject_Z (peak_distance 360) * (nth 1 bin_edges 0 - nth 0 bin_edges 0)
       == 1 # 4)%Q
    ∧ ∀ i j p q, (i < j)%nat → peak_ind !! i = Some p → peak_ind !! j = Some q →
                 (4 # 10 <= nth q bin_edges 0 - nth p bin_edges 0)%Q.
Proof.
  intros Hdetect.
  destruct (peak_detection_info s s1 Hdetect) as (bf & r & Hinfo & Hlen & Hpeaks).
  destruct (ScipyFacts.find_peaks_spec _ _ _ _ _ Hpeaks)
    as (_ & _ & Hbound & Hsep & _).
  exists bf, quarter_degrees, (Scipy.peaks r).
  unfold frequencies, edges_of_bins, peaks_found. rewrite Hinfo. simpl.
  split; [done|]. split; [done|]. split; [done|]. split; [|split].
  - intros p. rewrite <- ScipyFacts.midpoints_of_plateaus.
    by apply ScipyFacts.find_peaks_distance_one.
  - reflexivity.
  - intros i j p q Hij Hp Hq.
    apply quarter_degrees_apart.
    + eapply ScipyFacts.separated_lookup; eauto.
    + rewrite Forall_forall in Hbound.
      assert (q < length bf - 1)%nat; [|lia].
      apply Hbound. eapply list_elem_of_lookup_2; eauto.
Qed.

(** Four edges that point north, east, south and west: the bearings are
    all 0 modulo 90, so one bin of the histogram holds everything; it is
    the first bin, which cannot be a peak. *)
Definition four_edges : list Edge := [(1, 2, 0); (2, 3, 0); (3, 4, 0); (4, 1, 0)].

Definition four_graph : Graph := {| nodes := [1; 2; 3; 4]; edges := four_edges |}.

Definition four_data : EdgeData :=
  list_to_map
    (zip_with (fun e b => (e, {[ "bearing" := PFloat (Fin b) ]}))
       four_edges [0; 90; 180; 270]%Q).

(** The floats of the examples: exact differences and means, and for
    the square root the integer root of the scaled
    number. *)
Definition approximate_sqrt : Floats :=
  {| float_minus := Qminus;
     np_mean := fun x => Qred (np_sum x / inject_Z (Z.of_nat (length x)));
     np_sqrt := fun q => (Z.sqrt (Qnum q * Z.pos (Qden q) * 10 ^ 12)
                          # (Qden q * 10 ^ 6)%positive)%Q |}.

Lemma run_without_peaks_labels_nothing_witness :
  let s0 := __init__ four_graph four_data "four" in
  let s1 := (@peak_detection approximate_sqrt s0).2 in
  peaks_found s1 = Some []
  ∧ @run approximate_sqrt s0 = (Raised (ArithmeticError "No peaks were found."), s1)
  ∧ attribute_label s1 = None
  ∧ partition s1 = None
  ∧ ∀ e, edge_attr (Bearing.edge_data s1) e "bearing_group"
         = edge_attr four_data e "bearing_group".
Proof.
  intros s0 s1. split; [vm_compute; reflexivity|].
  apply (@run_without_peaks_labels_nothing approximate_sqrt four_graph four_data
           "four").
  - apply returned_with_state. vm_compute. reflexivity.
  - vm_compute. reflexivity.
Defined.

(** A street network with three directions and some scatter. *)
Definition town_bearings : list Q :=
  [10; 10; 10; 100; 10.2; 9.8; 190; 45; 45; 45; 45.3; 44.6; 135; 10.1;
   70; 70; 70.2; 69.9; 71; 225; 250; 280.1]%Q.

Definition town_edges : list Edge :=
  imap (fun i _ => (Z.of_nat i, Z.of_nat (S i), 0)) town_bearings.

Definition town_graph : Graph :=
  {| nodes := map Z.of_nat (seq 0 (S (length town_bearings)));
     edges := town_edges |}.

Definition town_data : EdgeData :=
  list_to_map
    (zip_with (fun e b => (e, {[ "bearing" := PFloat (Fin b) ]}))
       town_edges town_bearings).

Lemma selected_peaks_witness :
  let s0 := __init__ town_graph town_data "town" in
  let s1 := (@peak_detection approximate_sqrt s0).2 in
  peaks_found s1 = Some [40; 178; 180; 280; 284]%nat
  ∧ ∃ bin_frequency bin_edges peak_ind,
      frequencies s1 = Some bin_frequency
      ∧ edges_of_bins s1 = Some bin_edges
      ∧ peaks_found s1 = Some peak_ind
      ∧ (∀ p, p ∈ peak_ind
              ↔ (∃ l r, ScipyFacts.plateau bin_frequency l r
                        ∧ p = ((l + r) / 2)%nat)
                ∧ (@np_mean approximate_sqrt bin_frequency
                   <= Scipy.at_ bin_frequency p)%Q
                ∧ (@np_std approximate_sqrt bin_frequency
                   <= Scipy.prominence_of
                        (@Scipy.peak_prominence approximate_sqrt bin_frequency p))%Q)
      ∧ (inject_Z (peak_distance 360) * (nth 1 bin_edges 0 - nth 0 bin_edges 0)
         == 1 # 4)%Q
      ∧ ∀ i j p q, (i < j)%nat → peak_ind !! i = Some p → peak_ind !! j = Some q →
                   (4 # 10 <= nth q bin_edges 0 - nth p bin_edges 0)%Q.
Proof.
  intros s0 s1. split; [vm_compute; reflexivity|].
  apply (@selected_peaks approximate_sqrt s0 s1), returned_with_state.
  vm_compute. reflexivity.
Defined.

(** With these bearings [run] goes through: it sets the label, makes
    five partitions and gives every edge its group. *)
Example run_on_town :
  (let after := @run approximate_sqrt (__init__ town_graph town_data "town") in
   (after.1, attribute_label after.2, length <$> partition after.2,
    forallb (fun e => bool_decide
                        (is_Some (edge_attr (Bearing.edge_data after.2) e "bearing_group")))
            town_edges))
  = (Returned tt, Some "bearing_group", Some 5%nat, true).
Proof. vm_compute. reflexivity. Qed.

End BearingFacts.


(** ** The validity checks *)

Module ChecksFacts.

Import Networkx Checks.

(** *** The seven checks, as the specification words them *)

(** 1. The sparsified graph is weakly connected. *)
Definition sparsified_connected (p : Partitioning) : Prop :=
  is_weakly_connected (sparsified p) = Returned true.

Definition sparsified_disconnected (p : Partitioning) : Prop :=
  is_weakly_connected (sparsified p) = Returned false.

(** 2. The subgraph of each component is weakly connected. *)
Definition components_connected (p : Partitioning) : Prop :=
  ∃ cs, parts p = Returned cs
        ∧ Forall (fun c => is_weakly_connected (subgraph c) = Returned true) cs.

Definition some_component_disconnected (p : Partitioning) : Prop :=
  ∃ cs, parts p = Returned cs
        ∧ Forall (fun c => ∃ b, is_weakly_connected (subgraph c) = Returned b) cs
        ∧ Exists (fun c => is_weakly_connected (subgraph c) = Returned false) cs.

(** No two of the lists share an element. *)
Definition pairwise_disjoint {A : Type} (lists : list (list A)) : Prop :=
  ∀ i j li lj a, i ≠ j → lists !! i = Some li → lists !! j = Some lj →
                 a ∈ li → a ∉ lj.

(** 3. No two components' node sets overlap. *)
Definition node_sets_disjoint (p : Partitioning) : Prop :=
  pairwise_disjoint (map pn_nodes (get_partition_nodes p)).

(** 4. Every node of the graph is in a component's node set or in the
    sparsified graph. *)
Definition no_orphan_nodes (p : Partitioning) : Prop :=
  ∀ n, n ∈ nodes (graph p) →
       (∃ part, part ∈ get_partition_nodes p ∧ n ∈ pn_nodes part)
       ∨ n ∈ nodes (sparsified p).

(** 5. No two edge sets among the components and the sparsified graph
    overlap. *)
Definition edge_sets_disjoint (p : Partitioning) : Prop :=
  pairwise_disjoint
    (map (fun part => edges (pn_subgraph part)) (get_partition_nodes p)
     ++ [edges (sparsified p)]).

(** 6. Every edge of the graph is in a component's edge set or in the
    sparsified graph. *)
Definition no_orphan_edges (p : Partitioning) : Prop :=
  ∀ e, e ∈ edges (graph p) →
       (∃ part, part ∈ get_partition_nodes p ∧ e ∈ edges (pn_subgraph part))
       ∨ e ∈ edges (sparsified p).

(** 7. Each component shares a node with the sparsified graph. *)
Definition touches_sparsified (p : Partitioning) (c : Component) : Prop :=
  ∃ n, n ∈ nodes (graph p) ∧ n ∈ nodes (subgraph c) ∧ n ∈ nodes (sparsified p).

Definition components_touch_sparsified (p : Partitioning) : Prop :=
  ∃ cs, parts p = Returned cs ∧ Forall (touches_sparsified p) cs.

Definition some_component_apart (p : Partitioning) : Prop :=
  ∃ cs, parts p = Returned cs ∧ ¬ Forall (touches_sparsified p) cs.

(** The list the loops over the components go over:
    [partitioning.components] when it has an entry, and
    [partitioning.partitions] when it is [None] or empty. *)
Definition iterated (p : Partitioning) (cs : list Component) : Prop :=
  (components p = Some cs ∧ cs ≠ [])
  ∨ ((components p = None ∨ components p = Some []) ∧ partitions p = Some cs).

Lemma parts_iterated (p : Partitioning) (cs : list Component) :
  parts p = Returned cs ↔ iterated p cs.
Proof.
  unfold parts, iterated. destruct (components p) as [[|c cs']|].
  - destruct (partitions p) as [ps|]; split.
    + intros [= ->]. right. split; [by right|done].
    + intros [[[= <-] Hne]|[_ [= ->]]]; done.
    + done.
    + intros [[[= <-] Hne]|[_ [=]]]; done.
  - split.
    + intros [= <-]. by left.
    + intros [[[= <-] _]|[[?|?] _]]; done.
  - destruct (partitions p) as [ps|]; split.
    + intros [= ->]. right. split; [by left|done].
    + intros [[[=] _]|[_ [= ->]]]; done.
    + done.
    + intros [[[=] _]|[_ [=]]]; done.
Qed.

(** A call that does not return. *)
Definition raises {A : Type} (r : result A) : Prop := ∃ err, r = Raised err.

(** *** What a run leaves in the log *)

(** [is_valid_partitioning] writes a debug record before each of its
    four stages. *)
Definition stage_1 : string := "Checking if the sparsified graph of %s is connected.".
Definition stage_2 : string := "Checking if each subgraph of %s is connected.".
Definition stage_3 : string :=
  "Checking if each node and edge of %s is contained in exactly one subgraph and not the sparsified graph.".
Definition stage_4 : string :=
  "Checking if each subgraph of %s is connected to the sparsified graph.".

Definition is_stage (msg : string) : bool :=
  String.eqb msg stage_1 || String.eqb msg stage_2
  || String.eqb msg stage_3 || String.eqb msg stage_4.

(** The stages a trace has a record of. *)
Definition stages (t : list event) : list string :=
  omap (fun ev => match ev with
                  | LogDebug msg => if is_stage msg then Some msg else None
                  | _ => None
                  end) t.

Definition valid_result (p : Partitioning) : result bool :=
  (is_valid_partitioning p []).1.

Definition stages_run (p : Partitioning) : list string :=
  stages (is_valid_partitioning p []).2.

(** The error records of a trace, by their subjects. *)
Definition reports (t : list event) : list (list string) :=
  omap (fun ev => match ev with LogError _ subjects => Some subjects | _ => None end) t.

Definition reports_run (p : Partitioning) : list (list string) :=
  reports (is_valid_partitioning p []).2.

(** The events that are neither an error record nor the record of a
    stage: attribute writes, plots and the debug records of the plot. *)
Definition silent (ev : event) : bool :=
  match ev with
  | LogError _ _ => false
  | LogDebug msg => negb (is_stage msg)
  | _ => true
  end.

Lemma stages_app (t1 t2 : list event) : stages (t1 ++ t2) = stages t1 ++ stages t2.
Proof. apply omap_app. Qed.

Lemma reports_app (t1 t2 : list event) : reports (t1 ++ t2) = reports t1 ++ reports t2.
Proof. apply omap_app. Qed.

Lemma stages_silent (evs : list event) : forallb silent evs = true → stages evs = [].
Proof.
  induction evs as [|ev evs IH]; [done|]. cbn [forallb].
  intros [Hev Hevs]%andb_true_iff. unfold stages in *. cbn [omap list_omap].
  destruct ev as [msg| | | | | |]; cbn [silent] in Hev; try done; try by apply IH.
  apply negb_true_iff in Hev. rewrite Hev. by apply IH.
Qed.

Lemma reports_silent (evs : list event) : forallb silent evs = true → reports evs = [].
Proof.
  induction evs as [|ev evs IH]; [done|]. cbn [forallb].
  intros [Hev Hevs]%andb_true_iff. destruct ev; try done; by apply IH.
Qed.

Lemma emit_all_spec (evs : list event) (t : list event) :
  emit_all evs t = (Returned tt, t ++ evs).
Proof.
  revert t. induction evs as [|ev evs IH]; intros t; cbn [emit_all].
  - unfold ret. by rewrite app_nil_r.
  - unfold mbind_method, emit. rewrite IH. by rewrite <- app_assoc.
Qed.

(** *** The stages without their log *)

(** What the marking of the edges returns and writes: the edges up to
    the first one that is no edge of the graph. *)
Definition in_graph (p : Partitioning) (es : list Edge) : bool :=
  forallb (fun e => bool_decide (e ∈ edges (graph p))) es.

Lemma set_highlight_result (p : Partitioning) (v : value) (es : list Edge)
    (t : list event) :
  (set_highlight p v es t).1
  = if in_graph p es then Returned tt else Raised (KeyError "edge").
Proof.
  revert t. induction es as [|e es IH]; intros t; cbn [set_highlight in_graph forallb];
    [done|].
  destruct (bool_decide (e ∈ edges (graph p))); [|done].
  unfold mbind_method, emit. cbv beta iota. apply IH.
Qed.

Lemma set_highlight_trace (p : Partitioning) (v : value) (es : list Edge)
    (t : list event) :
  ∃ evs, (set_highlight p v es t).2 = t ++ evs ∧ forallb silent evs = true.
Proof.
  revert t. induction es as [|e es IH]; intros t; cbn [set_highlight].
  - exists []. by rewrite app_nil_r.
  - destruct (bool_decide (e ∈ edges (graph p)));
      [|exists []; by rewrite app_nil_r].
    unfold mbind_method, emit. cbv beta iota.
    destruct (IH (t ++ [SetEdgeAttribute e "highlight" v])) as (evs & -> & Hevs).
    exists (SetEdgeAttribute e "highlight" v :: evs). by rewrite <- app_assoc.
Qed.

Lemma set_highlight_returns (p : Partitioning) (v : value) (es : list Edge)
    (t : list event) :
  in_graph p es = true →
  set_highlight p v es t
  = (Returned tt, t ++ map (fun e => SetEdgeAttribute e "highlight" v) es).
Proof.
  revert t. induction es as [|e es IH]; intros t; cbn [set_highlight in_graph forallb map].
  - by rewrite app_nil_r.
  - intros [-> Hes]%andb_true_iff. unfold mbind_method, emit. cbv beta iota.
    rewrite IH by done. by rewrite <- app_assoc.
Qed.

(** The exception a component that is not connected ends in. *)
Definition plot_error (p : Partitioning) (c : Component) : exception :=
  if in_graph p (edges (subgraph c))
  then TypeError "plot_graph() got an unexpected keyword argument 'attr_types'"
  else KeyError "edge".

(** The result of the loop over the components: it returns when every
    component is connected, and it raises at the first that is not. *)
Fixpoint connected_result (p : Partitioning) (cs : list Component) : result bool :=
  match cs with
  | [] => Returned true
  | c :: cs' =>
      b <- is_weakly_connected (subgraph c) ;;
      if b : bool then connected_result p cs' else Raised (plot_error p c)
  end.

(** One turn of the loop at a component that is not connected. *)
Lemma components_loop_stop (p : Partitioning) (c : Component) (cs : list Component)
    (found : bool) (t : list event) :
  is_weakly_connected (subgraph c) = Returned false →
  ∃ evs,
    components_are_connected_loop p (c :: cs) found t
    = (Raised (plot_error p c),
       t ++ LogError "The subgraph %s of %s is not connected." [comp_name c; name p]
            :: evs)
    ∧ forallb silent evs = true.
Proof.
  intros Hc. cbn [components_are_connected_loop].
  unfold mbind_method at 1, lift. rewrite Hc. cbn [negb].
  unfold mbind_method at 1, emit at 1. cbv beta iota.
  unfold mbind_method at 1.
  pose proof (set_highlight_result p (PInt 1) (edges (subgraph c))
                (t ++ [LogError "The subgraph %s of %s is not connected."
                         [comp_name c; name p]])) as Hres.
  destruct (set_highlight_trace p (PInt 1) (edges (subgraph c))
              (t ++ [LogError "The subgraph %s of %s is not connected."
                       [comp_name c; name p]])) as (evs & Htrace & Hevs).
  destruct (set_highlight p (PInt 1) (edges (subgraph c)) _) as [r t1].
  cbn [fst snd] in Hres, Htrace. subst r t1. unfold plot_error.
  destruct (in_graph p (edges (subgraph c))).
  - unfold plot_highlight, mbind_method, emit, raise. cbv beta iota.
    exists (evs ++ [PlotByAttribute "highlight";
                    LogDebug "Given minmax_val for attribute %s: %s";
                    LogDebug "Unique colors in the colormap %s: %s"]).
    rewrite <- !app_assoc. split; [done|]. by rewrite forallb_app, Hevs.
  - exists evs. by rewrite <- app_assoc.
Qed.

Lemma components_loop_spec (p : Partitioning) (cs : list Component) (found : bool)
    (t : list event) :
  (components_are_connected_loop p cs found t).1
  = (r <- connected_result p cs ;; Returned (found && r))
  ∧ stages (components_are_connected_loop p cs found t).2 = stages t.
Proof.
  revert found t. induction cs as [|c cs IH]; intros found t.
  { cbn. by rewrite andb_true_r. }
  destruct (is_weakly_connected (subgraph c)) as [[]|err] eqn:Hc.
  - cbn [components_are_connected_loop connected_result].
    unfold mbind_method at 1 2, lift. rewrite Hc. cbn [negb Py.bind]. apply IH.
  - destruct (components_loop_stop p c cs found t Hc) as (evs & -> & Hevs).
    cbn [connected_result fst snd]. rewrite Hc. cbn [Py.bind]. split; [done|].
    change (t ++ ?e :: evs) with (t ++ [e] ++ evs).
    rewrite !stages_app, (stages_silent evs Hevs). cbn. by rewrite app_nil_r.
  - cbn [components_are_connected_loop connected_result].
    unfold mbind_method, lift. by rewrite Hc.
Qed.

(** The trace of the loop when a component is not connected: the error
    for that component, and after it attribute writes and the plot. *)
Lemma components_loop_trace (p : Partitioning) (before after : list Component)
    (c : Component) (found : bool) (t : list event) :
  Forall (fun c' => is_weakly_connected (subgraph c') = Returned true) before →
  is_weakly_connected (subgraph c) = Returned false →
  ∃ evs,
    components_are_connected_loop p (before ++ c :: after) found t
    = (Raised (plot_error p c),
       t ++ LogError "The subgraph %s of %s is not connected." [comp_name c; name p]
            :: evs)
    ∧ forallb silent evs = true.
Proof.
  intros Hbefore Hc.
  induction Hbefore as [|b before Hb Hbefore IH]; cbn [app].
  - by apply components_loop_stop.
  - cbn [components_are_connected_loop]. unfold mbind_method at 1, lift.
    rewrite Hb. cbn [negb]. exact IH.
Qed.

(** The four containment tests in one boolean. *)
Definition contained_result (p : Partitioning) : bool :=
  negb (any (nodes_overlap p))
  && negb (Nat.ltb 0 (length (missing_nodes p)))
  && negb (any (edges_overlap p))
  && negb (Nat.ltb 0 (length (missing_edges p))).

Lemma contained_spec (p : Partitioning) (t : list event) :
  (nodes_and_edges_are_contained_in_exactly_one_subgraph p t).1
  = Returned (contained_result p)
  ∧ stages (nodes_and_edges_are_contained_in_exactly_one_subgraph p t).2 = stages t.
Proof.
  unfold nodes_and_edges_are_contained_in_exactly_one_subgraph, contained_result,
    mbind_method, emit, ret.
  destruct (any (nodes_overlap p)); cbn [negb andb].
  { cbv beta iota. cbn [fst snd]. split; [done|].
    rewrite stages_app. simpl. by rewrite app_nil_r. }
  destruct (Nat.ltb 0 (length (missing_nodes p))); cbn [negb andb].
  { cbv beta iota. rewrite emit_all_spec. cbv beta iota. cbn [fst snd].
    split; [done|]. rewrite !stages_app. simpl.
    assert (Hnone : ∀ f, stages (map (fun n => SetNodeAttribute n "missing_nodes" (f n))
                                     (nodes (graph p))) = []).
    { intros f. induction (nodes (graph p)); [done|]. assumption. }
    rewrite Hnone. by rewrite !app_nil_r. }
  destruct (any (edges_overlap p)); cbn [negb andb].
  { cbv beta iota. cbn [fst snd]. split; [done|].
    rewrite stages_app. simpl. by rewrite app_nil_r. }
  destruct (Nat.ltb 0 (length (missing_edges p))); cbn [negb andb].
  { cbv beta iota. cbn [fst snd]. split; [done|].
    rewrite stages_app. simpl. by rewrite app_nil_r. }
  done.
Qed.

Definition touches (p : Partitioning) (c : Component) : bool :=
  existsb (fun node => bool_decide (node ∈ nodes (subgraph c))
                       && bool_decide (node ∈ nodes (sparsified p)))
          (nodes (graph p)).

Lemma touch_loop_spec (p : Partitioning) (cs : list Component) (t : list event) :
  (components_are_connect_sparsified_loop p cs t).1 = Returned (forallb (touches p) cs)
  ∧ stages (components_are_connect_sparsified_loop p cs t).2 = stages t.
Proof.
  revert t. induction cs as [|c cs IH]; intros t;
    cbn [components_are_connect_sparsified_loop forallb]; [done|].
  fold (touches p c). destruct (touches p c); cbn [negb andb]; [apply IH|].
  unfold mbind_method, emit, ret. cbv beta iota. cbn [fst snd]. split; [done|].
  rewrite stages_app. simpl. by rewrite app_nil_r.
Qed.

(** The whole run, stage by stage: the result and the stages logged. *)
Definition staged (p : Partitioning) : result bool * list string :=
  match is_weakly_connected (sparsified p) with
  | Raised e => (Raised e, [stage_1])
  | Returned false => (Returned false, [stage_1])
  | Returned true =>
      match (cs <- parts p ;; connected_result p cs) with
      | Raised e => (Raised e, [stage_1; stage_2])
      | Returned false => (Returned false, [stage_1; stage_2])
      | Returned true =>
          if contained_result p then
            match (cs <- parts p ;; Returned (forallb (touches p) cs)) with
            | Raised e => (Raised e, [stage_1; stage_2; stage_3; stage_4])
            | Returned b => (Returned b, [stage_1; stage_2; stage_3; stage_4])
            end
          else (Returned false, [stage_1; stage_2; stage_3])
      end
  end.

Lemma is_valid_partitioning_staged (p : Partitioning) :
  (valid_result p, stages_run p) = staged p.
Proof.
  unfold valid_result, stages_run, staged, is_valid_partitioning,
    components_are_connected, components_are_connect_sparsified,
    mbind_method, emit, lift, ret.
  cbv beta iota. cbn [app].
  destruct (is_weakly_connected (sparsified p)) as [[]|err]; cbn [negb fst snd];
    [|done|done].
  destruct (parts p) as [cs|err]; cbn [Py.bind fst snd]; [|done].
  match goal with
  | |- context [components_are_connected_loop p cs true ?t] =>
      destruct (components_loop_spec p cs true t) as [Hres Hst];
      destruct (components_are_connected_loop p cs true t) as [r2 t2]
  end.
  cbn [fst snd] in Hres, Hst.
  assert (Hr2 : r2 = connected_result p cs).
  { rewrite Hres. by destruct (connected_result p cs) as [[]|]. }
  rewrite <- Hr2.
  destruct r2 as [[]|err]; cbn [negb]; cbv beta iota; cbn [fst snd];
    [|by rewrite Hst|by rewrite Hst].
  match goal with
  | |- context [nodes_and_edges_are_contained_in_exactly_one_subgraph p ?t] =>
      destruct (contained_spec p t) as [Hres3 Hst3];
      destruct (nodes_and_edges_are_contained_in_exactly_one_subgraph p t) as [r3 t3]
  end.
  cbn [fst snd] in Hres3, Hst3. subst r3. rewrite stages_app, Hst in Hst3.
  destruct (contained_result p); cbn [negb]; cbv beta iota; cbn [fst snd];
    [|by rewrite Hst3].
  match goal with
  | |- context [components_are_connect_sparsified_loop p cs ?t] =>
      destruct (touch_loop_spec p cs t) as [Hres4 Hst4];
      destruct (components_are_connect_sparsified_loop p cs t) as [r4 t4]
  end.
  cbn [fst snd] in Hres4, Hst4. subst r4.
  rewrite stages_app, Hst3 in Hst4.
  destruct (forallb (touches p) cs); cbn [negb]; cbv beta iota; cbn [fst snd];
    rewrite ?stages_app, Hst4; done.
Qed.

(** *** The stages decide the seven checks *)

Lemma connected_result_true (p : Partitioning) (cs : list Component) :
  connected_result p cs = Returned true
  ↔ Forall (fun c => is_weakly_connected (subgraph c) = Returned true) cs.
Proof.
  induction cs as [|c cs IH]; cbn [connected_result]; [by split|].
  rewrite Forall_cons.
  destruct (is_weakly_connected (subgraph c)) as [[]|err]; cbn [Py.bind].
  - rewrite IH. tauto.
  - split; [done|]. by intros [[=] _].
  - split; [done|]. by intros [[=] _].
Qed.

(** The loop never answers False. *)
Lemma connected_result_answer (p : Partitioning) (cs : list Component) :
  connected_result p cs = Returned true ∨ raises (connected_result p cs).
Proof.
  induction cs as [|c cs IH]; cbn [connected_result]; [by left|].
  destruct (is_weakly_connected (subgraph c)) as [[]|err]; cbn [Py.bind];
    [done|right; by eexists..].
Qed.

Lemma overlap_disjoint {A : Type} `{EqDecision A} (lists : list (list A)) :
  any (fill_diagonal_false (has_pairwise_overlap lists)) = false
  ↔ pairwise_disjoint lists.
Proof.
  rewrite <- not_true_iff_false, OverlapFacts.pairwise_overlap_any.
  unfold pairwise_disjoint. split.
  - intros Hno i j li lj a Hne Hi Hj Hai Haj. apply Hno.
    by exists i, j, li, lj, a.
  - intros Hdis (i & j & li & lj & a & Hne & Hi & Hj & Hai & Haj).
    by apply (Hdis i j li lj a).
Qed.

Lemma elem_of_some_part {A : Type} (f : PartitionNodes → list A)
    (ps : list PartitionNodes) (a : A) :
  a ∈ concat (map f ps) ↔ ∃ part, part ∈ ps ∧ a ∈ f part.
Proof.
  rewrite list_elem_of_In, in_concat. split.
  - intros (l & Hl & Ha). apply in_map_iff in Hl as (part & <- & Hpart).
    exists part. by rewrite !list_elem_of_In.
  - intros (part & Hpart & Ha). exists (f part).
    rewrite <- !list_elem_of_In. split; [|done].
    apply list_elem_of_fmap. eauto.
Qed.

Lemma no_missing {A : Type} `{EqDecision A} (all inside backbone : list A) :
  Nat.ltb 0 (length (filter (fun a => (a ∉ inside) ∧ (a ∉ backbone))
                            (remove_dups all))) = false
  ↔ ∀ a, a ∈ all → a ∈ inside ∨ a ∈ backbone.
Proof.
  rewrite Nat.ltb_ge, Nat.le_0_r, length_zero_iff_nil. split.
  - intros Hnil a Ha.
    destruct (decide (a ∈ inside)) as [|Hin]; [by left|].
    destruct (decide (a ∈ backbone)) as [|Hb]; [by right|].
    exfalso. eapply (filter_nil_not_elem_of _ _ a Hnil); [done|].
    by apply elem_of_remove_dups.
  - intros Hall.
    destruct (filter _ (remove_dups all)) as [|a rest] eqn:Hfilter; [done|].
    assert (Ha : a ∈ filter (fun a => (a ∉ inside) ∧ (a ∉ backbone))
                            (remove_dups all)) by (rewrite Hfilter; left).
    apply list_elem_of_filter in Ha as [[Hin Hb] Ha].
    rewrite elem_of_remove_dups in Ha. destruct (Hall a Ha); done.
Qed.

Lemma touches_spec (p : Partitioning) (cs : list Component) :
  forallb (touches p) cs = true ↔ Forall (touches_sparsified p) cs.
Proof.
  rewrite forallb_forall, Forall_forall. unfold touches, touches_sparsified.
  split; intros Hall c Hc.
  - apply list_elem_of_In, Hall, existsb_exists in Hc as (n & Hn & Hboth).
    apply andb_true_iff in Hboth as [H1 H2].
    exists n. rewrite list_elem_of_In.
    by rewrite bool_decide_eq_true in H1, H2.
  - apply list_elem_of_In, Hall in Hc as (n & Hn & H1 & H2).
    apply existsb_exists. exists n. rewrite <- list_elem_of_In.
    split; [done|]. by rewrite !bool_decide_eq_true_2.
Qed.

(** The containment stage passes exactly when the four containment
    checks hold. *)
Lemma contained_result_true (p : Partitioning) :
  contained_result p = true
  ↔ node_sets_disjoint p ∧ no_orphan_nodes p
    ∧ edge_sets_disjoint p ∧ no_orphan_edges p.
Proof.
  unfold contained_result. rewrite !andb_true_iff, !negb_true_iff.
  unfold nodes_overlap, edges_overlap, missing_nodes, missing_edges.
  rewrite !overlap_disjoint, !no_missing.
  unfold node_sets_disjoint, edge_sets_disjoint, no_orphan_nodes, no_orphan_edges.
  setoid_rewrite elem_of_some_part. tauto.
Qed.

Lemma staged_result (p : Partitioning) : valid_result p = (staged p).1.
Proof. by rewrite <- is_valid_partitioning_staged. Qed.

Lemma staged_stages (p : Partitioning) : stages_run p = (staged p).2.
Proof. by rewrite <- is_valid_partitioning_staged. Qed.

Lemma parts_connected (p : Partitioning) :
  components_connected p
  ↔ (cs <- parts p ;; connected_result p cs) = Returned true.
Proof.
  unfold components_connected. destruct (parts p) as [cs|err]; cbn [Py.bind].
  - rewrite connected_result_true. split.
    + intros (cs' & [= <-] & Hall). done.
    + intros Hall. eauto.
  - split; [by intros (cs & [=] & _)|done].
Qed.

(** The checker returns True exactly when the seven checks pass. *)
Lemma valid_result_true (p : Partitioning) :
  valid_result p = Returned true
  ↔ sparsified_connected p ∧ components_connected p
    ∧ node_sets_disjoint p ∧ no_orphan_nodes p
    ∧ edge_sets_disjoint p ∧ no_orphan_edges p
    ∧ components_touch_sparsified p.
Proof.
  rewrite staged_result. unfold sparsified_connected, staged.
  rewrite parts_connected. unfold components_touch_sparsified.
  destruct (is_weakly_connected (sparsified p)) as [[]|err];
    [|split; [done|by intros [[=] _]]..].
  destruct (cs <- parts p;; connected_result p cs) as [[]|err] eqn:Hconn;
    [|split; [done|by intros (_ & [=] & _)]..].
  destruct (contained_result p) eqn:Hcont.
  - apply contained_result_true in Hcont.
    destruct (parts p) as [cs|err]; [|done]. cbn [Py.bind fst].
    split.
    + intros [= Htouch]. apply touches_spec in Htouch.
      repeat split; try tauto. eauto.
    + intros (_ & _ & _ & _ & _ & _ & cs' & [= <-] & Htouch).
      apply touches_spec in Htouch. by rewrite Htouch.
  - split; [done|]. intros (_ & _ & H3 & H4 & H5 & H6 & _).
    apply not_true_iff_false in Hcont. exfalso. apply Hcont.
    by apply contained_result_true.
Qed.

(** *** A component that is not connected *)

(** C1: the second of the seven checks does not answer when it fails.
    When the sparsified graph is weakly connected and the subgraph of a
    component is not, the components before it being connected,
    [is_valid_partitioning] does not return False: it raises, at the plot
    of that component.  The error for the component is logged before,
    and no later check is started: the log ends with the second stage. *)
Theorem disconnected_component_raises (p : Partitioning)
    (before after : list Component) (c : Component) :
  sparsified_connected p →
  iterated p (before ++ c :: after) →
  Forall (fun c' => is_weakly_connected (subgraph c') = Returned true) before →
  is_weakly_connected (subgraph c) = Returned false →
  raises (valid_result p)
  ∧ stages_run p = [stage_1; stage_2]
  ∧ reports_run p = [[comp_name c; name p]].
Proof.
  intros Hsparse Hparts%parts_iterated Hbefore Hc.
  assert (Hrun : ∃ evs,
            is_valid_partitioning p []
            = (Raised (plot_error p c),
               [LogDebug stage_1; LogDebug stage_2;
                LogError "The subgraph %s of %s is not connected."
                  [comp_name c; name p]] ++ evs)
            ∧ forallb silent evs = true).
  { unfold is_valid_partitioning, components_are_connected.
    unfold mbind_method at 1, emit at 1. cbv beta iota.
    unfold mbind_method at 1, lift at 1. rewrite Hsparse. cbn [negb].
    unfold mbind_method at 1, emit at 1. cbv beta iota.
    unfold mbind_method at 1 2, lift. rewrite Hparts. cbv beta iota.
    destruct (components_loop_trace p before after c true
                ([] ++ [LogDebug stage_1] ++ [LogDebug stage_2]) Hbefore Hc)
      as (evs & Hloop & Hevs).
    cbn [app] in Hloop |- *. fold stage_1 stage_2. rewrite Hloop.
    by exists evs. }
  destruct Hrun as (evs & Hrun & Hevs).
  unfold valid_result, stages_run, reports_run. rewrite Hrun. cbn [fst snd].
  split; [by eexists|].
  rewrite stages_app, reports_app, (stages_silent evs Hevs), (reports_silent evs Hevs).
  done.
Qed.

(** Two streets of one direction at the two ends of a town: the edges
    1 -> 2 and 3 -> 4 are one component, the edge 2 -> 3 between them is
    the sparsified graph.  The component is not connected. *)
Definition two_streets : Partitioning :=
  {| name := "town";
     graph := {| nodes := [1; 2; 3; 4];
                 edges := [(1, 2, 0); (2, 3, 0); (3, 4, 0)] |};
     sparsified := {| nodes := [2; 3]; edges := [(2, 3, 0)] |};
     components := None;
     partitions :=
       Some [ {| comp_name := "north";
                 subgraph := {| nodes := [1; 2; 3; 4];
                                edges := [(1, 2, 0); (3, 4, 0)] |} |} ];
     get_partition_nodes :=
       [ {| pn_name := "north"; pn_nodes := [1; 4];
            pn_subgraph := {| nodes := [1; 2; 3; 4];
                              edges := [(1, 2, 0); (3, 4, 0)] |} |} ] |}.

Lemma disconnected_component_raises_witness :
  raises (valid_result two_streets)
  ∧ stages_run two_streets = [stage_1; stage_2]
  ∧ reports_run two_streets = [["north"; "town"]].
Proof.
  apply (disconnected_component_raises two_streets [] []
           {| comp_name := "north";
              subgraph := {| nodes := [1; 2; 3; 4];
                             edges := [(1, 2, 0); (3, 4, 0)] |} |}).
  - vm_compute. reflexivity.
  - right. split; [by left|reflexivity].
  - constructor.
  - vm_compute. reflexivity.
Defined.

(** The exception is the TypeError of the plot; the two edges of the
    component keep their mark. *)
Example two_streets_run :
  is_valid_partitioning two_streets []
  = (Raised (TypeError "plot_graph() got an unexpected keyword argument 'attr_types'"),
     [LogDebug stage_1; LogDebug stage_2;
      LogError "The subgraph %s of %s is not connected." ["north"; "town"];
      SetEdgeAttribute (1, 2, 0) "highlight" (PInt 1);
      SetEdgeAttribute (3, 4, 0) "highlight" (PInt 1);
      PlotByAttribute "highlight";
      LogDebug "Given minmax_val for attribute %s: %s";
      LogDebug "Unique colors in the colormap %s: %s"]).
Proof. vm_compute. reflexivity. Qed.

(** *** An edge in two components *)

(** The subgraph with one more edge, and the ends of that edge. *)
Definition add_edge (e : Edge) (G : Graph) : Graph :=
  {| nodes := nodes G
              ++ filter (fun n => n ∉ nodes G) (remove_dups [source e; target e]);
     edges := edges G ++ [e] |}.

Definition with_edge (e : Edge) (c : Component) : Component :=
  {| comp_name := comp_name c; subgraph := add_edge e (subgraph c) |}.

(** The partitioning in which the edge [e] also appears in the component
    at place [j]: its subgraph gets the edge, in the list of components
    and in the list [get_partition_nodes] returns.  The node lists of
    that method are whatever it reports afterwards: [new_nodes] stands
    for them. *)
Definition reassign (e : Edge) (j : nat) (new_nodes : nat → list Node → list Node)
    (p : Partitioning) : Partitioning :=
  {| name := name p;
     graph := graph p;
     sparsified := sparsified p;
     components := alter (with_edge e) j <$> components p;
     partitions := alter (with_edge e) j <$> partitions p;
     get_partition_nodes :=
       imap (fun k part =>
               {| pn_name := pn_name part;
                  pn_nodes := new_nodes k (pn_nodes part);
                  pn_subgraph := if Nat.eqb k j then add_edge e (pn_subgraph part)
                                 else pn_subgraph part |})
            (get_partition_nodes p) |}.

Lemma is_weakly_connected_returns (G : Graph) :
  nodes G ≠ [] → ∃ b, is_weakly_connected G = Returned b.
Proof. unfold is_weakly_connected. destruct (nodes G); [done|eauto]. Qed.

Lemma connected_has_nodes (G : Graph) (b : bool) :
  is_weakly_connected G = Returned b → nodes G ≠ [].
Proof. unfold is_weakly_connected. by destruct (nodes G). Qed.

Lemma parts_reassign (e : Edge) (j : nat) (new_nodes : nat → list Node → list Node)
    (p : Partitioning) :
  parts (reassign e j new_nodes p) = (cs <- parts p ;; Returned (alter (with_edge e) j cs)).
Proof.
  unfold parts, reassign. cbn [components partitions].
  destruct (components p) as [[|c cs]|]; cbn [fmap option_fmap option_map];
    [| destruct j; done |]; by destruct (partitions p).
Qed.

(** C5: take a partitioning the checker accepts and an edge of the
    component at place [i]; let the edge also appear in the component at
    another place [j].  The edge sets then overlap, and the checker does
    not accept the partitioning.  It returns False when every component
    is still connected with the edge added.  When the edge takes the
    connectedness of its new component away, the checker does not return
    False: it raises, at the plot of that component. *)
Theorem reassigned_edge_is_invalid (p : Partitioning) (e : Edge) (i j : nat)
    (new_nodes : nat → list Node → list Node) (part_i part_j : PartitionNodes) :
  valid_result p = Returned true →
  i ≠ j →
  get_partition_nodes p !! i = Some part_i →
  get_partition_nodes p !! j = Some part_j →
  e ∈ edges (pn_subgraph part_i) →
  ¬ edge_sets_disjoint (reassign e j new_nodes p)
  ∧ (components_connected (reassign e j new_nodes p) →
     valid_result (reassign e j new_nodes p) = Returned false)
  ∧ (¬ components_connected (reassign e j new_nodes p) →
     raises (valid_result (reassign e j new_nodes p))).
Proof.
  intros Hvalid Hne Hi Hj He.
  apply valid_result_true in Hvalid as (Hsparse & (cs & Hparts & Hconn) & _).
  assert (Hoverlap : ¬ edge_sets_disjoint (reassign e j new_nodes p)).
  { unfold edge_sets_disjoint, pairwise_disjoint. intros Hdis.
    apply (Hdis i j (edges (pn_subgraph part_i))
             (edges (add_edge e (pn_subgraph part_j))) e Hne); [| |done|].
    - apply lookup_app_l_Some. cbn [get_partition_nodes reassign].
      rewrite list_lookup_fmap, list_lookup_imap, Hi. cbn.
      by rewrite (proj2 (Nat.eqb_neq i j)).
    - apply lookup_app_l_Some. cbn [get_partition_nodes reassign].
      rewrite list_lookup_fmap, list_lookup_imap, Hj. cbn.
      by rewrite Nat.eqb_refl.
    - cbn. apply elem_of_app. right. left. }
  split; [done|].
  rewrite staged_result. unfold staged.
  change (sparsified (reassign e j new_nodes p)) with (sparsified p).
  rewrite Hsparse. split.
  - intros Hstill%parts_connected. rewrite Hstill.
    assert (Hcont : contained_result (reassign e j new_nodes p) = false).
    { apply not_true_iff_false. rewrite contained_result_true. tauto. }
    by rewrite Hcont.
  - intros Hbroken. rewrite parts_connected in Hbroken.
    rewrite parts_reassign, Hparts in Hbroken |- *. cbn [Py.bind] in Hbroken |- *.
    destruct (connected_result_answer (reassign e j new_nodes p)
                (alter (with_edge e) j cs)) as [Htrue|[err Herr]]; [done|].
    rewrite Herr. by exists err.
Qed.

(** *** Two streets and a square *)

(** Four nodes in a row.  The edges 2 -> 3 and 3 -> 2 are the sparsified
    graph; the edge 1 -> 2 is the component ["A"], the edge 3 -> 4 the
    component ["B"].  The nodes 1 and 4 are the nodes inside a
    component. *)
Definition two_ends : Partitioning :=
  {| name := "row";
     graph := {| nodes := [1; 2; 3; 4];
                 edges := [(1, 2, 0); (2, 3, 0); (3, 2, 0); (3, 4, 0)] |};
     sparsified := {| nodes := [2; 3]; edges := [(2, 3, 0); (3, 2, 0)] |};
     components :=
       Some [ {| comp_name := "A";
                 subgraph := {| nodes := [1; 2]; edges := [(1, 2, 0)] |} |};
              {| comp_name := "B";
                 subgraph := {| nodes := [3; 4]; edges := [(3, 4, 0)] |} |} ];
     partitions := None;
     get_partition_nodes :=
       [ {| pn_name := "A"; pn_nodes := [1];
            pn_subgraph := {| nodes := [1; 2]; edges := [(1, 2, 0)] |} |};
         {| pn_name := "B"; pn_nodes := [4];
            pn_subgraph := {| nodes := [3; 4]; edges := [(3, 4, 0)] |} |} ] |}.

Lemma reassigned_edge_is_invalid_witness :
  valid_result two_ends = Returned true
  ∧ ¬ edge_sets_disjoint (reassign (1, 2, 0) 1 (fun _ ns => ns) two_ends)
  ∧ (components_connected (reassign (1, 2, 0) 1 (fun _ ns => ns) two_ends) →
     valid_result (reassign (1, 2, 0) 1 (fun _ ns => ns) two_ends) = Returned false)
  ∧ (¬ components_connected (reassign (1, 2, 0) 1 (fun _ ns => ns) two_ends) →
     raises (valid_result (reassign (1, 2, 0) 1 (fun _ ns => ns) two_ends))).
Proof.
  split; [vm_compute; reflexivity|].
  apply (reassigned_edge_is_invalid two_ends (1, 2, 0) 0 1 (fun _ ns => ns)
           {| pn_name := "A"; pn_nodes := [1];
              pn_subgraph := {| nodes := [1; 2]; edges := [(1, 2, 0)] |} |}
           {| pn_name := "B"; pn_nodes := [4];
              pn_subgraph := {| nodes := [3; 4]; edges := [(3, 4, 0)] |} |}).
  - vm_compute. reflexivity.
  - lia.
  - reflexivity.
  - reflexivity.
  - simpl. left.
Defined.

(** With the edge 1 -> 2 also in ["B"], that component falls in two
    parts: the checker raises at its plot and does not come to the edge
    overlap. *)
Example two_ends_reassigned :
  valid_result two_ends = Returned true
  ∧ is_valid_partitioning (reassign (1, 2, 0) 1 (fun _ ns => ns) two_ends) []
    = (Raised (TypeError "plot_graph() got an unexpected keyword argument 'attr_types'"),
       [LogDebug stage_1; LogDebug stage_2;
        LogError "The subgraph %s of %s is not connected." ["B"; "row"];
        SetEdgeAttribute (3, 4, 0) "highlight" (PInt 1);
        SetEdgeAttribute (1, 2, 0) "highlight" (PInt 1);
        PlotByAttribute "highlight";
        LogDebug "Given minmax_val for attribute %s: %s";
        LogDebug "Unique colors in the colormap %s: %s"]).
Proof. split; vm_compute; reflexivity. Qed.

(** Four nodes in a ring.  The edges 1 -> 2 and 2 -> 3 are the sparsified
    graph; the edge 3 -> 4 is the component ["A"], the edge 4 -> 1 the
    component ["B"].  Node 4 is the one node inside a component. *)
Definition square : Partitioning :=
  {| name := "square";
     graph := {| nodes := [1; 2; 3; 4];
                 edges := [(1, 2, 0); (2, 3, 0); (3, 4, 0); (4, 1, 0)] |};
     sparsified := {| nodes := [1; 2; 3]; edges := [(1, 2, 0); (2, 3, 0)] |};
     components :=
       Some [ {| comp_name := "A";
                 subgraph := {| nodes := [3; 4]; edges := [(3, 4, 0)] |} |};
              {| comp_name := "B";
                 subgraph := {| nodes := [4; 1]; edges := [(4, 1, 0)] |} |} ];
     partitions := None;
     get_partition_nodes :=
       [ {| pn_name := "A"; pn_nodes := [4];
            pn_subgraph := {| nodes := [3; 4]; edges := [(3, 4, 0)] |} |};
         {| pn_name := "B"; pn_nodes := [];
            pn_subgraph := {| nodes := [4; 1]; edges := [(4, 1, 0)] |} |} ] |}.

(** The square is valid and all four stages are logged.  With the edge
    3 -> 4 also in ["B"] that component stays connected, and the checker
    returns False at the edge overlap. *)
Example square_is_valid :
  valid_result square = Returned true
  ∧ stages_run square = [stage_1; stage_2; stage_3; stage_4].
Proof. split; vm_compute; reflexivity. Qed.

Example square_reassigned :
  is_valid_partitioning (reassign (3, 4, 0) 1 (fun _ ns => ns) square) []
  = (Returned false,
     [LogDebug stage_1; LogDebug stage_2; LogDebug stage_3;
      LogError "The edges of %s overlap in the following subgraphs: %s"
        ["square"; "A and B"]]).
Proof. vm_compute. reflexivity. Qed.

(** Without its first sparsified edge the run stops at the first stage,
    although the second stage would raise on a component without
    nodes. *)
Definition broken_square : Partitioning :=
  {| name := "square";
     graph := graph square;
     sparsified := {| nodes := [1; 2; 3]; edges := [(2, 3, 0)] |};
     components := Some [ {| comp_name := "A";
                             subgraph := {| nodes := []; edges := [] |} |} ];
     partitions := None;
     get_partition_nodes := get_partition_nodes square |}.

Example broken_square_stops_at_first_check :
  valid_result broken_square = Returned false
  ∧ stages_run broken_square = [stage_1]
  ∧ (components_are_connected broken_square []).1
    = Raised (NetworkXPointlessConcept "Connectivity is undefined for the null graph.").
Proof. repeat split; vm_compute; reflexivity. Qed.

End ChecksFacts.

(** ** Grouping the intervals of the peaks *)

Module GroupingFacts.

Import MergeSets Bearing.

Local Open Scope nat_scope.

Section merging.
Context {A : Type} `{Countable A}.

(** No two sets of the list share an element. *)
Definition pairwise_apart (sets : list (gset A)) : Prop :=
  ∀ i j si sj, i ≠ j → sets !! i = Some si → sets !! j = Some sj → si ∩ sj = ∅.

Lemma merge_inner_apart (fuel i j : nat) (group : gset A) (sets : list (gset A)) :
  pairwise_apart sets → sets !! i = Some group →
  merge_inner fuel i group j sets = Returned sets.
Proof.
  intros Hapart Hi. revert j. induction fuel as [|fuel IH]; intros j;
    cbn [merge_inner]; [done|].
  destruct (sets !! j) as [group2|] eqn:Hj; [|done].
  destruct (Nat.eqb_spec i j) as [->|Hne]; cbn [negb andb]; [apply IH|].
  unfold intersects. rewrite bool_decide_eq_false_2; [apply IH|].
  intros Hmeet. apply Hmeet. by apply (Hapart i j).
Qed.

Lemma merge_outer_apart (fuel i : nat) (sets : list (gset A)) :
  pairwise_apart sets → merge_outer fuel i sets = Returned sets.
Proof.
  intros Hapart. revert i. induction fuel as [|fuel IH]; intros i;
    cbn [merge_outer]; [done|].
  destruct (sets !! i) as [group|] eqn:Hi; [|done].
  rewrite merge_inner_apart by done. cbn [Py.bind]. apply IH.
Qed.

Lemma merge_inner_within (U : gset A) (fuel i j : nat) (group : gset A)
    (sets sets' : list (gset A)) :
  group ⊆ U → Forall (fun s => s ⊆ U) sets →
  merge_inner fuel i group j sets = Returned sets' →
  Forall (fun s => s ⊆ U) sets'.
Proof.
  intros Hgroup. revert j sets. induction fuel as [|fuel IH]; intros j sets Hall;
    cbn [merge_inner]; [by intros [= <-]|].
  destruct (sets !! j) as [group2|] eqn:Hj; [|by intros [= <-]].
  destruct (negb (i =? j) && intersects group group2); [|by apply IH].
  destruct (i <? length sets) eqn:Hlt; [|done].
  apply IH. apply Forall_delete, Forall_insert; [done|].
  apply union_least; [done|].
  rewrite Forall_lookup in Hall. by apply (Hall j).
Qed.

Lemma merge_outer_within (U : gset A) (fuel i : nat) (sets sets' : list (gset A)) :
  Forall (fun s => s ⊆ U) sets →
  merge_outer fuel i sets = Returned sets' →
  Forall (fun s => s ⊆ U) sets'.
Proof.
  revert i sets. induction fuel as [|fuel IH]; intros i sets Hall;
    cbn [merge_outer]; [by intros [= <-]|].
  destruct (sets !! i) as [group|] eqn:Hi; [|by intros [= <-]].
  destruct (merge_inner (length sets) i group 0 sets) as [sets1|err] eqn:Hinner;
    cbn [Py.bind]; [|done].
  apply IH. eapply merge_inner_within; [|exact Hall|exact Hinner].
  rewrite Forall_lookup in Hall. by apply (Hall i).
Qed.

Lemma merge_outer_length (fuel i : nat) (sets sets' : list (gset A)) :
  merge_outer fuel i sets = Returned sets' → length sets' ≤ length sets.
Proof.
  revert i sets. induction fuel as [|fuel IH]; intros i sets;
    cbn [merge_outer]; [intros [= <-]; lia|].
  destruct (sets !! i) as [group|] eqn:Hi; [|intros [= <-]; lia].
  destruct (merge_inner (length sets) i group 0 sets) as [sets1|err] eqn:Hinner;
    cbn [Py.bind]; [|done].
  intros Hrest%IH. apply MergeSetsFacts.merge_inner_length in Hinner. lia.
Qed.

(** X1: [merge_sets] leaves a list of sets that share nothing as it is. *)
Theorem merge_sets_apart_unchanged (sets : list (gset A)) :
  pairwise_apart sets → merge_sets sets = Returned sets.
Proof. intros Hapart. by apply merge_outer_apart. Qed.

(** X2: Whatever [merge_sets] returns, it has no more sets than it was given,
    and every element of a returned set was in one of the given sets. *)
Theorem merge_sets_nothing_new (sets merged : list (gset A)) :
  merge_sets sets = Returned merged →
  length merged ≤ length sets
  ∧ ∀ s x, s ∈ merged → x ∈ s → ∃ s', s' ∈ sets ∧ x ∈ s'.
Proof.
  intros Hmerge. split; [by eapply merge_outer_length|].
  intros s x Hs Hx. apply elem_of_union_list.
  assert (Hall : Forall (fun s => s ⊆ ⋃ sets) merged).
  { eapply merge_outer_within; [|exact Hmerge].
    apply Forall_forall. intros s' Hs' y Hy. apply elem_of_union_list. eauto. }
  rewrite Forall_forall in Hall. by apply (Hall s).
Qed.

End merging.

Lemma merge_sets_apart_unchanged_witness :
  pairwise_apart ([{[1; 2]}; {[3]}; {[4; 5]}] : list (gset nat))
  ∧ merge_sets ([{[1; 2]}; {[3]}; {[4; 5]}] : list (gset nat))
    = Returned [{[1; 2]}; {[3]}; {[4; 5]}].
Proof.
  assert (Hapart : pairwise_apart ([{[1; 2]}; {[3]}; {[4; 5]}] : list (gset nat))).
  { intros i j si sj Hne Hi Hj.
    destruct i as [|[|[|i]]]; destruct j as [|[|[|j]]]; try done;
      simpl in Hi, Hj; simplify_eq; set_solver. }
  split; [exact Hapart|]. exact (merge_sets_apart_unchanged _ Hapart).
Defined.

Lemma merge_sets_nothing_new_witness :
  merge_sets ([{[1; 2]}; {[2; 3]}; {[4; 5]}] : list (gset nat))
  = Returned [{[1; 2; 3]}; {[4; 5]}]
  ∧ (2 ≤ 3
     ∧ ∀ (s : gset nat) x, s ∈ [({[1; 2; 3]} : gset nat); {[4; 5]}] → x ∈ s →
         ∃ s', s' ∈ ([{[1; 2]}; {[2; 3]}; {[4; 5]}] : list (gset nat)) ∧ x ∈ s').
Proof.
  assert (Hrun : merge_sets ([{[1; 2]}; {[2; 3]}; {[4; 5]}] : list (gset nat))
                 = Returned [{[1; 2; 3]}; {[4; 5]}]) by (vm_compute; reflexivity).
  split; [exact Hrun|]. exact (merge_sets_nothing_new _ _ Hrun).
Defined.

(** *** [group_overlapping_intervals] *)

(** The intervals at the places [a] and [b] overlap. *)
Definition overlap (left_bases right_bases : list nat) (a b : nat) : Prop :=
  nth b left_bases 0 < nth a right_bases 0
  ∧ nth a left_bases 0 < nth b right_bases 0.

Lemma overlapping_pairs_spec (left_bases right_bases : list nat) (a b : nat) :
  (a, b) ∈ overlapping_pairs left_bases right_bases
  ↔ a < b ∧ b < length left_bases ∧ overlap left_bases right_bases a b.
Proof.
  unfold overlapping_pairs, overlap.
  rewrite list_elem_of_In, in_flat_map. setoid_rewrite <- list_elem_of_In.
  setoid_rewrite list_elem_of_omap. setoid_rewrite elem_of_seq. split.
  - intros (a' & Ha' & b' & Hb' & Hsome).
    destruct (Nat.ltb_spec a' b'); [|done].
    destruct (Nat.ltb_spec (nth b' left_bases 0) (nth a' right_bases 0)); [|done].
    destruct (Nat.ltb_spec (nth a' left_bases 0) (nth b' right_bases 0)); [|done].
    simpl in Hsome. injection Hsome as <- <-. lia.
  - intros (Hab & Hb & H1 & H2). exists a. split; [lia|]. exists b. split; [lia|].
    rewrite (proj2 (Nat.ltb_lt _ _) Hab), (proj2 (Nat.ltb_lt _ _) H1),
      (proj2 (Nat.ltb_lt _ _) H2). done.
Qed.

Lemma add_pair_within (U : gset nat) (g1 g2 : nat) (groups : list (gset nat)) :
  g1 ∈ U → g2 ∈ U → Forall (fun s => s ⊆ U) groups →
  Forall (fun s => s ⊆ U) (add_pair g1 g2 groups).
Proof.
  intros H1 H2. induction groups as [|s groups IH]; intros Hall; cbn [add_pair].
  - constructor; [|done].
    apply union_least; by apply singleton_subseteq_l.
  - apply Forall_cons in Hall as [Hs Hall].
    destruct (bool_decide (g1 ∈ s)).
    { constructor; [|done]. apply union_least; [by apply singleton_subseteq_l|done]. }
    destruct (bool_decide (g2 ∈ s)).
    { constructor; [|done]. apply union_least; [by apply singleton_subseteq_l|done]. }
    constructor; [done|]. by apply IH.
Qed.

Lemma add_pairs_within (U : gset nat) (pairs : list (nat * nat))
    (groups : list (gset nat)) :
  Forall (fun ab => ab.1 ∈ U ∧ ab.2 ∈ U) pairs →
  Forall (fun s => s ⊆ U) groups →
  Forall (fun s => s ⊆ U)
         (fold_left (fun groups '(g1, g2) => add_pair g1 g2 groups) pairs groups).
Proof.
  revert groups. induction pairs as [|[g1 g2] pairs IH]; intros groups Hpairs Hall;
    cbn [fold_left]; [done|].
  apply Forall_cons in Hpairs as [[H1 H2] Hpairs].
  apply IH; [done|]. by apply add_pair_within.
Qed.

(** X3: Intervals of which no two overlap are in no group. *)
Theorem intervals_apart_no_group (left_bases right_bases : list nat) :
  length left_bases = length right_bases →
  (∀ a b, a < b → b < length left_bases → ¬ overlap left_bases right_bases a b) →
  group_overlapping_intervals left_bases right_bases = Returned [].
Proof.
  intros Hlen Hapart. unfold group_overlapping_intervals.
  rewrite Hlen, Nat.eqb_refl. cbn [negb].
  assert (Hnone : overlapping_pairs left_bases right_bases = []).
  { destruct (overlapping_pairs left_bases right_bases) as [|[a b] rest] eqn:Hpairs;
      [done|].
    assert (Hab : (a, b) ∈ overlapping_pairs left_bases right_bases)
      by (rewrite Hpairs; left).
    apply overlapping_pairs_spec in Hab as (Hlt & Hb & Hover).
    by destruct (Hapart a b). }
  rewrite Hnone. reflexivity.
Qed.

Lemma intervals_apart_no_group_witness :
  group_overlapping_intervals [0; 2; 5] [2; 5; 9] = Returned [].
Proof.
  apply intervals_apart_no_group; [reflexivity|].
  intros a b Hab Hb [H1 H2].
  destruct b as [|[|[|b]]]; simpl in Hb; [lia| | |lia];
    destruct a as [|[|a]]; simpl in H1, H2; lia.
Defined.

(** X4: Every member of a group the function returns is the index of an
    interval that overlaps another one. *)
Theorem group_members_overlap (left_bases right_bases : list nat)
    (groups : list (gset nat)) :
  group_overlapping_intervals left_bases right_bases = Returned groups →
  ∀ group a, group ∈ groups → a ∈ group →
    a < length left_bases
    ∧ ∃ b, b < length left_bases ∧ a ≠ b ∧ overlap left_bases right_bases a b.
Proof.
  unfold group_overlapping_intervals.
  destruct (negb _); [done|]. intros Hmerge group a Hgroup Ha.
  set (pairs := overlapping_pairs left_bases right_bases) in *.
  set (U := list_to_set (flat_map (fun ab => [ab.1; ab.2]) pairs) : gset nat).
  assert (HU : ∀ x, x ∈ U ↔ ∃ y, (x, y) ∈ pairs ∨ (y, x) ∈ pairs).
  { intros x. unfold U. rewrite elem_of_list_to_set, list_elem_of_In, in_flat_map.
    setoid_rewrite <- list_elem_of_In. split.
    - intros ([p q] & Hpq & Hx). simpl in Hx.
      apply elem_of_cons in Hx as [->|Hx]; [exists q; by left|].
      apply list_elem_of_singleton in Hx as ->. exists p. by right.
    - intros (y & [Hxy|Hyx]); [exists (x, y)|exists (y, x)];
        (split; [done|]); simpl; [left|right; left]. }
  assert (Hall : Forall (fun s => s ⊆ U) groups).
  { eapply merge_outer_within; [|exact Hmerge].
    apply add_pairs_within; [|done].
    apply Forall_forall. intros [p q] Hpq. simpl. split; apply HU.
    - exists q. by left.
    - exists p. by right. }
  rewrite Forall_forall in Hall.
  apply (Hall group Hgroup), HU in Ha as (b & [Hab|Hba]).
  - apply overlapping_pairs_spec in Hab as (Hlt & Hb & Hover).
    split; [lia|]. exists b. repeat split; try lia; apply Hover.
  - apply overlapping_pairs_spec in Hba as (Hlt & Hb & H1 & H2).
    split; [lia|]. exists b. repeat split; try lia; done.
Qed.

Lemma group_members_overlap_witness :
  group_overlapping_intervals [0; 0; 1; 3; 4; 9] [1; 2; 3; 4; 10; 10]
  = Returned [{[0; 1; 2]}; {[4; 5]}]
  ∧ ∀ group a, group ∈ [({[0; 1; 2]} : gset nat); {[4; 5]}] → a ∈ group →
      a < 6
      ∧ ∃ b, b < 6 ∧ a ≠ b
             ∧ overlap [0; 0; 1; 3; 4; 9] [1; 2; 3; 4; 10; 10] a b.
Proof.
  assert (Hrun : group_overlapping_intervals [0; 0; 1; 3; 4; 9] [1; 2; 3; 4; 10; 10]
                 = Returned [{[0; 1; 2]}; {[4; 5]}]) by (vm_compute; reflexivity).
  split; [exact Hrun|]. exact (group_members_overlap _ _ _ Hrun).
Defined.

End GroupingFacts.

(** ** The steps of [BearingPartitioner.run], one by one *)

Module RunFacts.

Import Networkx Numpy Bearing.

(** *** Binning *)

Lemma evens_nth {A : Type} (l : list A) (k : nat) (d : A) :
  nth k (evens l) d = nth (2 * k) l d.
Proof.
  revert l. induction k as [|k IH]; intros l.
  - by destruct l.
  - replace (2 * S k)%nat with (S (S (2 * k))) by lia.
    destruct l as [|a [|b l]]; [done| |].
    + cbn [evens nth]. by destruct k.
    + cbn [evens nth]. apply IH.
Qed.

Lemma peak_distance_ge (n : Z) : 360 ≤ n → (peak_distance n <? 1) = false.
Proof.
  intros Hn. apply Z.ltb_ge. unfold peak_distance, int_of. simpl.
  rewrite Z.mul_1_r. apply Z.quot_le_lower_bound; lia.
Qed.

Lemma bin_bearings_info (n : Z) (s s' : BearingPartitioner) :
  __bin_bearings n s = (Returned tt, s') →
  360 ≤ n
  ∧ ∃ edges_ frequency,
      _bin_info s'
      = Some {| num_bins := n; bin_edges := Some edges_;
                bin_frequency := Some frequency;
                mean := None; medi := None; std := None; min := None;
                max := None; peak_ind := None; peak_props := None |}.
Proof.
  unfold __bin_bearings, mbind_method, get, put, lift, raise.
  destruct (Z.ltb_spec n 360) as [|Hn]; [done|]. cbv beta iota.
  destruct (new_edge_attribute_by_function _ _ _ _ _) as [data|err]; [|done].
  destruct (as_float_array _) as [a|err]; [|done].
  intros [= <-]. split; [done|]. cbn [_bin_info set_bin_info set_edge_data]. eauto.
Qed.

(** X5: [__bin_bearings(num_bins)] returns only for 360 bins or more, and
    then leaves [num_bins] frequencies and the [num_bins + 1] edges
    [k * 90 / num_bins] of the merged bins in [_bin_info]. *)
Theorem bin_bearings_histogram (n : Z) (s s' : BearingPartitioner) :
  __bin_bearings n s = (Returned tt, s') →
  360 ≤ n
  ∧ ∃ edges_ frequency,
      _bin_info s'
      = Some {| num_bins := n; bin_edges := Some edges_;
                bin_frequency := Some frequency;
                mean := None; medi := None; std := None; min := None;
                max := None; peak_ind := None; peak_props := None |}
      ∧ length edges_ = S (Z.to_nat n)
      ∧ length frequency = Z.to_nat n
      ∧ ∀ k, (k ≤ Z.to_nat n)%nat →
             (nth k edges_ 0 == inject_Z (Z.of_nat k) * 90 / inject_Z n)%Q.
Proof.
  unfold __bin_bearings, mbind_method, get, put, lift, raise.
  destruct (Z.ltb_spec n 360) as [|Hn]; [done|]. cbv beta iota.
  destruct (new_edge_attribute_by_function _ _ _ _ _) as [data|err]; [|done].
  destruct (as_float_array _) as [a|err]; [|done].
  intros [= <-]. split; [done|]. cbn [_bin_info set_bin_info set_edge_data].
  eexists _, _. split; [reflexivity|].
  set (bins := map (fun i => (inject_Z i * 90 / inject_Z (n * 2))%Q)
                   (arange (n * 2 + 1))).
  assert (Hbins : length bins = S (2 * Z.to_nat n)).
  { unfold bins, arange. rewrite length_map, length_seqZ. lia. }
  split; [|split].
  - destruct (BearingFacts.evens_length bins) as [-> _]. rewrite Hbins.
    replace (S (S (2 * Z.to_nat n))) with (2 * S (Z.to_nat n))%nat by lia.
    apply Nat.div2_double.
  - rewrite length_map, length_zip_with.
    destruct (BearingFacts.evens_length (roll1 (histogram a bins))) as [-> Hodd].
    unfold odds. rewrite Hodd, BearingFacts.roll1_length, BearingFacts.histogram_length, Hbins.
    replace (S (2 * Z.to_nat n) - 1)%nat with (2 * Z.to_nat n)%nat by lia.
    rewrite Nat.div2_succ_double, Nat.div2_double. lia.
  - intros k Hk. rewrite evens_nth. unfold bins, arange.
    rewrite nth_lookup, list_lookup_fmap, lookup_seqZ_lt by lia.
    cbn [fmap option_fmap option_map default].
    rewrite Z.add_0_l, Nat2Z.inj_mul. change (Z.of_nat 2) with 2.
    rewrite (Z.mul_comm n 2), !inject_Z_mult.
    assert (Hnz : ¬ (inject_Z n == 0)%Q).
    { intros Heq. unfold Qeq in Heq. simpl in Heq. lia. }
    unfold id. field. exact Hnz.
Qed.

Lemma bin_bearings_histogram_witness :
  let s := __init__ BearingFacts.four_graph BearingFacts.four_data "four" in
  let s' := (__bin_bearings 360 s).2 in
  360 ≤ 360
  ∧ ∃ edges_ frequency,
      _bin_info s'
      = Some {| num_bins := 360; bin_edges := Some edges_;
                bin_frequency := Some frequency;
                mean := None; medi := None; std := None; min := None;
                max := None; peak_ind := None; peak_props := None |}
      ∧ length edges_ = S (Z.to_nat 360)
      ∧ length frequency = Z.to_nat 360
      ∧ ∀ k, (k ≤ Z.to_nat 360)%nat →
             (nth k edges_ 0 == inject_Z (Z.of_nat k) * 90 / inject_Z 360)%Q.
Proof.
  intros s s'. apply (bin_bearings_histogram 360 s s').
  apply (BearingFacts.returned_with_state (__bin_bearings 360) s).
  vm_compute. reflexivity.
Defined.

(** X6: After the binning, [__find_peaks] goes through: 360 bins or more make
    the distance given to [find_peaks] at least one sample. *)
Theorem find_peaks_after_binning `{Floats} (n : Z) (s s1 : BearingPartitioner) :
  __bin_bearings n s = (Returned tt, s1) →
  (__find_peaks s1).1 = Returned tt
  ∧ ∃ peaks_, BearingFacts.peaks_found (__find_peaks s1).2 = Some peaks_.
Proof.
  intros (Hn & edges_ & frequency & Hinfo)%bin_bearings_info.
  unfold __find_peaks, mbind_method, get, put, lift. rewrite Hinfo. cbv beta iota.
  unfold Scipy.find_peaks. rewrite (peak_distance_ge n Hn). cbv beta iota.
  split; [done|]. eexists. reflexivity.
Qed.

Lemma find_peaks_after_binning_witness :
  let s := __init__ BearingFacts.four_graph BearingFacts.four_data "four" in
  let s1 := (__bin_bearings 360 s).2 in
  (@__find_peaks BearingFacts.approximate_sqrt s1).1 = Returned tt
  ∧ ∃ peaks_,
      BearingFacts.peaks_found (@__find_peaks BearingFacts.approximate_sqrt s1).2
      = Some peaks_.
Proof.
  intros s s1.
  apply (@find_peaks_after_binning BearingFacts.approximate_sqrt 360 s s1).
  apply (BearingFacts.returned_with_state (__bin_bearings 360) s).
  vm_compute. reflexivity.
Defined.

(** *** Boundaries *)

Lemma boundary_arrays_shape (items : list (Q * Q * Q)) (b : list Q)
    (cv : list (option Q)) :
  b ≠ [] → length cv = length b →
  (∃ more, (boundary_arrays items b cv).1 = b ++ more)
  ∧ length (boundary_arrays items b cv).2 = length (boundary_arrays items b cv).1.
Proof.
  revert b cv. induction items as [|[interval v] items IH]; intros b cv Hb Hlen;
    cbn [boundary_arrays].
  - split; [exists []; by rewrite app_nil_r|done].
  - assert (Hcv : length (removelast cv) = (length cv - 1)%nat).
    { rewrite removelast_firstn_len, length_take. lia. }
    assert (Hpos : (0 < length b)%nat) by (destruct b; [done|simpl; lia]).
    destruct (Qeq_bool _ _).
    + destruct (IH (b ++ [interval.2]) (removelast cv ++ [Some v; None]))
        as [[more Hmore] Hl].
      * by destruct b.
      * rewrite !length_app, Hcv. simpl. lia.
      * split; [|done]. exists (interval.2 :: more).
        by rewrite Hmore, <- app_assoc.
    + destruct (IH (b ++ [interval.1; interval.2]) (cv ++ [Some v; None]))
        as [[more Hmore] Hl].
      * by destruct b.
      * rewrite !length_app. simpl. lia.
      * split; [|done]. exists (interval.1 :: interval.2 :: more).
        by rewrite Hmore, <- app_assoc.
Qed.

(** X7: When [__make_boundaries] returns, the boundaries start at 0 and end
    at 90, and there is one centre value (or [None]) for each interval
    between two boundaries.  Nothing but [_inter_vals] is written. *)
Theorem make_boundaries_shape (s s' : BearingPartitioner) :
  __make_boundaries s = (Returned tt, s') →
  ∃ inner centres,
    boundaries (_inter_vals s') = Some (0%Q :: inner)
    ∧ (List.last (0%Q :: inner) 0 == 90)%Q
    ∧ center_values (_inter_vals s') = Some centres
    ∧ length (0%Q :: inner) = S (length centres)
    ∧ s' = set_inter_vals (_inter_vals s') s.
Proof.
  unfold __make_boundaries, mbind_method, get, put, lift, raise.
  cbv beta iota.
  destruct (_bin_info s) as [[nb [be|] bf me md sd mi ma [peak_ind|] [props|]]|];
    try done.
  destruct (group_overlapping_intervals _ _) as [groups|err]; [|done].
  destruct (identical_bases _ _); [done|].
  destruct (initial_base_vals _ _ _) as [base0|err]; [|done].
  destruct (split_groups _ _ _ _ _) as [base1|err]; [|done].
  destruct (interval_peaks _ _ _ _) as [d|err]; [|done].
  destruct (boundary_arrays_shape d [0%Q] [None]) as [[more Hmore] Hlen];
    [done..|].
  destruct (boundary_arrays d [0%Q] [None]) as [b cv]. cbn [fst snd] in *.
  subst b. cbn [app] in *.
  destruct (Qeq_bool (List.last (0%Q :: more) 0%Q) 90) eqn:Hlast.
  - intros [= <-]. cbn [_inter_vals set_inter_vals boundaries center_values].
    exists more, (removelast cv). split; [done|].
    split; [by apply Qeq_bool_iff|]. split; [done|]. split; [|done].
    rewrite removelast_firstn_len, length_take. cbn [length] in *. lia.
  - intros [= <-]. cbn [_inter_vals set_inter_vals boundaries center_values].
    exists (more ++ [90%Q]), cv. split; [done|].
    split; [|split; [done|split; [|done]]].
    + change (0%Q :: more ++ [90%Q]) with ((0%Q :: more) ++ [90%Q]).
      rewrite last_last. reflexivity.
    + cbn [length] in *. rewrite length_app. simpl. lia.
Qed.

Lemma make_boundaries_shape_witness :
  let s1 := (@BearingFacts.peak_detection BearingFacts.approximate_sqrt
               (__init__ BearingFacts.town_graph BearingFacts.town_data "town")).2 in
  let s2 := (__make_boundaries s1).2 in
  ∃ inner centres,
    boundaries (_inter_vals s2) = Some (0%Q :: inner)
    ∧ (List.last (0%Q :: inner) 0 == 90)%Q
    ∧ center_values (_inter_vals s2) = Some centres
    ∧ length (0%Q :: inner) = S (length centres)
    ∧ s2 = set_inter_vals (_inter_vals s2) s1.
Proof.
  intros s1 s2. apply (make_boundaries_shape s1 s2).
  apply (BearingFacts.returned_with_state __make_boundaries s1).
  vm_compute. reflexivity.
Defined.

(** *** What [run] writes *)

(** Between two states: the graph and the name are the same, and so is
    every edge attribute but [bearing_90] and [bearing_group]. *)
Definition framed (s s' : BearingPartitioner) : Prop :=
  graph s' = graph s
  ∧ name s' = name s
  ∧ ∀ e a, a ≠ "bearing_90" → a ≠ "bearing_group" →
           edge_attr (edge_data s') e a = edge_attr (edge_data s) e a.

Lemma framed_refl (s : BearingPartitioner) : framed s s.
Proof. by repeat split. Qed.

Lemma framed_trans (s1 s2 s3 : BearingPartitioner) :
  framed s1 s2 → framed s2 s3 → framed s1 s3.
Proof.
  intros (Hg1 & Hn1 & Ha1) (Hg2 & Hn2 & Ha2).
  split; [congruence|]. split; [congruence|].
  intros e a H90 Hgroup. by rewrite Ha2, Ha1.
Qed.

Lemma bin_bearings_framed (n : Z) (s s' : BearingPartitioner) (r : result unit) :
  __bin_bearings n s = (r, s') → framed s s'.
Proof.
  unfold __bin_bearings, mbind_method, get, put, lift, raise.
  destruct (n <? 360); [intros [= <- <-]; apply framed_refl|].
  destruct (new_edge_attribute_by_function _ _ _ _ _) as [data|err] eqn:Hdata.
  - destruct (as_float_array _) as [a|err]; intros [= <- <-];
      (split; [done|split; [done|]]); intros e a' H90 Hgroup; cbn;
      by rewrite (BearingFacts.new_edge_attribute_frame _ _ _ _ _ _ e a' Hdata).
  - intros [= <- <-]. by repeat split.
Qed.

Lemma find_peaks_framed `{Floats} (s s' : BearingPartitioner) (r : result unit) :
  __find_peaks s = (r, s') → framed s s' ∧ edge_data s' = edge_data s.
Proof.
  unfold __find_peaks, mbind_method, get, put, lift, raise.
  repeat case_match; intros [= <- <-]; by repeat split.
Qed.

Lemma make_boundaries_framed (s s' : BearingPartitioner) (r : result unit) :
  __make_boundaries s = (r, s') → framed s s' ∧ edge_data s' = edge_data s.
Proof.
  unfold __make_boundaries, mbind_method, get, put, lift, raise.
  repeat case_match; intros [= <- <-]; by repeat split.
Qed.

Lemma set_edge_attributes_dict_other (G : Graph) (values : list (Edge * value))
    (attr a : string) (data : EdgeData) (e : Edge) :
  a ≠ attr →
  edge_attr (set_edge_attributes_dict G values attr data) e a = edge_attr data e a.
Proof.
  intros Hne. unfold set_edge_attributes_dict. revert data.
  induction values as [|[e' v] values IH]; intros data; cbn [fold_left]; [done|].
  rewrite IH. case_bool_decide; [|done].
  by apply BearingFacts.set_edge_attr_other.
Qed.

Lemma set_edge_attr_same (e e' : Edge) (a : string) (v : value) (data : EdgeData) :
  e = e' ∨ is_Some (edge_attr data e' a) →
  is_Some (edge_attr (set_edge_attr e a v data) e' a).
Proof.
  unfold edge_attr, set_edge_attr, EdgeData in *.
  destruct (decide (e = e')) as [->|Hne].
  - intros _. rewrite lookup_insert_eq. simpl. rewrite lookup_insert_eq. eauto.
  - intros [?|Hsome]; [done|]. by rewrite lookup_insert_ne.
Qed.

Lemma new_edge_attribute_all (es : list Edge) (f : value → result value)
    (src dst : string) (data data' : EdgeData) (e : Edge) :
  new_edge_attribute_by_function es f src dst data = Returned data' →
  e ∈ es ∨ is_Some (edge_attr data e dst) →
  is_Some (edge_attr data' e dst).
Proof.
  revert data. induction es as [|e0 es IH]; intros data;
    cbn [new_edge_attribute_by_function].
  - intros [= <-] [Hin|Hsome]; [by apply elem_of_nil in Hin|done].
  - destruct (match edge_attr data e0 src with Some v => f v | None => Returned PNone end)
      as [v|err]; cbn [Py.bind]; [|done].
    intros Hrest Hin. apply (IH _ Hrest).
    destruct Hin as [Hin|Hsome].
    + apply elem_of_cons in Hin as [->|Hin]; [right|by left].
      apply set_edge_attr_same. by left.
    + right. apply set_edge_attr_same. by right.
Qed.

Lemma group_bearings_edges (b : list Q) (cv : list (option Q))
    (gb gb' : list (Edge * value)) :
  group_bearings b cv gb = Returned gb' → map fst gb' = map fst gb.
Proof.
  revert gb'. induction gb as [|[e v] gb IH]; intros gb'; cbn [group_bearings].
  - by intros [= <-].
  - destruct (group_of b cv v) as [g|err]; cbn [Py.bind]; [|done].
    destruct (group_bearings b cv gb) as [rest|err]; cbn [Py.bind]; [|done].
    intros [= <-]. cbn [map fst]. by rewrite (IH rest).
Qed.

Lemma set_edge_attributes_dict_all (G : Graph) (values : list (Edge * value))
    (attr : string) (data : EdgeData) (e : Edge) :
  (e ∈ map fst values ∧ e ∈ edges G) ∨ is_Some (edge_attr data e attr) →
  is_Some (edge_attr (set_edge_attributes_dict G values attr data) e attr).
Proof.
  unfold set_edge_attributes_dict. revert data.
  induction values as [|[e' v] values IH]; intros data; cbn [fold_left map fst].
  - intros [[Hin _]|Hsome]; [by apply elem_of_nil in Hin|done].
  - intros Hcase. apply IH. destruct Hcase as [[Hin HG]|Hsome].
    + apply elem_of_cons in Hin as [->|Hin]; [right|by left].
      rewrite bool_decide_eq_true_2 by done. apply set_edge_attr_same. by left.
    + right. case_bool_decide; [|done]. apply set_edge_attr_same. by right.
Qed.

Lemma get_edge_attributes_edges (G : Graph) (data : EdgeData) (attr : string) :
  (∀ e, e ∈ edges G → is_Some (edge_attr data e attr)) →
  map fst (get_edge_attributes G data attr) = edges G.
Proof.
  unfold get_edge_attributes. induction (edges G) as [|e es IH]; intros Hall; [done|].
  cbn [omap list_omap]. destruct (Hall e) as [v Hv]; [left|]. rewrite Hv.
  cbn [mbind option_bind map fst]. f_equal. apply IH.
  intros e' He'. apply Hall. by right.
Qed.

Lemma bin_bearings_all (n : Z) (s s1 : BearingPartitioner) :
  __bin_bearings n s = (Returned tt, s1) →
  ∀ e, e ∈ edges (graph s) → is_Some (edge_attr (edge_data s1) e "bearing_90").
Proof.
  unfold __bin_bearings, mbind_method, get, put, lift, raise.
  destruct (n <? 360); [done|]. cbv beta iota.
  destruct (new_edge_attribute_by_function _ _ _ _ _) as [data|err] eqn:Hdata;
    [|done].
  destruct (as_float_array _) as [a|err]; [|done].
  intros [= <-] e He. cbn. eapply new_edge_attribute_all; [exact Hdata|by left].
Qed.

(** X8: Whatever [run] does, and also when it raises, it leaves the graph and
    the name as they were and writes no edge attribute but [bearing_90]
    and [bearing_group]. *)
Theorem run_writes_two_attributes `{Floats} (s : BearingPartitioner) (e : Edge)
    (a : string) :
  a ≠ "bearing_90" → a ≠ "bearing_group" →
  graph (run s).2 = graph s
  ∧ name (run s).2 = name s
  ∧ edge_attr (edge_data (run s).2) e a = edge_attr (edge_data s) e a.
Proof.
  intros H90 Hgroup.
  assert (Hframed : framed s (run s).2).
  { unfold run, mbind_method.
    destruct (__bin_bearings 360 s) as [[[]|err] s1] eqn:Hbin;
      [|by eapply bin_bearings_framed].
    apply bin_bearings_framed in Hbin.
    destruct (__find_peaks s1) as [[[]|err] s2] eqn:Hpeaks;
      [|eapply framed_trans; [exact Hbin|by eapply find_peaks_framed]].
    apply find_peaks_framed in Hpeaks as [Hpeaks _].
    assert (H2 : framed s s2) by (by eapply framed_trans).
    unfold get, ret, raise. cbv beta iota.
    destruct (_bin_info s2) as [[nb be bf me md sd mi ma [peak_ind|] props]|];
      [|done..].
    destruct (Nat.ltb (length peak_ind) 1); [done|].
    destruct (__make_boundaries s2) as [[[]|err] s3] eqn:Hmake;
      [|eapply framed_trans; [exact H2|by eapply make_boundaries_framed]].
    apply make_boundaries_framed in Hmake as [Hmake _].
    assert (H3 : framed s s3) by (by eapply framed_trans).
    unfold put, lift. cbv beta iota.
    cbn [_inter_vals set_attribute_label graph edge_data].
    destruct H3 as (Hg & Hn & Ha).
    destruct (boundaries (_inter_vals s3)) as [b|]; [|by repeat split].
    destruct (center_values (_inter_vals s3)) as [cv|]; [|by repeat split].
    destruct (group_bearings b cv _) as [gb|err]; [|by repeat split].
    split; [done|]. split; [done|]. intros e' a' H90' Hgroup'. cbn.
    rewrite set_edge_attributes_dict_other by done. by apply Ha. }
  destruct Hframed as (Hg & Hn & Ha). auto.
Qed.

Lemma run_writes_two_attributes_witness :
  let s := __init__ BearingFacts.town_graph BearingFacts.town_data "town" in
  let after := (@run BearingFacts.approximate_sqrt s).2 in
  graph after = graph s
  ∧ name after = name s
  ∧ edge_attr (edge_data after) (0, 1, 0) "bearing"
    = edge_attr (edge_data s) (0, 1, 0) "bearing".
Proof.
  intros s after.
  apply (@run_writes_two_attributes BearingFacts.approximate_sqrt s (0, 1, 0) "bearing");
    discriminate.
Defined.

(** X9: When [run] returns, the partitioner has its label and its partitions,
    so that [__check_has_been_runned] passes, and every edge of the graph
    has got a [bearing_group]. *)
Theorem run_labels_every_edge `{Floats} (s : BearingPartitioner) :
  (run s).1 = Returned tt →
  attribute_label (run s).2 = Some "bearing_group"
  ∧ (∃ parts, partition (run s).2 = Some parts)
  ∧ __check_has_been_runned (run s).2 = Returned tt
  ∧ ∀ e, e ∈ edges (graph s) →
         is_Some (edge_attr (edge_data (run s).2) e "bearing_group").
Proof.
  unfold run, mbind_method.
  destruct (__bin_bearings 360 s) as [[[]|err] s1] eqn:Hbin; [|done].
  pose proof (bin_bearings_all 360 s s1 Hbin) as H90.
  apply bin_bearings_framed in Hbin as (Hg1 & _ & _).
  destruct (__find_peaks s1) as [[[]|err] s2] eqn:Hpeaks; [|done].
  apply find_peaks_framed in Hpeaks as [(Hg2 & _ & _) Hd2].
  unfold get, ret, raise. cbv beta iota.
  destruct (_bin_info s2) as [[nb be bf me md sd mi ma [peak_ind|] props]|];
    [|done..].
  destruct (Nat.ltb (length peak_ind) 1); [done|].
  destruct (__make_boundaries s2) as [[[]|err] s3] eqn:Hmake; [|done].
  apply make_boundaries_framed in Hmake as [(Hg3 & _ & _) Hd3].
  unfold put, lift. cbv beta iota.
  cbn [_inter_vals set_attribute_label graph edge_data].
  destruct (boundaries (_inter_vals s3)) as [b|]; [|done].
  destruct (center_values (_inter_vals s3)) as [cv|]; [|done].
  destruct (group_bearings b cv _) as [gb|err] eqn:Hgb; [|done].
  intros _. cbn. split; [done|]. split; [eauto|]. split; [done|].
  intros e He. apply set_edge_attributes_dict_all. left.
  assert (Hedges : graph s3 = graph s) by congruence.
  rewrite (group_bearings_edges _ _ _ _ Hgb), get_edge_attributes_edges.
  - rewrite Hedges. done.
  - intros e' He'. rewrite Hd3, Hd2. apply H90. by rewrite <- Hedges.
Qed.

Lemma run_labels_every_edge_witness :
  let s := __init__ BearingFacts.town_graph BearingFacts.town_data "town" in
  let after := (@run BearingFacts.approximate_sqrt s).2 in
  attribute_label after = Some "bearing_group"
  ∧ (∃ parts, partition after = Some parts)
  ∧ __check_has_been_runned after = Returned tt
  ∧ ∀ e, e ∈ edges (graph s) →
         is_Some (edge_attr (edge_data after) e "bearing_group").
Proof.
  intros s after.
  apply (@run_labels_every_edge BearingFacts.approximate_sqrt s).
  vm_compute. reflexivity.
Defined.

End RunFacts.

(** ** What the plotting functions refuse *)

Module PlotFacts.

Import Networkx Plot.

(** *** [determine_minmax_val] and [plot_by_attribute] *)

(** X11: A tuple of two [None]s is not taken for [None]: the lower bound is
    filled in, the upper stays [None], and the comparison of the two
    raises (if finding the lower bound did not raise before). *)
Theorem range_of_two_nones_raises (G : Graph) (data : EdgeData) (attr : string) :
  ∃ err, determine_minmax_val G data (Some [None; None]) attr = Raised err.
Proof.
  unfold determine_minmax_val, entry. cbn [lookup list_lookup Py.bind].
  destruct (truthy_values _) as [values|err]; cbn [Py.bind]; [|eauto].
  destruct (numbers values) as [array|err]; cbn [Py.bind]; [|eauto].
  destruct (amin array) as [lowest|err]; cbn [Py.bind]; [|eauto].
  destruct (amax array) as [highest|err]; cbn [Py.bind lookup list_lookup]; eauto.
Qed.

(** X14: [edge_color] cannot be passed, not even as [None]: a value is
    refused, and [None] meets the list of colours in the call of
    [osmnx.plot_graph]. *)
Theorem edge_color_is_never_accepted (G : Graph) (data : EdgeData) (attr : string)
    (minmax_val : option argument) (edge_color : value) :
  ∃ err, plot_by_attribute G data attr minmax_val (Some edge_color) = Raised err.
Proof.
  unfold plot_by_attribute.
  destruct (negb (is_none edge_color)); [eauto|].
  destruct (_ : result (option (list (option pyfloat)))) as [tuple|err];
    cbn [Py.bind]; [|eauto].
  destruct (determine_minmax_val G data tuple attr) as [range|err];
    cbn [Py.bind]; [|eauto].
  destruct (entry range 0) as [lo|err]; cbn [Py.bind]; [|eauto].
  destruct (entry range 1) as [hi|err]; cbn [Py.bind]; [|eauto].
  destruct (colour_arguments _ _ _) as [cs|err]; cbn [Py.bind]; eauto.
Qed.

(** *** [plot_partition_graph] *)

Import Bearing.

(** X15: A partitioner whose edges all carry the same group cannot be
    plotted: the range of the attribute is empty, which
    [determine_minmax_val] refuses. *)
Theorem one_group_is_not_plotted (s : BearingPartitioner) (label : string) (q : Q) :
  is_Some (partition s) →
  attribute_label s = Some label →
  attr_value_minmax s = None →
  edges (graph s) ≠ [] →
  ¬ (q == 0)%Q →
  (∀ e, e ∈ edges (graph s) → edge_attr (edge_data s) e label = Some (PFloat (Fin q))) →
  plot_partition_graph None s
  = Raised (ValueError "The `minmax_val` attribute must have the first value smaller than the second.").
Proof.
  intros [parts Hparts] Hlabel Hminmax Hedges Hq Hall.
  unfold plot_partition_graph, __check_has_been_runned.
  rewrite Hparts, Hlabel, Hminmax. cbn [Py.bind fmap option_fmap option_map].
  unfold plot_by_attribute. cbn [Py.bind].
  unfold determine_minmax_val. cbn [Py.bind].
  assert (Hvalues : map snd (get_edge_attributes (graph s) (edge_data s) label)
                    = map (fun _ => PFloat (Fin q)) (edges (graph s))).
  { unfold get_edge_attributes. clear Hedges. revert Hall.
    generalize (edges (graph s)) as es. intros es.
    induction es as [|e es IH]; intros Hall; [done|].
    cbn [omap list_omap]. rewrite (Hall e) by left. cbn [mbind option_bind map snd].
    f_equal. apply IH. intros e' He'. apply Hall. by right. }
  rewrite Hvalues.
  assert (Hkept : ∀ es : list Edge,
            truthy_values (map (fun _ => PFloat (Fin q)) es)
            = Returned (map (fun _ => PFloat (Fin q)) es)).
  { assert (Hq0 : Qeq_bool q 0 = false)
      by (apply not_true_iff_false; by rewrite Qeq_bool_iff).
    induction es as [|e es IH]; [done|]. cbn [map truthy_values truthy].
    rewrite Hq0. cbn [Py.bind negb]. by rewrite IH. }
  assert (Harray : ∀ es : list Edge,
            numbers (map (fun _ => PFloat (Fin q)) es)
            = Returned (map (fun _ => Fin q) es)).
  { induction es as [|e es IH]; [done|]. cbn [map numbers number Py.bind].
    by rewrite IH. }
  rewrite Hkept. cbn [Py.bind]. rewrite Harray. cbn [Py.bind].
  destruct (edges (graph s)) as [|e es]; [done|]. cbn [map amin amax Py.bind].
  assert (Hmin : ∀ es : list Edge,
            fold_left float_min (map (fun _ => Fin q) es) (Fin q) = Fin q).
  { intros es'. induction es' as [|e' es' IH]; [done|]. cbn [map fold_left].
    unfold float_min at 2. cbn [isnan float_lt].
    unfold Qlt_bool. rewrite (proj2 (Qle_bool_iff q q)) by lra. exact IH. }
  assert (Hmax : ∀ es : list Edge,
            fold_left float_max (map (fun _ => Fin q) es) (Fin q) = Fin q).
  { intros es'. induction es' as [|e' es' IH]; [done|]. cbn [map fold_left].
    unfold float_max at 2. cbn [isnan float_lt].
    unfold Qlt_bool. rewrite (proj2 (Qle_bool_iff q q)) by lra. exact IH. }
  rewrite Hmin, Hmax. unfold entry. cbn [lookup list_lookup Py.bind].
  unfold float_ge. cbn [float_lt float_eq].
  rewrite Qeq_bool_refl, orb_true_r. reflexivity.
Qed.

Definition lane : BearingPartitioner :=
  {| graph := {| nodes := [1; 2; 3]; edges := [(1, 2, 0); (2, 3, 0)] |};
     edge_data := {[ (1, 2, 0) := {[ "bearing_group" := PFloat (Fin 10) ]};
                     (2, 3, 0) := {[ "bearing_group" := PFloat (Fin 10) ]} ]};
     name := "lane";
     partition := Some [ {| part_name := [8; 12]%Q; part_value := 10%Q |} ];
     attribute_label := Some "bearing_group";
     attr_value_minmax := None;
     _bin_info := None;
     _inter_vals := {| base_vals := None; boundaries := None; center_values := None |} |}.

Lemma one_group_is_not_plotted_witness :
  plot_partition_graph None lane
  = Raised (ValueError "The `minmax_val` attribute must have the first value smaller than the second.").
Proof.
  apply (one_group_is_not_plotted lane "bearing_group" 10).
  - eexists. reflexivity.
  - reflexivity.
  - reflexivity.
  - discriminate.
  - intros Hzero. discriminate Hzero.
  - intros e He. simpl in He.
    apply elem_of_cons in He as [->|He]; [reflexivity|].
    apply list_elem_of_singleton in He as ->. reflexivity.
Defined.

End PlotFacts.

(** ** What the single checks report *)

Module ReportFacts.

Import Networkx Checks ChecksFacts.

(** What the plot leaves in the trace: its call and its debug
    records. *)
Definition of_the_plot (ev : event) : bool :=
  match ev with
  | PlotByAttribute _ => true
  | LogDebug msg => negb (is_stage msg)
  | _ => false
  end.

(** One turn of the loop at a component that is not connected and whose
    edges are edges of the graph: the error, the marks, the plot. *)
Lemma components_loop_marks (p : Partitioning) (c : Component) (cs : list Component)
    (found : bool) (t : list event) :
  is_weakly_connected (subgraph c) = Returned false →
  in_graph p (edges (subgraph c)) = true →
  components_are_connected_loop p (c :: cs) found t
  = (Raised (plot_error p c),
     t ++ LogError "The subgraph %s of %s is not connected." [comp_name c; name p]
          :: map (fun e => SetEdgeAttribute e "highlight" (PInt 1))
                 (edges (subgraph c))
          ++ [PlotByAttribute "highlight";
              LogDebug "Given minmax_val for attribute %s: %s";
              LogDebug "Unique colors in the colormap %s: %s"]).
Proof.
  intros Hc Hin. cbn [components_are_connected_loop].
  unfold mbind_method at 1, lift. rewrite Hc. cbn [negb].
  unfold mbind_method at 1, emit at 1. cbv beta iota.
  unfold mbind_method at 1. rewrite set_highlight_returns by done.
  unfold plot_highlight, mbind_method, emit, raise, plot_error. cbv beta iota.
  rewrite Hin. by rewrite <- !app_assoc.
Qed.

(** X16: [components_are_connected] stops at the first component that is
    not connected, and not with an answer.  With the edges of that
    component among the edges of the graph, it logs the error for the
    component, sets [highlight] to 1 on its edges and raises in the
    plot.  The marks stay, for the lines that take them back are never
    reached, and no later component is looked at: after the marks the
    trace holds the plot and its debug records and nothing else. *)
Theorem first_disconnected_component_ends_the_loop (p : Partitioning)
    (before after : list Component) (c : Component) (t : list event) :
  parts p = Returned (before ++ c :: after) →
  Forall (fun c' => is_weakly_connected (subgraph c') = Returned true) before →
  is_weakly_connected (subgraph c) = Returned false →
  Forall (fun e => e ∈ edges (graph p)) (edges (subgraph c)) →
  raises (components_are_connected p t).1
  ∧ ∃ evs,
      (components_are_connected p t).2
      = t ++ LogError "The subgraph %s of %s is not connected." [comp_name c; name p]
             :: map (fun e => SetEdgeAttribute e "highlight" (PInt 1))
                    (edges (subgraph c))
             ++ evs
      ∧ forallb of_the_plot evs = true.
Proof.
  intros Hparts Hbefore Hc Hin.
  assert (Hin' : in_graph p (edges (subgraph c)) = true).
  { unfold in_graph. apply forallb_forall. intros e He.
    apply bool_decide_eq_true. rewrite Forall_forall in Hin.
    by apply Hin, list_elem_of_In. }
  unfold components_are_connected, mbind_method, lift. rewrite Hparts.
  cbv beta iota. clear Hparts.
  induction Hbefore as [|b before Hb Hbefore IH]; cbn [app].
  - rewrite components_loop_marks by done. split; [by eexists|].
    by eexists.
  - cbn [components_are_connected_loop]. unfold mbind_method at 1 3, lift.
    rewrite Hb. cbn [negb]. exact IH.
Qed.

(** Two components of two nodes each without an edge between them, and
    one that is connected. *)
Definition scattered : Partitioning :=
  {| name := "scattered";
     graph := {| nodes := [1; 2; 3; 4; 5; 6]; edges := [(5, 6, 0)] |};
     sparsified := {| nodes := [1]; edges := [] |};
     components :=
       Some [ {| comp_name := "A"; subgraph := {| nodes := [1; 2]; edges := [] |} |};
              {| comp_name := "B"; subgraph := {| nodes := [5; 6]; edges := [(5, 6, 0)] |} |};
              {| comp_name := "C"; subgraph := {| nodes := [3; 4]; edges := [] |} |} ];
     partitions := None;
     get_partition_nodes := [] |}.

(** The same with the connected component first: the loop passes ["B"]
    and stops at ["A"]; ["C"] is not looked at. *)
Definition scattered_later : Partitioning :=
  {| name := "scattered";
     graph := {| nodes := [1; 2; 3; 4; 5; 6]; edges := [(5, 6, 0); (1, 3, 0)] |};
     sparsified := {| nodes := [1]; edges := [] |};
     components :=
       Some [ {| comp_name := "B"; subgraph := {| nodes := [5; 6]; edges := [(5, 6, 0)] |} |};
              {| comp_name := "A";
                 subgraph := {| nodes := [1; 2; 3]; edges := [(1, 3, 0)] |} |};
              {| comp_name := "C"; subgraph := {| nodes := [3; 4]; edges := [] |} |} ];
     partitions := None;
     get_partition_nodes := [] |}.

Lemma first_disconnected_component_ends_the_loop_witness :
  raises (components_are_connected scattered_later []).1
  ∧ ∃ evs,
      (components_are_connected scattered_later []).2
      = [LogError "The subgraph %s of %s is not connected." ["A"; "scattered"];
         SetEdgeAttribute (1, 3, 0) "highlight" (PInt 1)] ++ evs
      ∧ forallb of_the_plot evs = true.
Proof.
  apply (first_disconnected_component_ends_the_loop scattered_later
           [ {| comp_name := "B";
                subgraph := {| nodes := [5; 6]; edges := [(5, 6, 0)] |} |} ]
           [ {| comp_name := "C"; subgraph := {| nodes := [3; 4]; edges := [] |} |} ]
           {| comp_name := "A";
              subgraph := {| nodes := [1; 2; 3]; edges := [(1, 3, 0)] |} |}
           []).
  - reflexivity.
  - repeat constructor.
  - vm_compute. reflexivity.
  - repeat constructor.
Defined.

Lemma touches_one (p : Partitioning) (c : Component) :
  touches p c = true ↔ touches_sparsified p c.
Proof.
  pose proof (touches_spec p [c]) as Hspec. cbn [forallb] in Hspec.
  rewrite andb_true_r in Hspec. rewrite Hspec. split.
  - by intros [Hc _]%Forall_cons.
  - intros Hc. by constructor.
Qed.

(** X17: [components_are_connect_sparsified] stops at the first component
    that shares no node with the sparsified graph: it returns False and
    logs that component, and no later one. *)
Theorem first_component_apart_is_reported (p : Partitioning)
    (before after : list Component) (c : Component) (t : list event) :
  parts p = Returned (before ++ c :: after) →
  Forall (touches_sparsified p) before →
  ¬ touches_sparsified p c →
  components_are_connect_sparsified p t
  = (Returned false,
     t ++ [LogError "The subgraph %s of %s is not connected to the sparsified graph."
             [comp_name c; name p]]).
Proof.
  intros Hparts Hbefore Hc. unfold components_are_connect_sparsified, mbind_method, lift.
  rewrite Hparts. cbv beta iota. clear Hparts.
  induction before as [|b before IH]; cbn [app components_are_connect_sparsified_loop].
  - fold (touches p c).
    rewrite <- touches_one in Hc. apply not_true_iff_false in Hc. rewrite Hc.
    reflexivity.
  - apply Forall_cons in Hbefore as [Hb Hbefore].
    fold (touches p b). apply touches_one in Hb. rewrite Hb. cbn [negb].
    by apply IH.
Qed.

Lemma first_component_apart_is_reported_witness :
  components_are_connect_sparsified scattered []
  = (Returned false,
     [LogError "The subgraph %s of %s is not connected to the sparsified graph."
        ["B"; "scattered"]]).
Proof.
  apply (first_component_apart_is_reported scattered
           [ {| comp_name := "A"; subgraph := {| nodes := [1; 2]; edges := [] |} |} ]
           [ {| comp_name := "C"; subgraph := {| nodes := [3; 4]; edges := [] |} |} ]
           {| comp_name := "B"; subgraph := {| nodes := [5; 6]; edges := [(5, 6, 0)] |} |}
           []).
  - reflexivity.
  - constructor; [|constructor]. exists 1. simpl. repeat split; left.
  - intros (n & Hn & Hsub & Hsparse). simpl in Hsub, Hsparse.
    apply list_elem_of_singleton in Hsparse as ->.
    apply elem_of_cons in Hsub as [Hsub|Hsub]; [done|].
    by apply list_elem_of_singleton in Hsub.
Defined.

(** An edge of the component that is no edge of the graph ends the
    marking with a KeyError; the edges before it are marked. *)
Example mark_outside_the_graph :
  let p := {| name := "p";
              graph := {| nodes := [1; 2; 3]; edges := [(1, 2, 0)] |};
              sparsified := {| nodes := [1]; edges := [] |};
              components :=
                Some [ {| comp_name := "A";
                          subgraph := {| nodes := [1; 2; 3; 4];
                                         edges := [(1, 2, 0); (3, 4, 0)] |} |} ];
              partitions := None;
              get_partition_nodes := [] |} in
  components_are_connected p []
  = (Raised (KeyError "edge"),
     [LogError "The subgraph %s of %s is not connected." ["A"; "p"];
      SetEdgeAttribute (1, 2, 0) "highlight" (PInt 1)]).
Proof. vm_compute. reflexivity. Qed.

End ReportFacts.

(** ** More on [save_to_gpkg] *)

Module SaveFacts.

Import Networkx Formatting Utils.

(** The parts [save_to_gpkg] bakes into the graph: the components, or
    the partitions when there are no components. *)
Definition parts_saved (partitioner : Partitioner) : list Part :=
  if truthy (components partitioner)
  then default [] (components partitioner)
  else default [] (partitions partitioner).

Lemma save_bakes `{Repr} (save_path : option string) (partitioner partitioner' : Partitioner)
    (files files' : Geopackages) :
  save_to_gpkg save_path (partitioner, files) = (Returned tt, (partitioner', files')) →
  edge_data partitioner' = bake (parts_saved partitioner) (edge_data partitioner)
  ∧ Forall (fun part => is_Some (part_subgraph part) ∧ is_Some (part_name part))
           (parts_saved partitioner).
Proof.
  unfold save_to_gpkg. fold (parts_saved partitioner).
  destruct (sparsified partitioner); [|done].
  destruct (negb (truthy (components partitioner))
            && negb (truthy (partitions partitioner))); [done|].
  destruct (forallb _ (parts_saved partitioner)) eqn:Hall; cbn [negb]; [|done].
  intros [= <- _]. split; [done|].
  apply Forall_forall. intros part Hpart.
  rewrite forallb_forall in Hall. specialize (Hall part).
  rewrite <- list_elem_of_In in Hall. specialize (Hall Hpart).
  destruct (part_subgraph part), (part_name part); try done.
Qed.

(** X20: An edge that is in none of the parts keeps its attributes: it gets no
    classification.  The edges of the sparsified graph are such edges
    whenever the sparsified graph shares no edge with the parts. *)
Theorem save_classifies_parts_only `{Repr} (save_path : option string)
    (partitioner partitioner' : Partitioner) (files files' : Geopackages) (e : Edge) :
  save_to_gpkg save_path (partitioner, files) = (Returned tt, (partitioner', files')) →
  (∀ part sub, part ∈ parts_saved partitioner → part_subgraph part = Some sub →
               e ∉ edges sub) →
  edge_data partitioner' !! e = edge_data partitioner !! e.
Proof.
  intros [-> _]%save_bakes Hout. by apply UtilsFacts.bake_other.
Qed.

Lemma save_classifies_parts_only_witness :
  edge_data (@save_to_gpkg StrFacts.simple_repr None
               (UtilsFacts.small_partitioner, ∅)).2.1 !! UtilsFacts.edge_s
  = edge_data UtilsFacts.small_partitioner !! UtilsFacts.edge_s.
Proof.
  apply (@save_classifies_parts_only StrFacts.simple_repr None
           UtilsFacts.small_partitioner
           (@save_to_gpkg StrFacts.simple_repr None (UtilsFacts.small_partitioner, ∅)).2.1
           ∅
           (@save_to_gpkg StrFacts.simple_repr None (UtilsFacts.small_partitioner, ∅)).2.2
           UtilsFacts.edge_s).
  - reflexivity.
  - intros part sub Hpart Hsub. cbn in Hpart.
    apply list_elem_of_singleton in Hpart as ->. injection Hsub as <-. cbn.
    intros Hin. apply list_elem_of_singleton in Hin. discriminate Hin.
Defined.

Lemma set_edge_attr_read (e e' : Edge) (attr : string) (v : value) (data : EdgeData) :
  edge_attr (set_edge_attr e attr v data) e' attr
  = if decide (e = e') then Some v else edge_attr data e' attr.
Proof.
  unfold edge_attr, set_edge_attr, EdgeData in *. case_decide as He.
  - subst. rewrite lookup_insert_eq. cbn. by rewrite lookup_insert_eq.
  - by rewrite lookup_insert_ne.
Qed.

Lemma set_edge_attributes_read (G : Graph) (v : value) (attr : string)
    (data : EdgeData) (e : Edge) :
  edge_attr (set_edge_attributes G v attr data) e attr
  = if decide (e ∈ edges G) then Some v else edge_attr data e attr.
Proof.
  unfold set_edge_attributes. generalize (edges G) as es. intros es. revert data.
  induction es as [|e' es IH]; intros data; cbn [fold_left].
  - by rewrite decide_False by apply not_elem_of_nil.
  - rewrite IH, set_edge_attr_read.
    destruct (decide (e ∈ e' :: es)) as [Hin|Hout].
    + apply elem_of_cons in Hin as [->|Hin].
      * destruct (decide (e' ∈ es)); [done|]. by rewrite decide_True.
      * by rewrite decide_True.
    + apply not_elem_of_cons in Hout as [Hne Hout].
      rewrite decide_False by done. by rewrite decide_False.
Qed.

Lemma bake_read (parts : list Part) (data : EdgeData) (e : Edge) (k : nat)
    (part : Part) (n : string) (sub : Graph) :
  Forall (fun part => is_Some (part_subgraph part) ∧ is_Some (part_name part)) parts →
  parts !! k = Some part → part_name part = Some n → part_subgraph part = Some sub →
  e ∈ edges sub →
  (∀ j later sub', (k < j)%nat → parts !! j = Some later →
                   part_subgraph later = Some sub' → e ∉ edges sub') →
  edge_attr (bake parts data) e "classification" = Some (PStr n).
Proof.
  revert data k. induction parts as [|first parts IH]; intros data k Hall Hk Hn Hsub He Hlater;
    [done|].
  apply Forall_cons in Hall as [[[sub0 Hsub0] [n0 Hn0]] Hall].
  cbn [bake]. rewrite Hsub0, Hn0. destruct k as [|k].
  - injection Hk as ->. rewrite Hsub in Hsub0. rewrite Hn in Hn0.
    injection Hsub0 as <-. injection Hn0 as <-.
    unfold edge_attr. rewrite UtilsFacts.bake_other.
    + fold (edge_attr (set_edge_attributes sub (PStr n) "classification" data) e
              "classification").
      rewrite set_edge_attributes_read. by rewrite decide_True.
    + intros later sub' Hin Hsub'. apply list_elem_of_lookup in Hin as [j Hj].
      by apply (Hlater (S j) later sub'); [lia| |].
  - apply (IH _ k); try done.
    intros j later sub' Hkj Hj. apply (Hlater (S j)); [lia|done].
Qed.

(** X21: An edge of a part is classified by the name of that part, if no
    later part has the edge too. *)
Theorem save_classifies_part_edges `{Repr} (save_path : option string)
    (partitioner partitioner' : Partitioner) (files files' : Geopackages)
    (k : nat) (part : Part) (n : string) (sub : Graph) (e : Edge) :
  save_to_gpkg save_path (partitioner, files) = (Returned tt, (partitioner', files')) →
  parts_saved partitioner !! k = Some part →
  part_name part = Some n → part_subgraph part = Some sub → e ∈ edges sub →
  (∀ j later sub', (k < j)%nat → parts_saved partitioner !! j = Some later →
                   part_subgraph later = Some sub' → e ∉ edges sub') →
  edge_attr (edge_data partitioner') e "classification" = Some (PStr n).
Proof.
  intros [-> Hall]%save_bakes Hk Hn Hsub He Hlater. by eapply bake_read.
Qed.

Lemma save_classifies_part_edges_witness :
  edge_attr (edge_data (@save_to_gpkg StrFacts.simple_repr None
                          (UtilsFacts.small_partitioner, ∅)).2.1)
    UtilsFacts.edge_a "classification"
  = Some (PStr "A").
Proof.
  apply (@save_classifies_part_edges StrFacts.simple_repr None
           UtilsFacts.small_partitioner
           (@save_to_gpkg StrFacts.simple_repr None (UtilsFacts.small_partitioner, ∅)).2.1
           ∅
           (@save_to_gpkg StrFacts.simple_repr None (UtilsFacts.small_partitioner, ∅)).2.2
           0%nat
           {| part_name := Some "A";
              part_subgraph := Some {| nodes := [1; 2]; edges := [UtilsFacts.edge_a] |} |}
           "A" {| nodes := [1; 2]; edges := [UtilsFacts.edge_a] |} UtilsFacts.edge_a).
  - reflexivity.
  - reflexivity.
  - reflexivity.
  - reflexivity.
  - left.
  - intros j later sub' Hj Hlater. destruct j as [|j]; [lia|]. done.
Defined.

End SaveFacts.

(** ** More on the [Metric] object *)

Module MetricFacts.

Import Formatting Metrics.

Lemma append_injective (prefix s t : string) :
  prefix +:+ s = prefix +:+ t → s = t.
Proof.
  induction prefix as [|a prefix IH]; [done|].
  rewrite !StrFacts.append_cons. intros [= Heq]. by apply IH.
Qed.

Lemma append_injective_l (s t suffix : string) :
  s +:+ suffix = t +:+ suffix → s = t.
Proof.
  revert t. induction s as [|a s IH]; intros [|b t]; [done| | |].
  - intros Heq. apply (f_equal String.length) in Heq.
    rewrite !StrFacts.length_append in Heq. simpl in Heq. lia.
  - intros Heq. apply (f_equal String.length) in Heq.
    rewrite !StrFacts.length_append in Heq. simpl in Heq. lia.
  - rewrite !StrFacts.append_cons. intros [= -> Heq]. f_equal. by apply IH.
Qed.

Lemma unit_symbol_injective `{Repr} (unit1 unit2 : value) :
  (unit1 = PNone ∨ ∃ u, unit1 = PStr u) →
  (unit2 = PNone ∨ ∃ u, unit2 = PStr u) →
  unit_symbol unit1 = unit_symbol unit2 → unit1 = unit2.
Proof.
  assert (Hbracket : ∀ u s, "(" +:+ u +:+ ")" = s → String.get 0 s = Some "("%char).
  { intros u s <-. reflexivity. }
  intros [->|[u1 ->]] [->|[u2 ->]]; cbn [unit_symbol]; [done| | |].
  - destruct (String.eqb u2 "time"); [done|].
    destruct (String.eqb u2 "distance"); [done|].
    intros Heq. symmetry in Heq. by apply Hbracket in Heq.
  - destruct (String.eqb u1 "time"); [done|].
    destruct (String.eqb u1 "distance"); [done|].
    intros Heq. by apply Hbracket in Heq.
  - destruct (String.eqb_spec u1 "time") as [->|H1].
    { destruct (String.eqb_spec u2 "time") as [->|H2]; [done|].
      destruct (String.eqb u2 "distance"); [done|].
      intros Heq. symmetry in Heq. by apply Hbracket in Heq. }
    destruct (String.eqb_spec u1 "distance") as [->|H1'].
    { destruct (String.eqb_spec u2 "time") as [->|H2]; [done|].
      destruct (String.eqb_spec u2 "distance") as [->|H2']; [done|].
      intros Heq. symmetry in Heq. by apply Hbracket in Heq. }
    destruct (String.eqb u2 "time"); [intros Heq; by apply Hbracket in Heq|].
    destruct (String.eqb u2 "distance"); [intros Heq; by apply Hbracket in Heq|].
    intros Heq. apply append_injective in Heq. apply append_injective_l in Heq.
    by subst.
Qed.

(** X22: Two different units, each a string or [None], never have the same
    symbol: the symbols of custom units are in brackets, which ["s"],
    ["m"] and ["hops"] are not. *)
Theorem unit_symbol_tells_units_apart `{Repr} (unit1 unit2 : value) :
  (unit1 = PNone ∨ ∃ u, unit1 = PStr u) →
  (unit2 = PNone ∨ ∃ u, unit2 = PStr u) →
  unit1 ≠ unit2 → unit_symbol unit1 ≠ unit_symbol unit2.
Proof.
  intros H1 H2 Hne Heq. apply Hne. by apply unit_symbol_injective.
Qed.

Lemma unit_symbol_tells_units_apart_witness :
  @unit_symbol StrFacts.simple_repr (PStr "time")
  ≠ @unit_symbol StrFacts.simple_repr (PStr "s").
Proof.
  apply (@unit_symbol_tells_units_apart StrFacts.simple_repr (PStr "time") (PStr "s")).
  - right. eexists. reflexivity.
  - right. eexists. reflexivity.
  - discriminate.
Defined.

Lemma getattr_setattr (self : Metric) (attr attr' : string) (v : value) :
  getattr (setattr attr v self) attr'
  = if String.eqb attr attr' then Some v else getattr self attr'.
Proof.
  induction self as [|[k w] self IH]; cbn [setattr getattr].
  - by destruct (String.eqb attr attr').
  - destruct (String.eqb_spec k attr) as [->|Hk]; cbn [getattr].
    + by destruct (String.eqb attr attr').
    + destruct (String.eqb_spec k attr') as [->|Hk'].
      * destruct (String.eqb_spec attr attr') as [->|]; [done|done].
      * exact IH.
Qed.

(** X23: [calculate_high_bc_clustering] writes at the very end: a call that
    raises leaves the metric as it was; a call that returns has written
    the two results and no other attribute. *)
Theorem clustering_writes_its_two_results `{Measures} (data : NodeData)
    (percentile : value) (self : Metric) :
  (∀ err, (calculate_high_bc_clustering data percentile self).1 = Raised err →
          (calculate_high_bc_clustering data percentile self).2 = self)
  ∧ ((calculate_high_bc_clustering data percentile self).1 = Returned tt →
     is_Some (getattr (calculate_high_bc_clustering data percentile self).2
                "high_bc_clustering")
     ∧ is_Some (getattr (calculate_high_bc_clustering data percentile self).2
                  "high_bc_anisotropy")
     ∧ ∀ attr, attr ≠ "high_bc_clustering" → attr ≠ "high_bc_anisotropy" →
         getattr (calculate_high_bc_clustering data percentile self).2 attr
         = getattr self attr).
Proof.
  unfold calculate_high_bc_clustering, mbind_method, lift, get, put, ret, raise.
  destruct (check_percentile percentile) as [[]|err]; [|done].
  cbv beta iota.
  destruct (getattr self "node_list") as [[| | | | |l| |]|]; try done.
  destruct (node_attributes data "x" l) as [node_x|err]; [|done].
  destruct (node_attributes data "y" l) as [node_y|err]; [|done].
  destruct (node_attributes data "node_betweenness_normal" l) as [node_b|err]; [|done].
  destruct (measure_high_bc_clustering _ _ _ _) as [r|err]; [|done].
  cbn [fst snd]. split; [done|]. intros _.
  rewrite !getattr_setattr. cbn. split; [eauto|]. split; [eauto|].
  intros attr Hc Ha. rewrite !getattr_setattr.
  destruct (String.eqb_spec "high_bc_anisotropy" attr) as [<-|]; [done|].
  by destruct (String.eqb_spec "high_bc_clustering" attr) as [<-|].
Qed.

(** X24: A metric prints as the empty string exactly when none of its
    attributes is listed; the second [Metric] lists its unit, so that it
    never prints as the empty string while it has one that is not a dict. *)
Theorem str_is_empty_when_nothing_is_listed `{Repr} :
  (∀ self, LegacyMetrics.__str__ self = ""
           ↔ Forall (fun kv => StrFacts.listed (fun _ => false) kv = false) self)
  ∧ (∀ self, Metrics.__str__ self = ""
             ↔ Forall (fun kv => StrFacts.listed StrFacts.is_unit kv = false) self)
  ∧ ∀ unit, (∀ d, unit ≠ PDict d) → Metrics.__str__ (Metrics.__init__ unit) ≠ "".
Proof.
  assert (Hrender : ∀ kv s, StrFacts.render kv +:+ s ≠ "").
  { intros [k v] s. unfold StrFacts.render. cbn [fst snd].
    destruct v; destruct k; done. }
  assert (Hspec : ∀ always self,
            StrFacts.str_spec always self = ""
            ↔ Forall (fun kv => StrFacts.listed always kv = false) self).
  { intros always self. unfold StrFacts.str_spec.
    induction self as [|kv self IH]; [by split|].
    rewrite filter_cons, Forall_cons. case_decide as Hkv.
    - cbn [map join String.concat]. split.
      + destruct (map StrFacts.render _); intros Heq.
        * rewrite <- (StrFacts.append_nil_r (StrFacts.render kv)) in Heq.
          by apply Hrender in Heq.
        * by apply Hrender in Heq.
      + intros [Hno _]. congruence.
    - rewrite IH. apply not_true_iff_false in Hkv. tauto. }
  split; [|split].
  - intros self. by rewrite StrFacts.legacy_str_spec.
  - intros self. by rewrite StrFacts.metric_str_spec.
  - intros unit Hunit. rewrite StrFacts.metric_str_spec, Hspec.
    unfold Metrics.__init__. rewrite !Forall_cons.
    intros (_ & _ & _ & _ & _ & _ & _ & _ & _ & Hlisted & _).
    unfold StrFacts.listed in Hlisted. cbn in Hlisted.
    rewrite orb_true_r in Hlisted. destruct unit; try done. by eapply Hunit.
Qed.

End MetricFacts.

(** ** The containment check, test by test *)

Module ContainmentFacts.

Import Networkx Checks ChecksFacts.

(** The messages of the error records of a trace. *)
Definition errors (t : list event) : list string :=
  omap (fun ev => match ev with LogError msg _ => Some msg | _ => None end) t.

Lemma errors_app (t1 t2 : list event) : errors (t1 ++ t2) = errors t1 ++ errors t2.
Proof. apply omap_app. Qed.

Lemma nodes_overlap_spec (p : Partitioning) :
  any (nodes_overlap p) = false ↔ node_sets_disjoint p.
Proof. unfold nodes_overlap. apply overlap_disjoint. Qed.

Lemma missing_nodes_spec (p : Partitioning) :
  Nat.ltb 0 (length (missing_nodes p)) = false ↔ no_orphan_nodes p.
Proof.
  unfold missing_nodes. rewrite no_missing. unfold no_orphan_nodes.
  by setoid_rewrite elem_of_some_part.
Qed.

Lemma edges_overlap_spec (p : Partitioning) :
  any (edges_overlap p) = false ↔ edge_sets_disjoint p.
Proof. unfold edges_overlap. apply overlap_disjoint. Qed.

Lemma missing_edges_spec (p : Partitioning) :
  Nat.ltb 0 (length (missing_edges p)) = false ↔ no_orphan_edges p.
Proof.
  unfold missing_edges. rewrite no_missing. unfold no_orphan_edges.
  by setoid_rewrite elem_of_some_part.
Qed.

(** Of the five cases of the theorem one is the case at hand; the others
    contradict what the tests returned. *)
Ltac settle :=
  intros;
  first [ congruence
        | split; [reflexivity | cbn; rewrite ?app_nil_r; reflexivity]
        | reflexivity ].

(** X25: [nodes_and_edges_are_contained_in_exactly_one_subgraph] tests
    the node overlap, the orphan nodes, the edge overlap and the orphan
    edges in this order and returns False at the first test that fails:
    it logs the error of that test and of no later one.  When all four
    pass it returns True and logs nothing. *)
Theorem containment_reports_first_failure (p : Partitioning) (t : list event) :
  let after := nodes_and_edges_are_contained_in_exactly_one_subgraph p t in
  (¬ node_sets_disjoint p →
   after.1 = Returned false
   ∧ errors after.2
     = errors t ++ ["The nodes of %s overlap in the following subgraphs: %s"])
  ∧ (node_sets_disjoint p → ¬ no_orphan_nodes p →
     after.1 = Returned false
     ∧ errors after.2
       = errors t ++ ["%s has %d nodes that are not contained in any subgraph or the sparsified graph: %s"])
  ∧ (node_sets_disjoint p → no_orphan_nodes p → ¬ edge_sets_disjoint p →
     after.1 = Returned false
     ∧ errors after.2
       = errors t ++ ["The edges of %s overlap in the following subgraphs: %s"])
  ∧ (node_sets_disjoint p → no_orphan_nodes p → edge_sets_disjoint p →
     ¬ no_orphan_edges p →
     after.1 = Returned false
     ∧ errors after.2
       = errors t ++ ["%s has %d edges that are not contained in any subgraph or the sparsified graph: %s"])
  ∧ (node_sets_disjoint p → no_orphan_nodes p → edge_sets_disjoint p →
     no_orphan_edges p →
     after = (Returned true, t)).
Proof.
  cbv zeta.
  unfold nodes_and_edges_are_contained_in_exactly_one_subgraph, mbind_method, emit, ret.
  rewrite <- nodes_overlap_spec, <- missing_nodes_spec, <- edges_overlap_spec,
    <- missing_edges_spec.
  assert (Hnone : ∀ f, errors (map (fun n => SetNodeAttribute n "missing_nodes" (f n))
                                   (nodes (graph p))) = []).
  { intros f. induction (nodes (graph p)); [done|]. assumption. }
  destruct (any (nodes_overlap p));
    [cbv beta iota; cbn [fst snd]; rewrite errors_app; repeat apply conj; settle|].
  destruct (Nat.ltb 0 (length (missing_nodes p)));
    [cbv beta iota; rewrite emit_all_spec; cbv beta iota; cbn [fst snd];
     rewrite !errors_app, Hnone; repeat apply conj; settle|].
  destruct (any (edges_overlap p));
    [cbv beta iota; cbn [fst snd]; rewrite errors_app; repeat apply conj; settle|].
  destruct (Nat.ltb 0 (length (missing_edges p)));
    [cbv beta iota; cbn [fst snd]; rewrite errors_app; repeat apply conj; settle|].
  cbv beta iota. repeat apply conj; settle.
Qed.

(** Two components that share the node 2, and a node 9 that is nowhere:
    only the overlap is reported. *)
Example overlap_hides_the_orphan :
  let p := {| name := "p";
              graph := {| nodes := [1; 2; 3; 9]; edges := [] |};
              sparsified := {| nodes := [1]; edges := [] |};
              components := None; partitions := None;
              get_partition_nodes :=
                [ {| pn_name := "A"; pn_nodes := [2; 3];
                     pn_subgraph := {| nodes := [2; 3]; edges := [] |} |};
                  {| pn_name := "B"; pn_nodes := [2];
                     pn_subgraph := {| nodes := [2]; edges := [] |} |} ] |} in
  nodes_and_edges_are_contained_in_exactly_one_subgraph p []
  = (Returned false,
     [LogError "The nodes of %s overlap in the following subgraphs: %s"
        ["p"; "A and B"]]).
Proof. vm_compute. reflexivity. Qed.

End ContainmentFacts.
(** ** The order of the checks *)

Module OrderFacts.

Import Networkx Checks ChecksFacts ContainmentFacts.

(** The error messages of the checks, by the number of the check. *)
Definition error_1 : string := "The sparsified graph of %s is not connected.".
Definition error_2 : string := "The subgraph %s of %s is not connected.".
Definition error_3 : string := "The nodes of %s overlap in the following subgraphs: %s".
Definition error_4 : string :=
  "%s has %d nodes that are not contained in any subgraph or the sparsified graph: %s".
Definition error_5 : string := "The edges of %s overlap in the following subgraphs: %s".
Definition error_6 : string :=
  "%s has %d edges that are not contained in any subgraph or the sparsified graph: %s".
Definition error_7 : string :=
  "The subgraph %s of %s is not connected to the sparsified graph.".

(** The errors a run of the checker logs. *)
Definition errors_run (p : Partitioning) : list string :=
  errors (is_valid_partitioning p []).2.

(** The error of the containment stage: that of its first test that
    fails. *)
Definition containment_errors (p : Partitioning) : list string :=
  if any (nodes_overlap p) then [error_3]
  else if Nat.ltb 0 (length (missing_nodes p)) then [error_4]
  else if any (edges_overlap p) then [error_5]
  else if Nat.ltb 0 (length (missing_edges p)) then [error_6]
  else [].

Lemma contained_errors (p : Partitioning) (t : list event) :
  errors (nodes_and_edges_are_contained_in_exactly_one_subgraph p t).2
  = errors t ++ containment_errors p.
Proof.
  unfold nodes_and_edges_are_contained_in_exactly_one_subgraph, containment_errors,
    mbind_method, emit, ret.
  assert (Hnone : ∀ f, errors (map (fun n => SetNodeAttribute n "missing_nodes" (f n))
                                   (nodes (graph p))) = []).
  { intros f. induction (nodes (graph p)); [done|]. assumption. }
  destruct (any (nodes_overlap p));
    [cbv beta iota; cbn [fst snd]; rewrite errors_app; reflexivity|].
  destruct (Nat.ltb 0 (length (missing_nodes p)));
    [cbv beta iota; rewrite emit_all_spec; cbv beta iota; cbn [fst snd];
     rewrite !errors_app, Hnone; cbn; rewrite !app_nil_r; reflexivity|].
  destruct (any (edges_overlap p));
    [cbv beta iota; cbn [fst snd]; rewrite errors_app; reflexivity|].
  destruct (Nat.ltb 0 (length (missing_edges p)));
    [cbv beta iota; cbn [fst snd]; rewrite errors_app; reflexivity|].
  cbv beta iota. cbn [snd]. by rewrite app_nil_r.
Qed.

Lemma touch_loop_errors (p : Partitioning) (cs : list Component) (t : list event) :
  errors (components_are_connect_sparsified_loop p cs t).2
  = errors t ++ (if forallb (touches p) cs then [] else [error_7]).
Proof.
  revert t. induction cs as [|c cs IH]; intros t;
    cbn [components_are_connect_sparsified_loop forallb].
  { cbn. by rewrite app_nil_r. }
  fold (touches p c). destruct (touches p c); cbn [negb andb]; [apply IH|].
  unfold mbind_method, emit, ret. cbv beta iota. cbn [snd]. by rewrite errors_app.
Qed.

(** When every component is connected the loop of the second check
    returns and writes nothing. *)
Lemma components_loop_passes (p : Partitioning) (cs : list Component) (found : bool)
    (t : list event) :
  Forall (fun c => is_weakly_connected (subgraph c) = Returned true) cs →
  components_are_connected_loop p cs found t = (Returned found, t).
Proof.
  induction 1 as [|c cs Hc Hcs IH]; cbn [components_are_connected_loop]; [done|].
  unfold mbind_method at 1, lift. rewrite Hc. cbn [negb]. exact IH.
Qed.

(** The checker after its second check. *)
Definition later_checks (p : Partitioning) : logged bool :=
  _ <~ emit (LogDebug stage_3) ;;
  ok <~ nodes_and_edges_are_contained_in_exactly_one_subgraph p ;;
  if negb ok then ret false else
  _ <~ emit (LogDebug stage_4) ;;
  ok <~ components_are_connect_sparsified p ;;
  if negb ok then ret false else
  _ <~ emit (LogInfo "The partitioning %s is valid.") ;;
  ret true.

Lemma run_after_second_check (p : Partitioning) :
  sparsified_connected p → components_connected p →
  is_valid_partitioning p []
  = later_checks p [LogDebug stage_1; LogDebug stage_2].
Proof.
  intros Hsparse (cs & Hparts & Hconn).
  unfold is_valid_partitioning, components_are_connected.
  unfold mbind_method at 1, emit at 1. cbv beta iota.
  unfold mbind_method at 1, lift at 1. rewrite Hsparse. cbn [negb].
  unfold mbind_method at 1, emit at 1. cbv beta iota.
  unfold mbind_method at 1 2, lift at 1. rewrite Hparts. cbv beta iota.
  rewrite components_loop_passes by done. cbn [negb app]. reflexivity.
Qed.

Lemma later_checks_errors (p : Partitioning) (cs : list Component) (t : list event) :
  parts p = Returned cs →
  ∃ t',
    later_checks p t
    = (Returned (contained_result p && forallb (touches p) cs), t')
    ∧ errors t'
      = errors t ++ containment_errors p
        ++ (if contained_result p && negb (forallb (touches p) cs)
            then [error_7] else []).
Proof.
  intros Hparts. unfold later_checks.
  unfold mbind_method at 1, emit at 1. cbv beta iota.
  unfold mbind_method at 1.
  destruct (contained_spec p (t ++ [LogDebug stage_3])) as [Hres _].
  pose proof (contained_errors p (t ++ [LogDebug stage_3])) as Herr.
  destruct (nodes_and_edges_are_contained_in_exactly_one_subgraph p _) as [r3 t3].
  cbn [fst snd] in Hres, Herr. subst r3. rewrite errors_app in Herr.
  cbn in Herr. rewrite app_nil_r in Herr.
  destruct (contained_result p); cbn [negb andb];
    [|exists t3; unfold ret; by rewrite Herr, app_nil_r].
  unfold mbind_method at 1, emit at 1. cbv beta iota.
  unfold components_are_connect_sparsified.
  unfold mbind_method at 1 2, lift. rewrite Hparts. cbv beta iota.
  destruct (touch_loop_spec p cs (t3 ++ [LogDebug stage_4])) as [Hres4 _].
  pose proof (touch_loop_errors p cs (t3 ++ [LogDebug stage_4])) as Herr4.
  destruct (components_are_connect_sparsified_loop p cs _) as [r4 t4].
  cbn [fst snd] in Hres4, Herr4. subst r4. rewrite errors_app in Herr4.
  cbn in Herr4. rewrite app_nil_r, Herr in Herr4.
  destruct (forallb (touches p) cs); cbn [negb];
    unfold mbind_method, emit, ret; cbv beta iota;
    eexists; (split; [reflexivity|]);
    rewrite ?errors_app, Herr4; cbn; by rewrite ?app_nil_r, <- ?app_assoc.
Qed.

(** X18: apart from the second check, [is_valid_partitioning] answers in
    the order of the seven checks.  It returns True exactly when all
    seven pass; at the first of the checks 1, 3, 4, 5, 6 and 7 that fails
    it returns False, and the one error it logs is the error of that
    check.  When it returns False the second check has not failed: a
    component that is not connected ends the run with an exception. *)
Theorem checker_answers_in_order (p : Partitioning) :
  (valid_result p = Returned true
   ↔ sparsified_connected p ∧ components_connected p
     ∧ node_sets_disjoint p ∧ no_orphan_nodes p
     ∧ edge_sets_disjoint p ∧ no_orphan_edges p
     ∧ components_touch_sparsified p)
  ∧ (sparsified_disconnected p →
     valid_result p = Returned false ∧ errors_run p = [error_1])
  ∧ (sparsified_connected p → components_connected p →
     ¬ node_sets_disjoint p →
     valid_result p = Returned false ∧ errors_run p = [error_3])
  ∧ (sparsified_connected p → components_connected p →
     node_sets_disjoint p → ¬ no_orphan_nodes p →
     valid_result p = Returned false ∧ errors_run p = [error_4])
  ∧ (sparsified_connected p → components_connected p →
     node_sets_disjoint p → no_orphan_nodes p → ¬ edge_sets_disjoint p →
     valid_result p = Returned false ∧ errors_run p = [error_5])
  ∧ (sparsified_connected p → components_connected p →
     node_sets_disjoint p → no_orphan_nodes p → edge_sets_disjoint p →
     ¬ no_orphan_edges p →
     valid_result p = Returned false ∧ errors_run p = [error_6])
  ∧ (sparsified_connected p → components_connected p →
     node_sets_disjoint p → no_orphan_nodes p → edge_sets_disjoint p →
     no_orphan_edges p → some_component_apart p →
     valid_result p = Returned false ∧ errors_run p = [error_7])
  ∧ (valid_result p = Returned false →
     sparsified_disconnected p
     ∨ (sparsified_connected p ∧ components_connected p)).
Proof.
  split; [apply valid_result_true|].
  assert (Hlater : sparsified_connected p → components_connected p →
            ∀ cs, parts p = Returned cs →
            valid_result p = Returned (contained_result p && forallb (touches p) cs)
            ∧ errors_run p
              = containment_errors p
                ++ (if contained_result p && negb (forallb (touches p) cs)
                    then [error_7] else [])).
  { intros Hsparse Hconn cs Hparts. unfold valid_result, errors_run.
    rewrite run_after_second_check by done.
    destruct (later_checks_errors p cs [LogDebug stage_1; LogDebug stage_2] Hparts)
      as (t' & -> & Herr).
    cbn [fst snd]. by rewrite Herr. }
  assert (Hcases :
            (¬ node_sets_disjoint p →
             contained_result p = false ∧ containment_errors p = [error_3])
            ∧ (node_sets_disjoint p → ¬ no_orphan_nodes p →
               contained_result p = false ∧ containment_errors p = [error_4])
            ∧ (node_sets_disjoint p → no_orphan_nodes p → ¬ edge_sets_disjoint p →
               contained_result p = false ∧ containment_errors p = [error_5])
            ∧ (node_sets_disjoint p → no_orphan_nodes p → edge_sets_disjoint p →
               ¬ no_orphan_edges p →
               contained_result p = false ∧ containment_errors p = [error_6])
            ∧ (node_sets_disjoint p → no_orphan_nodes p → edge_sets_disjoint p →
               no_orphan_edges p →
               contained_result p = true ∧ containment_errors p = [])).
  { unfold contained_result, containment_errors.
    rewrite <- nodes_overlap_spec, <- missing_nodes_spec, <- edges_overlap_spec,
      <- missing_edges_spec.
    destruct (any (nodes_overlap p)); [repeat apply conj; intros; done|].
    destruct (Nat.ltb 0 (length (missing_nodes p))); [repeat apply conj; intros; done|].
    destruct (any (edges_overlap p)); [repeat apply conj; intros; done|].
    destruct (Nat.ltb 0 (length (missing_edges p))); repeat apply conj; intros; done. }
  split; [|split; [|split; [|split; [|split; [|split]]]]].
  - intros Hno. unfold sparsified_disconnected in Hno.
    unfold valid_result, errors_run, is_valid_partitioning.
    unfold mbind_method at 1 3, emit at 1 2. cbv beta iota.
    unfold mbind_method at 1 2, lift. rewrite Hno. cbn [negb].
    unfold mbind_method, emit, ret. cbv beta iota. done.
  - intros Hsparse Hconn Hno. pose proof Hconn as (cs & Hparts & _).
    destruct (Hlater Hsparse Hconn cs Hparts) as [-> ->].
    destruct Hcases as (Hcase & _). destruct (Hcase Hno) as [-> ->]. done.
  - intros Hsparse Hconn H3 Hno. pose proof Hconn as (cs & Hparts & _).
    destruct (Hlater Hsparse Hconn cs Hparts) as [-> ->].
    destruct Hcases as (_ & Hcase & _). destruct (Hcase H3 Hno) as [-> ->]. done.
  - intros Hsparse Hconn H3 H4 Hno. pose proof Hconn as (cs & Hparts & _).
    destruct (Hlater Hsparse Hconn cs Hparts) as [-> ->].
    destruct Hcases as (_ & _ & Hcase & _).
    destruct (Hcase H3 H4 Hno) as [-> ->]. done.
  - intros Hsparse Hconn H3 H4 H5 Hno. pose proof Hconn as (cs & Hparts & _).
    destruct (Hlater Hsparse Hconn cs Hparts) as [-> ->].
    destruct Hcases as (_ & _ & _ & Hcase & _).
    destruct (Hcase H3 H4 H5 Hno) as [-> ->]. done.
  - intros Hsparse Hconn H3 H4 H5 H6 (cs & Hparts & Hno).
    destruct (Hlater Hsparse Hconn cs Hparts) as [-> ->].
    destruct Hcases as (_ & _ & _ & _ & Hcase).
    destruct (Hcase H3 H4 H5 H6) as [-> ->].
    rewrite <- touches_spec in Hno. apply not_true_iff_false in Hno.
    rewrite Hno. done.
  - rewrite staged_result. unfold staged, sparsified_disconnected, sparsified_connected.
    destruct (is_weakly_connected (sparsified p)) as [[]|err]; [|by left|done].
    intros Hfalse. right. split; [done|]. apply parts_connected.
    destruct (parts p) as [cs|err]; cbn [Py.bind] in *; [|done].
    destruct (connected_result_answer p cs) as [Htrue|[err Herr]]; [done|].
    by rewrite Herr in Hfalse.
Qed.

(** The square of the partitioning checks with node 4 in both
    components and the edge 4 -> 1 in none: the node overlap is what is
    reported. *)
Example first_failure_only :
  let p := {| name := "square";
              graph := graph square;
              sparsified := sparsified square;
              components := components square;
              partitions := None;
              get_partition_nodes :=
                [ {| pn_name := "A"; pn_nodes := [4];
                     pn_subgraph := {| nodes := [3; 4]; edges := [(3, 4, 0)] |} |};
                  {| pn_name := "B"; pn_nodes := [4];
                     pn_subgraph := {| nodes := [4; 1]; edges := [] |} |} ] |} in
  valid_result p = Returned false ∧ errors_run p = [error_3].
Proof. split; vm_compute; reflexivity. Qed.

End OrderFacts.
